(** * The connection and session layer of the Tauri MCP server

  A shallow embedding of
  - [packages/mcp-server/src/config.ts],
  - [packages/mcp-server/src/driver/plugin-client.ts],
  - [packages/mcp-server/src/driver/app-discovery.ts],
  - [packages/mcp-server/src/driver/session-manager.ts],
  followed by the properties of the dispatcher, of port discovery and of the
  session coordinator.

  JavaScript numbers that hold ports, delays and counters are integers here
  ([Z]); strings are byte strings.  The event loop is explicit: every
  callback the source registers (socket listeners, timer callbacks, the
  completion callback of [send]) is a function on the client's state, and
  the environment chooses which callback runs next.  An exception that
  leaves such a callback is nobody's to catch: the promise that waits for
  the callback is not settled, and the call that awaits it does not
  return. *)

From Stdlib Require Import ZArith String Ascii List Lia Permutation.
From stdpp Require Import base option gmap list strings pretty.
Import ListNotations.

(** ** config.ts *)

Module Config.

(** The three variables of [process.env] that the server reads. *)
Record ProcessEnv := {
  MCP_BRIDGE_HOST : option string;
  TAURI_DEV_HOST : option string;
  MCP_BRIDGE_PORT : option string
}.

(** [process.env.X] used as a condition: unset and the empty string are
    both falsy. *)
Definition truthy (v : option string) : option string :=
  match v with
  | Some EmptyString => None
  | other => other
  end.

Definition getDefaultHost (env : ProcessEnv) : string :=
  match truthy (MCP_BRIDGE_HOST env) with
  | Some h => h
  | None =>
      match truthy (TAURI_DEV_HOST env) with
      | Some h => h
      | None => "localhost"
      end
  end.

(** [parseInt(port, 10)] is the built-in; it is a parameter of the model
    (its results are taken to be integers). *)
Definition getDefaultPort (parseInt : string -> Z) (env : ProcessEnv) : Z :=
  match truthy (MCP_BRIDGE_PORT env) with
  | Some port => parseInt port
  | None => 9223%Z
  end.

Definition buildWebSocketURL (host : string) (port : Z) : string :=
  "ws://" +:+ host +:+ ":" +:+ pretty port.

End Config.

(** ** JSON.stringify on the values the server prints *)

Module JSON.

#[warnings="-register-all"]
Inductive value :=
| Null
| Bool (b : bool)
| Number (z : Z)
| Str (s : string)
| Object (fields : list (string * value)).

Definition hex_digit (n : nat) : ascii :=
  nth n (list_ascii_of_string "0123456789abcdef") "0"%char.

(** One character of a quoted string: the quote, the backslash and the
    control characters are escaped, every other byte is copied. *)
Definition escape (c : ascii) : string :=
  let n := nat_of_ascii c in
  if Nat.eqb n 34 then "\" +:+ String c EmptyString
  else if Nat.eqb n 92 then "\\"
  else if Nat.eqb n 8 then "\b"
  else if Nat.eqb n 9 then "\t"
  else if Nat.eqb n 10 then "\n"
  else if Nat.eqb n 12 then "\f"
  else if Nat.eqb n 13 then "\r"
  else if Nat.ltb n 32 then
    "\u00" +:+ String (hex_digit (n / 16)) (String (hex_digit (n mod 16)) EmptyString)
  else String c EmptyString.

Fixpoint escape_all (s : string) : string :=
  match s with
  | EmptyString => EmptyString
  | String c rest => escape c +:+ escape_all rest
  end.

Definition dquote : string := String (ascii_of_nat 34) EmptyString.

Definition quote (s : string) : string := dquote +:+ escape_all s +:+ dquote.

Fixpoint stringify (v : value) : string :=
  match v with
  | Null => "null"
  | Bool true => "true"
  | Bool false => "false"
  | Number z => pretty z
  | Str s => quote s
  | Object fields =>
      "{" +:+
      (fix members (fs : list (string * value)) : string :=
         match fs with
         | [] => EmptyString
         | [(k, x)] => quote k +:+ ":" +:+ stringify x
         | (k, x) :: rest => quote k +:+ ":" +:+ stringify x +:+ "," +:+ members rest
         end) fields
      +:+ "}"
  end.

End JSON.

(** ** Calls that do not return *)

Module Async.

(** How an awaited call ends when it yields no value.
    - [Thrown e]: its promise is rejected with [e], which a [catch] around
      the [await] receives.
    - [Uncaught e]: [e] was thrown in a callback of a socket, outside every
      promise.  The awaited promise is never settled, no [catch] runs, and
      Node ends the process (nothing in the sources handles
      ['uncaughtException']).
    - [Pending]: the awaited promise is never settled. *)
Inductive Abort :=
| Thrown (e : string)
| Uncaught (e : string)
| Pending.

End Async.

(** ** plugin-client.ts *)

Module PluginClient.

(** [WebSocket.readyState]. *)
Inductive ReadyState := CONNECTING | OPEN | CLOSING | CLOSED.

Global Instance ReadyState_eq_dec : EqDecision ReadyState.
Proof. solve_decision. Defined.

Record PluginCommand := {
  cmd_id : option string;
  command : string;
  args : option string
}.

Record PluginResponse := {
  msg_id : option string;
  success : bool;
  data : option string;
  error : option string
}.

(** What [JSON.parse(data.toString())] makes of an inbound frame.  [Parsed m]
    is an object; [msg_id m] is its [id] when that is a string and [None] when
    the field is absent or no string (such a value is never a key of the
    pending map).  [Unparseable] stands for every frame on which the body of
    the [try] throws. *)
Inductive Inbound :=
| Unparseable
| Parsed (m : PluginResponse).

(** State of the promise a [sendCommand] call returned. *)
Inductive Settled :=
| Resolved (m : PluginResponse)
| Rejected (reason : string).

(** A value of the pending-request map: [resolve] and [reject] belong to one
    promise, [timeout] is a timer handle. *)
Record PendingRequest := {
  promise : nat;
  timeout : nat
}.

(** The two callbacks the client hands to [setTimeout], with what each
    closure captured. *)
Inductive TimerTask :=
| RequestTimeout (p : nat) (id : string) (timeoutMs : Z)
| Reconnect.

Record Timer := {
  delay : Z;
  task : TimerTask
}.

(** What a callback does to the world outside the client's own fields.
    [emit] hands the event to the listeners that were registered on the
    client; they are not part of it.  For ['connected'], ['disconnected'] and
    ['event'] the call returns whether or not anybody listens.  For ['error']
    it throws when nobody does, and nobody does: no code of the repository
    registers a listener for ['error'] on a client.  [Throw] is an exception
    that leaves the callback in which it is raised. *)
Inductive Action :=
| NewWebSocket (k : nat) (url : string)
| WsSend (k : nat) (frame : PluginCommand)
| WsCloseCall (k : nat)
| SetTimeout (h : nat) (tm : Timer)
| ClearTimeout (h : nat)
| EmitConnected
| EmitDisconnected
| EmitEvent (m : PluginResponse)
| EmitError (err : string)
| ConnectResolved
| Throw (err : string)
| Resolve (p : nat) (m : PluginResponse)
| Reject (p : nat) (reason : string).

(** The client object together with the run-time objects its closures hold:
    the sockets it created, its live timers, the promises it returned and the
    completion callbacks it passed to [send]. *)
Record t := {
  _ws : option nat;
  _url : string;
  _host : string;
  _port : Z;
  _reconnectAttempts : Z;
  _maxReconnectAttempts : Z;
  _pendingRequests : gmap string PendingRequest;
  sockets : gmap nat ReadyState;
  timers : gmap nat Timer;
  promises : gmap nat Settled;
  sends : gmap nat (string * nat);
  next_socket : nat;
  next_timer : nat;
  next_promise : nat
}.

Definition set_ws (v : option nat) (c : t) : t :=
  {| _ws := v; _url := _url c; _host := _host c; _port := _port c;
     _reconnectAttempts := _reconnectAttempts c;
     _maxReconnectAttempts := _maxReconnectAttempts c;
     _pendingRequests := _pendingRequests c; sockets := sockets c;
     timers := timers c; promises := promises c; sends := sends c;
     next_socket := next_socket c; next_timer := next_timer c;
     next_promise := next_promise c |}.

Definition set_reconnectAttempts (v : Z) (c : t) : t :=
  {| _ws := _ws c; _url := _url c; _host := _host c; _port := _port c;
     _reconnectAttempts := v;
     _maxReconnectAttempts := _maxReconnectAttempts c;
     _pendingRequests := _pendingRequests c; sockets := sockets c;
     timers := timers c; promises := promises c; sends := sends c;
     next_socket := next_socket c; next_timer := next_timer c;
     next_promise := next_promise c |}.

Definition set_pendingRequests (v : gmap string PendingRequest) (c : t) : t :=
  {| _ws := _ws c; _url := _url c; _host := _host c; _port := _port c;
     _reconnectAttempts := _reconnectAttempts c;
     _maxReconnectAttempts := _maxReconnectAttempts c;
     _pendingRequests := v; sockets := sockets c;
     timers := timers c; promises := promises c; sends := sends c;
     next_socket := next_socket c; next_timer := next_timer c;
     next_promise := next_promise c |}.

Definition set_sockets (v : gmap nat ReadyState) (n : nat) (c : t) : t :=
  {| _ws := _ws c; _url := _url c; _host := _host c; _port := _port c;
     _reconnectAttempts := _reconnectAttempts c;
     _maxReconnectAttempts := _maxReconnectAttempts c;
     _pendingRequests := _pendingRequests c; sockets := v;
     timers := timers c; promises := promises c; sends := sends c;
     next_socket := n; next_timer := next_timer c;
     next_promise := next_promise c |}.

Definition set_timers (v : gmap nat Timer) (n : nat) (c : t) : t :=
  {| _ws := _ws c; _url := _url c; _host := _host c; _port := _port c;
     _reconnectAttempts := _reconnectAttempts c;
     _maxReconnectAttempts := _maxReconnectAttempts c;
     _pendingRequests := _pendingRequests c; sockets := sockets c;
     timers := v; promises := promises c; sends := sends c;
     next_socket := next_socket c; next_timer := n;
     next_promise := next_promise c |}.

Definition set_promises (v : gmap nat Settled) (n : nat) (c : t) : t :=
  {| _ws := _ws c; _url := _url c; _host := _host c; _port := _port c;
     _reconnectAttempts := _reconnectAttempts c;
     _maxReconnectAttempts := _maxReconnectAttempts c;
     _pendingRequests := _pendingRequests c; sockets := sockets c;
     timers := timers c; promises := v; sends := sends c;
     next_socket := next_socket c; next_timer := next_timer c;
     next_promise := n |}.

Definition set_sends (v : gmap nat (string * nat)) (c : t) : t :=
  {| _ws := _ws c; _url := _url c; _host := _host c; _port := _port c;
     _reconnectAttempts := _reconnectAttempts c;
     _maxReconnectAttempts := _maxReconnectAttempts c;
     _pendingRequests := _pendingRequests c; sockets := sockets c;
     timers := timers c; promises := promises c; sends := v;
     next_socket := next_socket c; next_timer := next_timer c;
     next_promise := next_promise c |}.

(** [new PluginClient(host, port)]. *)
Definition new (host : string) (port : Z) : t :=
  {| _ws := None;
     _url := Config.buildWebSocketURL host port;
     _host := host;
     _port := port;
     _reconnectAttempts := 0;
     _maxReconnectAttempts := 5;
     _pendingRequests := ∅;
     sockets := ∅; timers := ∅; promises := ∅; sends := ∅;
     next_socket := 0; next_timer := 0; next_promise := 0 |}.

Definition create_default (parseInt : string -> Z) (env : Config.ProcessEnv) : t :=
  new (Config.getDefaultHost env) (Config.getDefaultPort parseInt env).

(** [this._ws?.readyState === WebSocket.OPEN]. *)
Definition isConnected (c : t) : bool :=
  match _ws c with
  | Some k => bool_decide (sockets c !! k = Some OPEN)
  | None => false
  end.

(** Run-time primitives. *)

(** [setTimeout(cb, ms)]: a fresh handle. *)
Definition setTimeout (tk : TimerTask) (ms : Z) (c : t) : nat * t :=
  let h := next_timer c in
  (h, set_timers (<[h := {| delay := ms; task := tk |}]> (timers c)) (S h) c).

Definition clearTimeout (h : nat) (c : t) : t :=
  set_timers (delete h (timers c)) (next_timer c) c.

(** [resolve(m)] and [reject(e)]: only the first settlement of a promise
    counts. *)
Definition settle (p : nat) (o : Settled) (c : t) : t :=
  match promises c !! p with
  | Some _ => c
  | None => set_promises (<[p := o]> (promises c)) (next_promise c) c
  end.

(** The library's part of a socket event: the new [readyState] of a socket
    this client created. *)
Definition set_readyState (k : nat) (r : ReadyState) (c : t) : t :=
  set_sockets (<[k := r]> (sockets c)) (next_socket c) c.

(** [ws.close()]: nothing on a closed socket, otherwise the socket is
    closing and its events follow later. *)
Definition ws_close (k : nat) (c : t) : t :=
  match sockets c !! k with
  | Some CLOSED | None => c
  | Some _ => set_readyState k CLOSING c
  end.

(** The listeners that [connect] registers on the socket. *)

Definition on_open (c : t) : t * list Action :=
  (set_reconnectAttempts 0 c, [EmitConnected; ConnectResolved]).

Definition on_message (d : Inbound) (c : t) : t * list Action :=
  match d with
  | Unparseable => (c, [])
  | Parsed message =>
      match Config.truthy (msg_id message) with
      | Some id =>
          match _pendingRequests c !! id with
          | Some pending =>
              let c := clearTimeout (timeout pending) c in
              let c := set_pendingRequests (delete id (_pendingRequests c)) c in
              (settle (promise pending) (Resolved message) c,
               [ClearTimeout (timeout pending); Resolve (promise pending) message])
          | None => (c, [EmitEvent message])
          end
      | None => (c, [EmitEvent message])
      end
  end.

(** [emit('error', err)] throws [err], so the [reject(err)] that follows it
    in the listener is not reached: [connect()] is not settled by an error of
    the socket, and the exception is nobody's to catch. *)
Definition on_error (err : string) (c : t) : t * list Action :=
  (c, [EmitError err; Throw err]).

Definition on_close (c : t) : t * list Action :=
  let c := set_ws None c in
  if (_reconnectAttempts c <? _maxReconnectAttempts c)%Z then
    let c := set_reconnectAttempts (_reconnectAttempts c + 1) c in
    let (h, c') := setTimeout Reconnect (1000 * _reconnectAttempts c) c in
    (c', [EmitDisconnected;
          SetTimeout h {| delay := 1000 * _reconnectAttempts c; task := Reconnect |}])
  else (c, [EmitDisconnected]).

(** The methods. *)

Definition connect (c : t) : t * list Action :=
  if isConnected c then (c, [ConnectResolved])
  else
    let k := next_socket c in
    let c := set_sockets (<[k := CONNECTING]> (sockets c)) (S k) c in
    (set_ws (Some k) c, [NewWebSocket k (_url c)]).

Definition disconnect (c : t) : t * list Action :=
  match _ws c with
  | Some k =>
      let c := set_reconnectAttempts (_maxReconnectAttempts c) c in
      let c := ws_close k c in
      (set_ws None c, [WsCloseCall k])
  | None => (c, [])
  end.

(** The request id, from [Date.now()] and the random suffix. *)
Definition request_id (now : Z) (rnd : string) : string :=
  "req_" +:+ pretty now +:+ "_" +:+ rnd.

Definition timeout_message (timeoutMs : Z) : string :=
  "Request timeout after " +:+ pretty timeoutMs +:+ "ms".

(** [sendCommand(command, timeoutMs = 5000)], with the clock reading and the
    random suffix the call draws.  The result is the handle of the returned
    promise. *)
Definition sendCommand (cmd : PluginCommand) (timeoutMs : option Z)
    (now : Z) (rnd : string) (c : t) : nat * t * list Action :=
  let timeoutMs := default 5000%Z timeoutMs in
  let p := next_promise c in
  let c := set_promises (promises c) (S p) c in
  match _ws c with
  | Some k =>
      if bool_decide (sockets c !! k = Some OPEN) then
        let id := request_id now rnd in
        let commandWithId :=
          {| cmd_id := Some id; command := command cmd; args := args cmd |} in
        let (h, c) := setTimeout (RequestTimeout p id timeoutMs) timeoutMs c in
        let c := set_pendingRequests
                   (<[id := {| promise := p; timeout := h |}]> (_pendingRequests c)) c in
        let c := set_sends (<[p := (id, h)]> (sends c)) c in
        (p, c,
         [SetTimeout h {| delay := timeoutMs; task := RequestTimeout p id timeoutMs |};
          WsSend k commandWithId])
      else (p, settle p (Rejected "Not connected to plugin") c,
            [Reject p "Not connected to plugin"])
  | None => (p, settle p (Rejected "Not connected to plugin") c,
             [Reject p "Not connected to plugin"])
  end.

(** The timer callbacks. *)

Definition on_request_timeout (p : nat) (id : string) (timeoutMs : Z) (c : t)
    : t * list Action :=
  let c := set_pendingRequests (delete id (_pendingRequests c)) c in
  (settle p (Rejected (timeout_message timeoutMs)) c,
   [Reject p (timeout_message timeoutMs)]).

Definition on_reconnect_timer (c : t) : t * list Action := connect c.

(** The completion callback of [send]. *)
Definition on_send_done (p : nat) (id : string) (h : nat) (err : option string)
    (c : t) : t * list Action :=
  match err with
  | Some e =>
      let c := clearTimeout h c in
      let c := set_pendingRequests (delete id (_pendingRequests c)) c in
      (settle p (Rejected e) c, [ClearTimeout h; Reject p e])
  | None => (c, [])
  end.

(** *** The event loop *)

(** One turn of the event loop: a call of a method by the application, an
    event of a socket, a timer that fires, or the completion of a [send]. *)
Inductive Event :=
| CallConnect
| CallDisconnect
| CallSendCommand (cmd : PluginCommand) (timeoutMs : option Z) (now : Z) (rnd : string)
| WsOpen (k : nat)
| WsMessage (k : nat) (d : Inbound)
| WsError (k : nat) (err : string)
| WsClose (k : nat)
| TimerFire (h : nat)
| SendDone (p : nat) (err : option string).

(** Socket events reach the client only for sockets it created; a timer that
    was cleared or has fired does not fire; [send] completes once. *)
Definition step (e : Event) (c : t) : t * list Action :=
  match e with
  | CallConnect => connect c
  | CallDisconnect => disconnect c
  | CallSendCommand cmd ms now rnd =>
      let '(_, c', out) := sendCommand cmd ms now rnd c in (c', out)
  | WsOpen k =>
      match sockets c !! k with
      | Some _ => on_open (set_readyState k OPEN c)
      | None => (c, [])
      end
  | WsMessage k d =>
      match sockets c !! k with
      | Some _ => on_message d c
      | None => (c, [])
      end
  | WsError k err =>
      match sockets c !! k with
      | Some _ => on_error err (set_readyState k CLOSING c)
      | None => (c, [])
      end
  | WsClose k =>
      match sockets c !! k with
      | Some _ => on_close (set_readyState k CLOSED c)
      | None => (c, [])
      end
  | TimerFire h =>
      match timers c !! h with
      | Some tm =>
          let c := clearTimeout h c in
          match task tm with
          | RequestTimeout p id ms => on_request_timeout p id ms c
          | Reconnect => on_reconnect_timer c
          end
      | None => (c, [])
      end
  | SendDone p err =>
      match sends c !! p with
      | Some (id, h) => on_send_done p id h err (set_sends (delete p (sends c)) c)
      | None => (c, [])
      end
  end.

(** A run is any sequence of turns.  After a [Throw] the process goes on
    only if the application handles uncaught exceptions; the runs of a
    process that ends there are the prefixes up to it. *)
Fixpoint run (es : list Event) (c : t) : t * list Action :=
  match es with
  | [] => (c, [])
  | e :: rest =>
      let (c1, out1) := step e c in
      let (c2, out2) := run rest c1 in
      (c2, out1 ++ out2)
  end.

(** The delays of the reconnections scheduled in a list of actions. *)
Definition reconnect_delays (out : list Action) : list Z :=
  omap (fun a =>
          match a with
          | SetTimeout _ {| delay := d; task := Reconnect |} => Some d
          | _ => None
          end) out.

(** The sockets opened in a list of actions. *)
Definition sockets_created (out : list Action) : list nat :=
  omap (fun a => match a with NewWebSocket k _ => Some k | _ => None end) out.

(** *** The module's singleton *)

(** [getPluginClient(host?, port?)] on the module variable [pluginClient]. *)
Definition getPluginClient (parseInt : string -> Z) (env : Config.ProcessEnv)
    (host : option string) (port : option Z) (pluginClient : option t)
    : t * option t :=
  let resolvedHost := default (Config.getDefaultHost env) host in
  let resolvedPort := default (Config.getDefaultPort parseInt env) port in
  match pluginClient with
  | Some client => (client, Some client)
  | None =>
      let client := new resolvedHost resolvedPort in
      (client, Some client)
  end.

(** [resetPluginClient()]; the second component is what [disconnect] did. *)
Definition resetPluginClient (pluginClient : option t) : option t * list Action :=
  match pluginClient with
  | Some client => (None, snd (disconnect client))
  | None => (None, [])
  end.

(** [connectPlugin(host?, port?)] up to the point where it awaits [connect]. *)
Definition connectPlugin (parseInt : string -> Z) (env : Config.ProcessEnv)
    (host : option string) (port : option Z) (pluginClient : option t)
    : option t * list Action :=
  let (client, _) := getPluginClient parseInt env host port pluginClient in
  if isConnected client then (Some client, [])
  else
    let (client, out) := connect client in
    (Some client, out).

(** [disconnectPlugin()]. *)
Definition disconnectPlugin (parseInt : string -> Z) (env : Config.ProcessEnv)
    (pluginClient : option t) : option t * list Action :=
  let (client, _) := getPluginClient parseInt env None None pluginClient in
  let (client, out) := disconnect client in
  (Some client, out).

(** *** Invariant of the run-time objects

    Handles are fresh; a live request timer belongs to an unsettled promise,
    and to one only; an entry of the pending map holds the live timer of its
    own request; a completion callback of [send] holds the timer of its own
    request. *)
Record wf (c : t) : Prop := {
  wf_promises : forall p o, promises c !! p = Some o -> p < next_promise c;
  wf_timers : forall h tm, timers c !! h = Some tm -> h < next_timer c;
  wf_unsettled : forall h d p id ms,
    timers c !! h = Some {| delay := d; task := RequestTimeout p id ms |} ->
    promises c !! p = None /\ p < next_promise c;
  wf_one_timer : forall h1 h2 d1 d2 p id1 id2 ms1 ms2,
    timers c !! h1 = Some {| delay := d1; task := RequestTimeout p id1 ms1 |} ->
    timers c !! h2 = Some {| delay := d2; task := RequestTimeout p id2 ms2 |} ->
    h1 = h2;
  wf_pending : forall id pr,
    _pendingRequests c !! id = Some pr ->
    exists d ms,
      timers c !! timeout pr
      = Some {| delay := d; task := RequestTimeout (promise pr) id ms |};
  wf_sends : forall p id h,
    sends c !! p = Some (id, h) ->
    p < next_promise c /\ h < next_timer c /\
    (forall tm, timers c !! h = Some tm ->
                exists d ms, tm = {| delay := d; task := RequestTimeout p id ms |}) /\
    (forall h' d id' ms,
       timers c !! h' = Some {| delay := d; task := RequestTimeout p id' ms |} ->
       h' = h)
}.

(** The reconnection counter stays between 0 and the constant maximum. *)
Definition counters_ok (c : t) : Prop :=
  _maxReconnectAttempts c = 5%Z /\ (0 <= _reconnectAttempts c <= 5)%Z.

(** The opening of a socket. *)
Definition is_open (e : Event) : bool :=
  match e with
  | WsOpen _ => true
  | _ => false
  end.

(** The events that end the request with promise [p], id [id] and timer [h]:
    a frame that carries the id, a failed [send], the timer itself. *)
Definition ends_request (p : nat) (id : string) (h : nat) (e : Event) : bool :=
  match e with
  | WsMessage _ (Parsed m) => bool_decide (msg_id m = Some id)
  | SendDone q (Some _) => bool_decide (q = p)
  | TimerFire h' => bool_decide (h' = h)
  | _ => false
  end.

(** The arguments of one [sendCommand] call, with what it draws from the
    clock and the random source. *)
Record Call := {
  call_command : PluginCommand;
  call_timeoutMs : option Z;
  call_now : Z;
  call_rnd : string
}.

Definition call_id (a : Call) : string := request_id (call_now a) (call_rnd a).

Definition call_event (a : Call) : Event :=
  CallSendCommand (call_command a) (call_timeoutMs a) (call_now a) (call_rnd a).

(** [N] calls issued back to back, then the frames of a list delivered in
    order on socket [k]. *)
Definition issue (calls : list Call) (c : t) : t :=
  fst (run (call_event <$> calls) c).

Definition deliver (k : nat) (frames : list PluginResponse) (c : t) : t :=
  fst (run ((fun m => WsMessage k (Parsed m)) <$> frames) c).

End PluginClient.

(** ** app-discovery.ts *)

Module AppDiscovery.

Record AppInstance := {
  app_host : string;
  app_port : Z;
  available : bool
}.

Record SessionInfo := {
  appId : string;
  name : string;
  host : string;
  port : Z;
  client : option PluginClient.t;
  connected : bool
}.

Record t := {
  _activeSessions : gmap string SessionInfo;
  _host : string;
  _basePort : Z;
  _maxPorts : nat
}.

Definition new (parseInt : string -> Z) (env : Config.ProcessEnv)
    (host : option string) (basePort : option Z) : t :=
  {| _activeSessions := ∅;
     _host := default (Config.getDefaultHost env) host;
     _basePort := default (Config.getDefaultPort parseInt env) basePort;
     _maxPorts := 100 |}.

Definition set_activeSessions (v : gmap string SessionInfo) (d : t) : t :=
  {| _activeSessions := v; _host := _host d; _basePort := _basePort d;
     _maxPorts := _maxPorts d |}.

Definition setHost (host : string) (d : t) : t :=
  {| _activeSessions := _activeSessions d; _host := host;
     _basePort := _basePort d; _maxPorts := _maxPorts d |}.

(** *** The network

    Opening a socket is the only suspension point of this file.  What the
    network answers is a parameter; it may depend on everything that was
    attempted before.  What the code makes of the answer is computed on the
    client of plugin-client.ts. *)

Inductive IoEvent :=
| IoConnect (host : string) (port : Z)
| IoProbe (host : string) (port : Z).

(** What happens to the socket of a [client.connect()]: it opens; it
    reports an error (a refused connection, a failed handshake); its
    constructor throws (an URL that is none, as for a port above 65535); or
    nothing ever happens. *)
Inductive ConnectOutcome :=
| Opens
| Fails (err : string)
| Throws (err : string)
| Hangs.

(** The same for a probe, up to the moment its 100 ms timer fires. *)
Inductive ProbeOutcome :=
| ProbeOpens
| ProbeFails (err : string)
| ProbeTimesOut
| ProbeThrows (err : string).

(** The state of the promise that [connect()] returned, once the socket has
    answered: resolved, rejected, or not settled, in which case [uncaught]
    is the exception that left a callback of the socket, if one did. *)
Inductive Awaited :=
| Resolved
| Rejected (err : string)
| Unsettled (uncaught : option string).

Record Network := {
  connect_outcome : list IoEvent -> string -> Z -> ConnectOutcome;
  probe_outcome : list IoEvent -> string -> Z -> ProbeOutcome
}.

(** What the callbacks that ran did to the promise of [connect()]:
    [resolve()] settles it, an exception ends the callback before anything
    else is reached. *)
Fixpoint promise_after (out : list PluginClient.Action) : Awaited :=
  match out with
  | [] => Unsettled None
  | PluginClient.ConnectResolved :: _ => Resolved
  | PluginClient.Throw err :: _ => Unsettled (Some err)
  | _ :: rest => promise_after rest
  end.

(** [client.connect()] on a client, followed by the answer of the network,
    which is an event of the socket that [connect] created.  When the
    constructor throws, it does so in the executor of the promise, before
    [_ws] is assigned: the promise is rejected and the client is as before. *)
Definition await_connect (o : ConnectOutcome) (c : PluginClient.t)
    : Awaited * PluginClient.t :=
  match o with
  | Throws err => (Rejected err, c)
  | _ =>
      let (c1, out) := PluginClient.connect c in
      match PluginClient.sockets_created out with
      | k :: _ =>
          match o with
          | Opens =>
              let (c2, out2) := PluginClient.step (PluginClient.WsOpen k) c1 in
              (promise_after out2, c2)
          | Fails err =>
              let (c2, out2) := PluginClient.step (PluginClient.WsError k err) c1 in
              (promise_after out2, c2)
          | _ => (Unsettled None, c1)
          end
      | [] => (promise_after out, c1)
      end
  end.

Definition session_id (targetHost : string) (port : Z) : string :=
  targetHost +:+ "_" +:+ pretty port.

Definition default_name (targetHost : string) (port : Z) : string :=
  "Tauri App (" +:+ targetHost +:+ ":" +:+ pretty port +:+ ")".

Definition connect_error (targetHost : string) (port : Z) (error : string) : string :=
  "Failed to connect to " +:+ targetHost +:+ ":" +:+ pretty port +:+ ": " +:+ error.

(** The part of [connectToPort] after the look-up: a new client, the awaited
    [connect], and the session record on success.  The [catch] runs when
    [connect()] is rejected.  When it is not settled the function does not
    continue: the registry is as it was and the client, which nothing
    disconnects, is left with its socket. *)
Definition open_session (net : Network) (port : Z) (appName : option string)
    (targetHost : string) (d : t) (io : list IoEvent)
    : (Async.Abort + SessionInfo) * t * list IoEvent :=
  let sessionId := session_id targetHost port in
  let client := PluginClient.new targetHost port in
  let answer := connect_outcome net io targetHost port in
  let io := io ++ [IoConnect targetHost port] in
  match await_connect answer client with
  | (Resolved, client) =>
      let session :=
        {| appId := sessionId;
           name := default (default_name targetHost port) (Config.truthy appName);
           host := targetHost;
           port := port;
           client := Some client;
           connected := true |} in
      (inr session, set_activeSessions (<[sessionId := session]> (_activeSessions d)) d, io)
  | (Rejected error, _) =>
      (inl (Async.Thrown (connect_error targetHost port error)), d, io)
  | (Unsettled (Some error), _) => (inl (Async.Uncaught error), d, io)
  | (Unsettled None, _) => (inl Async.Pending, d, io)
  end.

(** [connectToPort(port, appName?, host?)]; [inl] is how the call ends when
    it returns no session. *)
Definition connectToPort (net : Network) (port : Z) (appName : option string)
    (host : option string) (d : t) (io : list IoEvent)
    : (Async.Abort + SessionInfo) * t * list IoEvent :=
  let targetHost := default (_host d) host in
  match _activeSessions d !! session_id targetHost port with
  | Some existing =>
      if connected existing then (inr existing, d, io)
      else open_session net port appName targetHost d io
  | None => open_session net port appName targetHost d io
  end.

(** What the socket of a probe does before the timer of the race fires. *)
Definition within_100ms (answer : ProbeOutcome) : ConnectOutcome :=
  match answer with
  | ProbeOpens => Opens
  | ProbeFails err => Fails err
  | ProbeTimesOut => Hangs
  | ProbeThrows err => Throws err
  end.

(** The body of [_isPortInUse] on its throw-away client:
    [Promise.race([client.connect(), timer])], then [client.disconnect()] and
    [true], with [false] from the [catch].  The race is won by [connect()]
    when that is settled before the timer fires and by the timer, which
    rejects, otherwise; an exception that left a callback of the socket is
    not an outcome of the race.  The second component is the client as the
    function leaves it: disconnected after [true]; after [false] as
    [connect()] left it, with its socket still connecting when the timer
    won. *)
Definition probe (answer : ProbeOutcome) (client : PluginClient.t)
    : (Async.Abort + bool) * PluginClient.t :=
  match await_connect (within_100ms answer) client with
  | (Resolved, client) => (inr true, fst (PluginClient.disconnect client))
  | (Rejected _, client) => (inr false, client)
  | (Unsettled (Some error), client) => (inl (Async.Uncaught error), client)
  | (Unsettled None, client) => (inr false, client)
  end.

(** [_isPortInUse(port)]; the client is local to the call. *)
Definition _isPortInUse (net : Network) (port : Z) (d : t) (io : list IoEvent)
    : (Async.Abort + bool) * list IoEvent :=
  let client := PluginClient.new (_host d) port in
  let answer := probe_outcome net io (_host d) port in
  let io := io ++ [IoProbe (_host d) port] in
  (fst (probe answer client), io).

(** The body of the [for] loop of [discoverApps], over the offsets left; a
    probe that does not return ends the loop. *)
Fixpoint scan (net : Network) (d : t) (offsets : list nat) (apps : list AppInstance)
    (io : list IoEvent) : (Async.Abort + list AppInstance) * list IoEvent :=
  match offsets with
  | [] => (inr apps, io)
  | offset :: rest =>
      let port := (_basePort d + Z.of_nat offset)%Z in
      match _isPortInUse net port d io with
      | (inr inUse, io) =>
          let apps :=
            if inUse
            then apps ++ [{| app_host := _host d; app_port := port; available := true |}]
            else apps in
          scan net d rest apps io
      | (inl abort, io) => (inl abort, io)
      end
  end.

Definition discoverApps (net : Network) (d : t) (io : list IoEvent)
    : (Async.Abort + list AppInstance) * list IoEvent :=
  scan net d (seq 0 (_maxPorts d)) [] io.

Definition getFirstAvailableApp (net : Network) (d : t) (io : list IoEvent)
    : (Async.Abort + option AppInstance) * list IoEvent :=
  match discoverApps net d io with
  | (inr apps, io) =>
      (inr match apps with
           | app :: _ => Some app
           | [] => None
           end, io)
  | (inl abort, io) => (inl abort, io)
  end.

(** [disconnectAll()]: every client is disconnected, then the map is
    cleared (the clients go with it). *)
Definition disconnectAll (d : t) : t := set_activeSessions ∅ d.

Definition disconnectSession (sessionId : string) (d : t) : t :=
  match _activeSessions d !! sessionId with
  | Some (Build_SessionInfo _ _ _ _ (Some _) _) =>
      set_activeSessions (delete sessionId (_activeSessions d)) d
  | _ => d
  end.

Definition getSession (sessionId : string) (d : t) : option SessionInfo :=
  _activeSessions d !! sessionId.

Definition connectToDefaultPort (net : Network) (d : t) (io : list IoEvent)
    : (Async.Abort + SessionInfo) * t * list IoEvent :=
  connectToPort net (_basePort d) (Some "Default Tauri App") None d io.






End AppDiscovery.

(** ** session-manager.ts *)

Module SessionManager.

Record Session := {
  name : string;
  host : string;
  port : Z
}.

(** The module variables of session-manager.ts and of plugin-client.ts, the
    initialisation flag of the webview executor, and the connections
    attempted so far. *)
Record State := {
  appDiscovery : option AppDiscovery.t;
  currentSession : option Session;
  pluginClient : option PluginClient.t;
  executorInitialized : bool;
  io : list AppDiscovery.IoEvent
}.

(** What a run reads from outside: the process environment, the [parseInt]
    built-in and the network. *)
Record Host := {
  env : Config.ProcessEnv;
  parseInt : string -> Z;
  net : AppDiscovery.Network
}.

Definition set_appDiscovery (v : option AppDiscovery.t) (s : State) : State :=
  {| appDiscovery := v; currentSession := currentSession s;
     pluginClient := pluginClient s; executorInitialized := executorInitialized s;
     io := io s |}.

Definition set_currentSession (v : option Session) (s : State) : State :=
  {| appDiscovery := appDiscovery s; currentSession := v;
     pluginClient := pluginClient s; executorInitialized := executorInitialized s;
     io := io s |}.

Definition set_pluginClient (v : option PluginClient.t) (s : State) : State :=
  {| appDiscovery := appDiscovery s; currentSession := currentSession s;
     pluginClient := v; executorInitialized := executorInitialized s;
     io := io s |}.

Definition set_executorInitialized (v : bool) (s : State) : State :=
  {| appDiscovery := appDiscovery s; currentSession := currentSession s;
     pluginClient := pluginClient s; executorInitialized := v;
     io := io s |}.

Definition set_io (v : list AppDiscovery.IoEvent) (s : State) : State :=
  {| appDiscovery := appDiscovery s; currentSession := currentSession s;
     pluginClient := pluginClient s; executorInitialized := executorInitialized s;
     io := v |}.

(** *** Statements over the module state, with exceptions

    A computation returns a value, throws, or does not return
    ([Async.Abort]); either way the state it leaves is kept. *)

Definition M (A : Type) : Type := State -> (Async.Abort + A) * State.

Global Instance M_ret : MRet M := fun A (a : A) (s : State) => (inr a, s).

Global Instance M_bind : MBind M := fun A B (f : A -> M B) (m : M A) (s : State) =>
  match m s with
  | (inl e, s') => (inl e, s')
  | (inr a, s') => f a s'
  end.

Definition throw {A : Type} (e : string) : M A := fun s => (inl (Async.Thrown e), s).

(** [try { body } catch { handler }]: the handler runs for what [body]
    throws, not when [body] does not return. *)
Definition try_catch {A : Type} (body : M A) (handler : M A) : M A := fun s =>
  match body s with
  | (inl (Async.Thrown _), s') => handler s'
  | (inl abort, s') => (inl abort, s')
  | (inr a, s') => (inr a, s')
  end.

Definition modify (f : State -> State) : M unit := fun s => (inr tt, f s).

Definition gets {A : Type} (f : State -> A) : M A := fun s => (inr (f s), s).

(** [getAppDiscovery(host)]: afterwards the module variable holds the
    instance that is returned. *)
Definition getAppDiscovery (h : Host) (host : string) : M AppDiscovery.t := fun s =>
  match appDiscovery s with
  | Some d =>
      if bool_decide (AppDiscovery._host d = host) then (inr d, s)
      else
        let d := AppDiscovery.new (parseInt h) (env h) (Some host) None in
        (inr d, set_appDiscovery (Some d) s)
  | None =>
      let d := AppDiscovery.new (parseInt h) (env h) (Some host) None in
      (inr d, set_appDiscovery (Some d) s)
  end.

Definition isPortExplicitlyConfigured (h : Host) : bool :=
  bool_decide (is_Some (Config.truthy (Config.MCP_BRIDGE_PORT (env h)))).

Definition resetPluginClient : M unit :=
  modify (fun s => set_pluginClient (fst (PluginClient.resetPluginClient (pluginClient s))) s).

Definition getPluginClient (h : Host) (host : option string) (port : option Z)
    : M PluginClient.t := fun s =>
  let (client, v) :=
    PluginClient.getPluginClient (parseInt h) (env h) host port (pluginClient s) in
  (inr client, set_pluginClient v s).

(** Modelled from the spec: [resetInitialization] of webview-executor.js, which
    is not among the sources; stop is said to clear any cross-cutting
    initialization state owned by collaborator components. *)
Definition resetInitialization : M unit :=
  modify (set_executorInitialized false).

(** [discovery.connectToPort(port, undefined, host)] on the instance that
    [getAppDiscovery] returned, which is the one the module variable holds. *)
Definition connectToPort (h : Host) (d : AppDiscovery.t) (port : Z) (host : string)
    : M AppDiscovery.SessionInfo := fun s =>
  match AppDiscovery.connectToPort (net h) port None (Some host) d (io s) with
  | (r, d', io') => (r, set_io io' (set_appDiscovery (Some d') s))
  end.

Definition getFirstAvailableApp (h : Host) (d : AppDiscovery.t)
    : M (option AppDiscovery.AppInstance) := fun s =>
  let (r, io') := AppDiscovery.getFirstAvailableApp (net h) d (io s) in
  (r, set_io io' s).

Definition tryConnect (h : Host) (host : string) (port : Z) : M Session :=
  discovery ← getAppDiscovery h host;
  session ← connectToPort h discovery port host;
  mret {| name := AppDiscovery.name session;
          host := AppDiscovery.host session;
          port := AppDiscovery.port session |}.

(** The replies. *)

Definition status_connected (s : Session) : string :=
  JSON.stringify (JSON.Object
    [("connected", JSON.Bool true); ("app", JSON.Str (name s));
     ("host", JSON.Str (host s)); ("port", JSON.Number (port s))]).

Definition status_disconnected : string :=
  JSON.stringify (JSON.Object
    [("connected", JSON.Bool false); ("app", JSON.Null);
     ("host", JSON.Null); ("port", JSON.Null)]).

Definition started_on_localhost (s : Session) : string :=
  "Session started with app: " +:+ name s +:+ " (localhost:" +:+ pretty (port s) +:+ ")".

Definition started_on_host (s : Session) : string :=
  "Session started with app: " +:+ name s +:+ " (" +:+ host s +:+ ":"
  +:+ pretty (port s) +:+ ")".

Definition failed_explicit (configuredHost : string) (configuredPort : Z) : string :=
  "Failed to connect to Tauri app at " +:+ configuredHost +:+ ":" +:+ pretty configuredPort
  +:+ ". " +:+
  "Port " +:+ pretty configuredPort +:+ " was explicitly configured - auto-discovery disabled. "
  +:+ "Ensure your Tauri app is running with the MCP Bridge plugin on this port.".

Definition started_without_app (configuredHost : string) (configuredPort : Z) : string :=
  "Session started (native IPC mode - no Tauri app found at localhost or "
  +:+ configuredHost +:+ ":" +:+ pretty configuredPort +:+ ")".

Inductive Action := start | stop | status.

(** A [try] block that ends in [return] and whose [catch] falls through:
    [Some reply] is the early return. *)
Definition attempt (body : M string) : M (option string) :=
  try_catch (reply ← body; mret (Some reply)) (mret None).

Definition manageDriverSession_status (h : Host) : M string :=
  client ← getPluginClient h None None;
  current ← gets currentSession;
  match current with
  | Some currentSession =>
      if PluginClient.isConnected client then mret (status_connected currentSession)
      else mret status_disconnected
  | None => mret status_disconnected
  end.

(** The four strategies of [start], in the order of the source.  Each of the
    first three yields [Some reply] when it returns from the function. *)

(** Strategy 1: localhost first, unless localhost is what was configured. *)
Definition strategy1 (h : Host) (configuredHost : string) (configuredPort : Z)
    : M (option string) :=
  if bool_decide (configuredHost ≠ "localhost" ∧ configuredHost ≠ "127.0.0.1")
  then attempt (session ← tryConnect h "localhost" configuredPort;
                modify (set_currentSession (Some session));;
                mret (started_on_localhost session))
  else mret None.

(** Strategy 2: the configured host. *)
Definition strategy2 (h : Host) (configuredHost : string) (configuredPort : Z)
    : M (option string) :=
  attempt (session ← tryConnect h configuredHost configuredPort;
           modify (set_currentSession (Some session));;
           mret (started_on_host session)).

(** Strategy 3: discovery on localhost, skipped when the port is explicit. *)
Definition strategy3 (h : Host) (portIsExplicit : bool) : M (option string) :=
  if negb portIsExplicit
  then
    localhostDiscovery ← getAppDiscovery h "localhost";
    firstApp ← getFirstAvailableApp h localhostDiscovery;
    match firstApp with
    | Some firstApp =>
        attempt (resetPluginClient;;
                 session ← tryConnect h "localhost" (AppDiscovery.app_port firstApp);
                 modify (set_currentSession (Some session));;
                 mret (started_on_localhost session))
    | None => mret None
    end
  else mret None.

(** Strategy 4: the configured host once more. *)
Definition strategy4 (h : Host) (configuredHost : string) (configuredPort : Z)
    : M string :=
  try_catch
    (resetPluginClient;;
     session ← tryConnect h configuredHost configuredPort;
     modify (set_currentSession (Some session));;
     mret (started_on_host session))
    (modify (set_currentSession None);;
     mret (started_without_app configuredHost configuredPort)).

Definition manageDriverSession_start (h : Host) (host : option string) (port : option Z)
    : M string :=
  resetPluginClient;;
  let configuredHost := default (Config.getDefaultHost (env h)) host in
  let configuredPort := default (Config.getDefaultPort (parseInt h) (env h)) port in
  let portIsExplicit := bool_decide (is_Some port) || isPortExplicitlyConfigured h in
  r1 ← strategy1 h configuredHost configuredPort;
  match r1 with
  | Some reply => mret reply
  | None =>
  r2 ← strategy2 h configuredHost configuredPort;
  match r2 with
  | Some reply => mret reply
  | None =>
  r3 ← strategy3 h portIsExplicit;
  match r3 with
  | Some reply => mret reply
  | None =>
  if portIsExplicit
  then
    modify (set_currentSession None);;
    mret (failed_explicit configuredHost configuredPort)
  else strategy4 h configuredHost configuredPort
  end end end.

Definition manageDriverSession_stop : M string :=
  modify (fun s =>
            match appDiscovery s with
            | Some d => set_appDiscovery (Some (AppDiscovery.disconnectAll d)) s
            | None => s
            end);;
  resetPluginClient;;
  resetInitialization;;
  modify (set_currentSession None);;
  mret "Session stopped".

Definition manageDriverSession (h : Host) (action : Action)
    (host : option string) (port : option Z) : M string :=
  match action with
  | status => manageDriverSession_status h
  | start => manageDriverSession_start h host port
  | stop => manageDriverSession_stop
  end.

(** The connections a call attempted: what it appended to [io]. *)
Definition attempts_of (before after : State) : list AppDiscovery.IoEvent :=
  drop (length (io before)) (io after).

(** The instance [d] already tracks a connected session for [host:port], so
    that [connectToPort] returns it without opening a socket. *)
Definition hit (d : AppDiscovery.t) (host : string) (port : Z) : bool :=
  match AppDiscovery._activeSessions d !! AppDiscovery.session_id host port with
  | Some existing => AppDiscovery.connected existing
  | None => false
  end.

(** The same, for the instance that [getAppDiscovery host] returns. *)
Definition cached (host : string) (port : Z) (s : State) : bool :=
  match appDiscovery s with
  | Some d => bool_decide (AppDiscovery._host d = host) && hit d host port
  | None => false
  end.

(** State [s'] has the connections of [s] followed by [evs]. *)
Definition extends (s s' : State) (evs : list AppDiscovery.IoEvent) : Prop :=
  io s' = io s ++ evs.

(** A computation only appends to the record of attempted connections. *)
Definition grows {A : Type} (m : M A) : Prop :=
  forall s, exists evs, extends s (snd (m s)) evs.

End SessionManager.

(** ** Concrete runs

    The states, networks and event lists on which the properties below are
    exercised. *)

Module Scenarios.

Definition get_window_info : PluginClient.PluginCommand :=
  {| PluginClient.cmd_id := None;
     PluginClient.command := "get_window_info";
     PluginClient.args := None |}.

(** A client for localhost:9223 whose socket 0 is open. *)
Definition connected_client : PluginClient.t :=
  fst (PluginClient.run [PluginClient.CallConnect; PluginClient.WsOpen 0]
         (PluginClient.new "localhost" 9223)).

(** The same client with two requests in flight. *)
Definition two_pending : PluginClient.t :=
  fst (PluginClient.run
         [PluginClient.CallSendCommand get_window_info None 1764892800000 "k3j2h1g0f";
          PluginClient.CallSendCommand get_window_info None 1764892800001 "a1b2c3d4e"]
         connected_client).

(** The same client after its socket closed unexpectedly: no socket, one
    reconnection scheduled. *)
Definition in_backoff : PluginClient.t :=
  fst (PluginClient.step (PluginClient.WsClose 0) connected_client).



Definition no_env : Config.ProcessEnv :=
  {| Config.MCP_BRIDGE_HOST := None;
     Config.TAURI_DEV_HOST := None;
     Config.MCP_BRIDGE_PORT := None |}.

(** [parseInt] on strings of decimal digits. *)
Definition parse_digits (s : string) : Z :=
  fold_left (fun acc c => (10 * acc + Z.of_nat (nat_of_ascii c - 48))%Z)
    (list_ascii_of_string s) 0%Z.

(** A network on which exactly the listed endpoints accept connections. *)
Definition listening (endpoints : list (string * Z)) : AppDiscovery.Network :=
  {| AppDiscovery.connect_outcome := fun _ host port =>
       if bool_decide ((host, port) ∈ endpoints) then AppDiscovery.Opens
       else AppDiscovery.Fails "Error: connect ECONNREFUSED";
     AppDiscovery.probe_outcome := fun _ host port =>
       if bool_decide ((host, port) ∈ endpoints) then AppDiscovery.ProbeOpens
       else AppDiscovery.ProbeFails "Error: connect ECONNREFUSED" |}.

Definition host_on (endpoints : list (string * Z)) : SessionManager.Host :=
  {| SessionManager.env := no_env;
     SessionManager.parseInt := parse_digits;
     SessionManager.net := listening endpoints |}.

(** The module state of a process that has done nothing yet. *)
Definition idle : SessionManager.State :=
  {| SessionManager.appDiscovery := None;
     SessionManager.currentSession := None;
     SessionManager.pluginClient := None;
     SessionManager.executorInitialized := false;
     SessionManager.io := [] |}.

Definition local_discovery : AppDiscovery.t :=
  AppDiscovery.new parse_digits no_env (Some "localhost") (Some 9223%Z).

End Scenarios.

(** ** Invariants and shapes

    The predicates in which the further properties of the three modules are
    stated. *)

Module Invariants.

(** The characters of a printed integer are digits, or the sign. *)
Definition numeric (c : ascii) : Prop :=
  c ∈ list_ascii_of_string "0123456789-".

(** A frame that settles no request of [c]: it does not parse, or it has no
    id, or no request is pending under its id. *)
Definition unmatched (c : PluginClient.t) (d : PluginClient.Inbound) : Prop :=
  match d with
  | PluginClient.Unparseable => True
  | PluginClient.Parsed m =>
      forall id, Config.truthy (PluginClient.msg_id m) = Some id ->
                 PluginClient._pendingRequests c !! id = None
  end.

(** What the client emits for such a frame. *)
Definition broadcast (d : PluginClient.Inbound) : list PluginClient.Action :=
  match d with
  | PluginClient.Unparseable => []
  | PluginClient.Parsed m => [PluginClient.EmitEvent m]
  end.

(** Every session of the registry is stored under its own id, which is the
    id of its endpoint, is connected and has its client. *)
Definition registry_ok (d : AppDiscovery.t) : Prop :=
  forall key s,
    AppDiscovery._activeSessions d !! key = Some s ->
    AppDiscovery.appId s = key /\
    key = AppDiscovery.session_id (AppDiscovery.host s) (AppDiscovery.port s) /\
    AppDiscovery.connected s = true /\
    is_Some (AppDiscovery.client s).

(** How a strategy of [start] ends: with a reply and the session it names
    recorded, or with no reply, or not at all, and then with the session
    record as it was; what [tryConnect] throws is caught. *)
Definition strategy_result (fmt : SessionManager.Session -> string)
    (s : SessionManager.State)
    (r : (Async.Abort + option string) * SessionManager.State) : Prop :=
  SessionManager.executorInitialized (snd r) = SessionManager.executorInitialized s /\
  match fst r with
  | inr (Some reply) =>
      exists session, reply = fmt session /\
                      SessionManager.currentSession (snd r) = Some session
  | inl (Async.Thrown _) => False
  | _ => SessionManager.currentSession (snd r) = SessionManager.currentSession s
  end.

End Invariants.

(** ** Further concrete runs *)

Module Examples.

(** The connected client of [Scenarios] with one request in flight. *)
Definition awaiting_reply : PluginClient.t :=
  fst (PluginClient.step
         (PluginClient.CallSendCommand Scenarios.get_window_info None
            1764892800000 "k3j2h1g0f")
         Scenarios.connected_client).

(** The response to that request. *)
Definition window_info_reply : PluginClient.PluginResponse :=
  {| PluginClient.msg_id := Some "req_1764892800000_k3j2h1g0f";
     PluginClient.success := true;
     PluginClient.data := Some "main";
     PluginClient.error := None |}.


(** A machine on which nothing listens: connections are refused, and for a
    port that is none (above 65535) the socket cannot even be created. *)
Definition nothing_listens : AppDiscovery.Network :=
  {| AppDiscovery.connect_outcome := fun _ host port =>
       if bool_decide (65535 < port)%Z
       then AppDiscovery.Throws
              ("SyntaxError: Invalid URL: " +:+ Config.buildWebSocketURL host port)
       else AppDiscovery.Fails "Error: connect ECONNREFUSED";
     AppDiscovery.probe_outcome := fun _ host port =>
       if bool_decide (65535 < port)%Z
       then AppDiscovery.ProbeThrows
              ("SyntaxError: Invalid URL: " +:+ Config.buildWebSocketURL host port)
       else AppDiscovery.ProbeFails "Error: connect ECONNREFUSED" |}.

Definition quiet_host : SessionManager.Host :=
  {| SessionManager.env := Scenarios.no_env;
     SessionManager.parseInt := Scenarios.parse_digits;
     SessionManager.net := nothing_listens |}.

(** A frame the plugin sends on its own. *)
Definition window_event : PluginClient.PluginResponse :=
  {| PluginClient.msg_id := None;
     PluginClient.success := true;
     PluginClient.data := Some "resized";
     PluginClient.error := None |}.

(** The first connection of a registry for localhost, to an app on 9223. *)
Definition first_connection
    : (Async.Abort + AppDiscovery.SessionInfo) * AppDiscovery.t
      * list AppDiscovery.IoEvent :=
  AppDiscovery.connectToPort (Scenarios.listening [("localhost", 9223%Z)]) 9223 None None
    Scenarios.local_discovery [].

(** The registry after it. *)
Definition one_session : AppDiscovery.t := snd (fst first_connection).

End Examples.

(** * Properties of the dispatcher *)

Module ClientProofs.
Import PluginClient Scenarios.

(** ** The invariant holds in every reachable state *)

Lemma new_wf host port : wf (new host port).
Proof.
  split; simpl; intros *; try rewrite lookup_empty; try discriminate.
Qed.

Lemma settle_lookup p o c q :
  promises (settle p o c) !! q =
  match promises c !! q with
  | Some x => Some x
  | None => if decide (p = q) then Some o else None
  end.
Proof.
  unfold settle. destruct (promises c !! p) eqn:Hp.
  - destruct (promises c !! q) eqn:Hq; [done|].
    case_decide; [congruence|done].
  - simpl. rewrite lookup_insert. case_decide; subst.
    + by rewrite Hp.
    + by destruct (promises c !! q).
Qed.

Lemma settle_fields p o c :
  _ws (settle p o c) = _ws c /\ _reconnectAttempts (settle p o c) = _reconnectAttempts c
  /\ _maxReconnectAttempts (settle p o c) = _maxReconnectAttempts c
  /\ _pendingRequests (settle p o c) = _pendingRequests c
  /\ sockets (settle p o c) = sockets c /\ timers (settle p o c) = timers c
  /\ sends (settle p o c) = sends c /\ next_socket (settle p o c) = next_socket c
  /\ next_timer (settle p o c) = next_timer c /\ next_promise (settle p o c) = next_promise c.
Proof. unfold settle. destruct (promises c !! p); simpl; repeat split. Qed.


Lemma wf_ext c c' :
  promises c' = promises c -> timers c' = timers c ->
  _pendingRequests c' = _pendingRequests c -> sends c' = sends c ->
  next_timer c' = next_timer c -> next_promise c' = next_promise c ->
  wf c -> wf c'.
Proof.
  intros Hp Ht Hq Hs Hnt Hnp [W1 W2 W3 W4 W5 W6].
  split; rewrite ?Hp, ?Ht, ?Hq, ?Hs, ?Hnt, ?Hnp; assumption.
Qed.

Lemma wf_finish c h p id o :
  wf c ->
  p < next_promise c ->
  (forall tm, timers c !! h = Some tm ->
              exists d ms, tm = {| delay := d; task := RequestTimeout p id ms |}) ->
  (forall h' d id' ms,
     timers c !! h' = Some {| delay := d; task := RequestTimeout p id' ms |} -> h' = h) ->
  wf (settle p o (set_pendingRequests (delete id (_pendingRequests c)) (clearTimeout h c))).
Proof.
  intros [W1 W2 W3 W4 W5 W6] Hp Hh Huniq.
  set (c1 := set_pendingRequests _ _).
  destruct (settle_fields p o c1) as (_ & _ & _ & Eq & _ & Et & Es & _ & Ent & Enp).
  split; rewrite ?Et, ?Eq, ?Es, ?Ent, ?Enp; simpl.
  - intros q x. rewrite settle_lookup. simpl.
    destruct (promises c !! q) eqn:Hq.
    + intros _. eauto.
    + case_decide; [subst; auto | discriminate].
  - intros h' tm [_ Hl]%lookup_delete_Some. eauto.
  - intros h' d q id' ms [Hne Hl]%lookup_delete_Some.
    destruct (W3 _ _ _ _ _ Hl) as [Hn Hlt]. split; [|done].
    rewrite settle_lookup. simpl. rewrite Hn.
    case_decide; [|done]. subst q. by apply Huniq in Hl.
  - intros h1 h2 d1 d2 q id1 id2 ms1 ms2 [_ H1]%lookup_delete_Some [_ H2]%lookup_delete_Some.
    eauto.
  - intros id' pr [Hne Hl]%lookup_delete_Some.
    destruct (W5 _ _ Hl) as (d & ms & Hd). exists d, ms.
    rewrite lookup_delete_ne; [done|].
    intros E. rewrite <- E in Hd. destruct (Hh _ Hd) as (? & ? & [=]). congruence.
  - intros q id' h' Hq. destruct (W6 _ _ _ Hq) as (A & B & C & D).
    repeat split; [done|done| |].
    + intros tm [_ Hl]%lookup_delete_Some. eauto.
    + intros h'' d id'' ms [_ Hl]%lookup_delete_Some. eauto.
Qed.

Lemma wf_delete_send c p : wf c -> wf (set_sends (delete p (sends c)) c).
Proof.
  intros [W1 W2 W3 W4 W5 W6]. split; simpl; try assumption.
  intros q id h [_ Hl]%lookup_delete_Some. eauto.
Qed.

Lemma wf_clear_reconnect c h d :
  wf c -> timers c !! h = Some {| delay := d; task := Reconnect |} ->
  wf (clearTimeout h c).
Proof.
  intros [W1 W2 W3 W4 W5 W6] Hh. split; simpl.
  - assumption.
  - intros h' tm [_ Hl]%lookup_delete_Some. eauto.
  - intros h' d' q id' ms [_ Hl]%lookup_delete_Some. eauto.
  - intros h1 h2 d1 d2 q id1 id2 ms1 ms2 [_ H1]%lookup_delete_Some [_ H2]%lookup_delete_Some.
    eauto.
  - intros id' pr Hl. destruct (W5 _ _ Hl) as (d' & ms & Hd). exists d', ms.
    rewrite lookup_delete_ne; [done|]. intros E. rewrite <- E in Hd. congruence.
  - intros q id' h' Hq. destruct (W6 _ _ _ Hq) as (A & B & C & D).
    repeat split; [done|done| |].
    + intros tm [_ Hl]%lookup_delete_Some. eauto.
    + intros h'' d' id'' ms [_ Hl]%lookup_delete_Some. eauto.
Qed.

Lemma wf_set_reconnect_timer c ms :
  wf c -> wf (snd (setTimeout Reconnect ms c)).
Proof.
  intros [W1 W2 W3 W4 W5 W6]. split; simpl.
  - assumption.
  - intros h tm [[<- _]|[_ Hl]]%lookup_insert_Some; [lia|]. apply W2 in Hl. lia.
  - intros h d q id' ms' [[_ [=]]|[_ Hl]]%lookup_insert_Some. eauto.
  - intros h1 h2 d1 d2 q id1 id2 ms1 ms2
      [[_ [=]]|[_ H1]]%lookup_insert_Some [[_ [=]]|[_ H2]]%lookup_insert_Some.
    eauto.
  - intros id' pr Hl. destruct (W5 _ _ Hl) as (d' & ms' & Hd). exists d', ms'.
    rewrite lookup_insert_ne; [done|]. apply W2 in Hd. lia.
  - intros q id' h' Hq. destruct (W6 _ _ _ Hq) as (A & B & C & D).
    repeat split; [done|lia| |].
    + intros tm. rewrite lookup_insert_ne by lia. eauto.
    + intros h'' d' id'' ms' [[_ [=]]|[_ Hl]]%lookup_insert_Some. eauto.
Qed.


Lemma wf_alloc_promise c : wf c -> wf (set_promises (promises c) (S (next_promise c)) c).
Proof.
  intros [W1 W2 W3 W4 W5 W6]. split; simpl; try assumption.
  - intros p o Hl. apply W1 in Hl. lia.
  - intros h d p id ms Hl. destruct (W3 _ _ _ _ _ Hl). split; [done|lia].
  - intros p id h Hl. destruct (W6 _ _ _ Hl) as (A & B & C & D).
    repeat split; [lia|done|done|done].
Qed.

Lemma wf_settle_fresh c p o :
  wf c -> p < next_promise c ->
  (forall h d id ms,
     timers c !! h <> Some {| delay := d; task := RequestTimeout p id ms |}) ->
  wf (settle p o c).
Proof.
  intros [W1 W2 W3 W4 W5 W6] Hp Hno.
  destruct (settle_fields p o c) as (_ & _ & _ & Eq & _ & Et & Es & _ & Ent & Enp).
  split; rewrite ?Et, ?Eq, ?Es, ?Ent, ?Enp; try assumption.
  - intros q x. rewrite settle_lookup.
    destruct (promises c !! q) eqn:Hq.
    + intros _. eauto.
    + case_decide; [subst; auto | discriminate].
  - intros h d q id ms Hl. destruct (W3 _ _ _ _ _ Hl) as [Hn Hlt]. split; [|done].
    rewrite settle_lookup, Hn. case_decide; [|done]. subst. by apply Hno in Hl.
Qed.

Lemma sendCommand_wf cmd ms now rnd c :
  wf c -> wf (snd (fst (sendCommand cmd ms now rnd c))).
Proof.
  intros Hwf. unfold sendCommand.
  pose proof (wf_alloc_promise c Hwf) as Hwf1.
  set (c1 := set_promises _ _ c) in *.
  assert (Hp : next_promise c < next_promise c1) by (simpl; lia).
  assert (Hfresh : forall h d id m,
             timers c1 !! h <> Some {| delay := d; task := RequestTimeout (next_promise c) id m |}).
  { intros h d id m Hl. simpl in Hl. destruct Hwf as [_ _ W3 _ _ _].
    apply W3 in Hl. lia. }
  change (_ws c1) with (_ws c). change (sockets c1) with (sockets c).
  destruct (_ws c) as [k|]; simpl; [|by apply wf_settle_fresh].
  case_bool_decide; simpl; [|by apply wf_settle_fresh].
  destruct Hwf as [W1 W2 W3 W4 W5 W6].
  set (id := request_id now rnd). set (tm := default 5000%Z ms).
  split; simpl.
  - intros q o Hl. apply W1 in Hl. lia.
  - intros h' x [[<- _]|[_ Hl]]%lookup_insert_Some; [lia|]. apply W2 in Hl. lia.
  - intros h' d q id' ms' [[_ [= <- <- <- <-]]|[_ Hl]]%lookup_insert_Some.
    + split; [|lia]. destruct (promises c !! next_promise c) eqn:E; [|done].
      apply W1 in E. lia.
    + destruct (W3 _ _ _ _ _ Hl). split; [done|lia].
  - intros h1 h2 d1 d2 q id1 id2 ms1 ms2
      [[<- [= <- <- <- <-]]|[N1 H1]]%lookup_insert_Some
      [[<- E2]|[N2 H2]]%lookup_insert_Some; try done.
    + apply W3 in H2. lia.
    + injection E2 as <- <- <- <-. apply W3 in H1. lia.
    + eauto.
  - intros id' pr [[<- <-]|[N Hl]]%lookup_insert_Some; simpl.
    + exists tm, tm. apply lookup_insert_eq.
    + destruct (W5 _ _ Hl) as (d & ms' & Hd). exists d, ms'.
      rewrite lookup_insert_ne; [done|]. apply W2 in Hd. lia.
  - intros q id' h' [[<- [= <- <-]]|[N Hl]]%lookup_insert_Some.
    + repeat split; [lia|lia| |].
      * intros x. rewrite lookup_insert_eq. intros [= <-]. eauto.
      * intros h'' d id'' ms' [[<- _]|[_ Hl]]%lookup_insert_Some; [done|].
        apply W3 in Hl. lia.
    + destruct (W6 _ _ _ Hl) as (A & B & C & D).
      repeat split; [lia|lia| |].
      * intros x. rewrite lookup_insert_ne by lia. eauto.
      * intros h'' d id'' ms' [[_ [= _ E _ _]]|[_ Hl']]%lookup_insert_Some; [|eauto].
        lia.
Qed.

Lemma connect_wf c : wf c -> wf (fst (connect c)).
Proof.
  intros Hwf. unfold connect. destruct (isConnected c); simpl; [done|].
  eapply wf_ext; [..|exact Hwf]; reflexivity.
Qed.

Lemma disconnect_wf c : wf c -> wf (fst (disconnect c)).
Proof.
  intros Hwf. unfold disconnect. destruct (_ws c) as [k|]; simpl; [|done].
  eapply wf_ext; [..|exact Hwf]; unfold ws_close; simpl;
    destruct (sockets c !! k) as [[]|]; reflexivity.
Qed.

Lemma on_close_wf c : wf c -> wf (fst (on_close c)).
Proof.
  intros Hwf. unfold on_close. simpl.
  destruct (_ <? _)%Z; simpl.
  - apply (wf_set_reconnect_timer (set_reconnectAttempts _ (set_ws None c))).
    eapply wf_ext; [..|exact Hwf]; reflexivity.
  - eapply wf_ext; [..|exact Hwf]; reflexivity.
Qed.

Lemma on_message_wf d c : wf c -> wf (fst (on_message d c)).
Proof.
  intros Hwf. unfold on_message. destruct d as [|m]; simpl; [done|].
  destruct (Config.truthy (msg_id m)) as [id|]; simpl; [|done].
  destruct (_pendingRequests c !! id) as [pr|] eqn:Hl; simpl; [|done].
  destruct (wf_pending c Hwf _ _ Hl) as (d & ms & Hd).
  apply (wf_finish c (timeout pr) (promise pr) id); [done| | |].
  - by destruct (wf_unsettled c Hwf _ _ _ _ _ Hd).
  - intros tm Ht. rewrite Hd in Ht. injection Ht as <-. eauto.
  - intros h' d' id' ms' Hl'. eapply wf_one_timer; eauto.
Qed.

Theorem step_wf e c : wf c -> wf (fst (step e c)).
Proof.
  intros Hwf. destruct e; simpl.
  - by apply connect_wf.
  - by apply disconnect_wf.
  - pose proof (sendCommand_wf cmd timeoutMs now rnd c Hwf) as H.
    by destruct (sendCommand _ _ _ _ _) as [[? ?] ?].
  - destruct (sockets c !! k); simpl; [|done].
    eapply wf_ext; [..|exact Hwf]; reflexivity.
  - destruct (sockets c !! k); [|done]. by apply on_message_wf.
  - destruct (sockets c !! k); simpl; [|done].
    eapply wf_ext; [..|exact Hwf]; reflexivity.
  - destruct (sockets c !! k); [|done]. apply on_close_wf.
    eapply wf_ext; [..|exact Hwf]; reflexivity.
  - destruct (timers c !! h) as [[d [p id ms|]]|] eqn:Hl; simpl; [| |done].
    + apply (wf_finish c h p id); [done| | |].
      * by destruct (wf_unsettled c Hwf _ _ _ _ _ Hl).
      * intros tm Ht. rewrite Hl in Ht. injection Ht as <-. eauto.
      * intros h' d' id' ms' Hl'. eapply wf_one_timer; eauto.
    + apply connect_wf. by eapply wf_clear_reconnect.
  - destruct (sends c !! p) as [[id h]|] eqn:Hl; [|done].
    destruct err as [e|]; simpl.
    + destruct (wf_sends c Hwf _ _ _ Hl) as (A & B & C & D).
      apply (wf_finish (set_sends (delete p (sends c)) c) h p id);
        [by apply wf_delete_send|done|done|done].
    + by apply wf_delete_send.
Qed.

Lemma run_wf es c : wf c -> wf (fst (run es c)).
Proof.
  revert c. induction es as [|e es IH]; intros c Hwf; simpl; [done|].
  pose proof (step_wf e c Hwf) as H1. destruct (step e c) as [c1 out1].
  specialize (IH c1 H1). by destruct (run es c1).
Qed.

(** ** Correlation of responses *)

Lemma request_id_truthy now rnd :
  Config.truthy (Some (request_id now rnd)) = Some (request_id now rnd).
Proof. reflexivity. Qed.

Lemma truthy_Some v id : Config.truthy v = Some id -> v = Some id.
Proof. destruct v as [[|]|]; simpl; congruence. Qed.

Lemma sendCommand_connected cmd ms now rnd c :
  isConnected c = true ->
  exists c' out,
    sendCommand cmd ms now rnd c = (next_promise c, c', out) /\
    _pendingRequests c'
    = <[request_id now rnd := {| promise := next_promise c; timeout := next_timer c |}]>
        (_pendingRequests c) /\
    timers c'
    = <[next_timer c := {| delay := default 5000%Z ms;
                           task := RequestTimeout (next_promise c) (request_id now rnd)
                                     (default 5000%Z ms) |}]> (timers c) /\
    promises c' = promises c /\
    _ws c' = _ws c /\ sockets c' = sockets c /\
    next_promise c' = S (next_promise c) /\ next_timer c' = S (next_timer c).
Proof.
  unfold isConnected, sendCommand. simpl.
  destruct (_ws c) as [k|] eqn:Hws; [|discriminate]. intros H. rewrite H. simpl.
  do 2 eexists. repeat split. simpl. by rewrite Hws.
Qed.

Lemma promises_stable e c p o :
  promises c !! p = Some o -> promises (fst (step e c)) !! p = Some o.
Proof.
  intros Hp.
  assert (Hs : forall q x c', promises c' !! p = Some o ->
                              promises (settle q x c') !! p = Some o).
  { intros q x c' H. rewrite settle_lookup. by rewrite H. }
  destruct e; simpl.
  - unfold connect. destruct (isConnected c); exact Hp.
  - unfold disconnect. destruct (_ws c) as [k|]; [|exact Hp].
    unfold ws_close. destruct (sockets _ !! k) as [[]|]; exact Hp.
  - unfold sendCommand.
    destruct (_ws _) as [k|]; [case_bool_decide|]; first [exact Hp | apply Hs; exact Hp].
  - destruct (sockets c !! k); exact Hp.
  - destruct (sockets c !! k); [|exact Hp]. unfold on_message.
    destruct d as [|m]; [exact Hp|]. destruct (Config.truthy _); [|exact Hp].
    destruct (_pendingRequests c !! _); [|exact Hp]. apply Hs; exact Hp.
  - destruct (sockets c !! k); exact Hp.
  - destruct (sockets c !! k); [|exact Hp]. unfold on_close.
    destruct (_ <? _)%Z; exact Hp.
  - destruct (timers c !! h) as [[d [q id ms|]]|]; [| |exact Hp].
    + apply Hs; exact Hp.
    + unfold on_reconnect_timer, connect. destruct (isConnected _); exact Hp.
  - destruct (sends c !! p0) as [[id h]|]; [|exact Hp].
    destruct err; [|exact Hp]. apply Hs; exact Hp.
Qed.

Lemma promises_stable_run es c p o :
  promises c !! p = Some o -> promises (fst (run es c)) !! p = Some o.
Proof.
  revert c. induction es as [|e es IH]; intros c Hp; simpl; [done|].
  pose proof (promises_stable e c p o Hp) as H1. destruct (step e c) as [c1 out1].
  specialize (IH c1 H1). by destruct (run es c1).
Qed.


(** Issuing calls. *)

Lemma step_call a c :
  isConnected c = true ->
  let c' := fst (step (call_event a) c) in
  isConnected c' = true /\ _ws c' = _ws c /\ sockets c' = sockets c /\
  next_promise c' = S (next_promise c) /\
  _pendingRequests c'
  = <[call_id a := {| promise := next_promise c; timeout := next_timer c |}]>
      (_pendingRequests c).
Proof.
  intros Hc. simpl.
  destruct (sendCommand_connected (call_command a) (call_timeoutMs a) (call_now a)
              (call_rnd a) c Hc) as (c' & out & E & Hq & _ & _ & Hws & Hso & Hnp & _).
  rewrite E. simpl. repeat split; try done.
  unfold isConnected in *. by rewrite Hws, Hso.
Qed.

Lemma run_cons_fst e es c : fst (run (e :: es) c) = fst (run es (fst (step e c))).
Proof.
  cbn [run]. destruct (step e c) as [c1 o1]. cbn [fst]. by destruct (run es c1).
Qed.

Lemma issue_cons a calls c : issue (a :: calls) c = issue calls (fst (step (call_event a) c)).
Proof. apply run_cons_fst. Qed.

Lemma issue_keeps calls c id :
  isConnected c = true -> id ∉ call_id <$> calls ->
  _pendingRequests (issue calls c) !! id = _pendingRequests c !! id.
Proof.
  revert c. induction calls as [|a calls IH]; intros c Hc Hid; [done|].
  rewrite issue_cons. destruct (step_call a c Hc) as (Hc' & _ & _ & _ & Hq).
  simpl in Hid. apply not_elem_of_cons in Hid as [Hne Hid].
  rewrite IH; [|done|done].
  rewrite Hq. by apply lookup_insert_ne.
Qed.

Lemma issue_frame calls c :
  isConnected c = true ->
  isConnected (issue calls c) = true /\ sockets (issue calls c) = sockets c.
Proof.
  revert c. induction calls as [|a calls IH]; intros c Hc; [done|].
  rewrite issue_cons. destruct (step_call a c Hc) as (Hc' & _ & Hs & _ & _).
  destruct (IH _ Hc') as [? ?]. split; congruence.
Qed.

Lemma issue_wf calls c : wf c -> wf (issue calls c).
Proof. apply run_wf. Qed.

Lemma issue_pending calls c i a :
  isConnected c = true -> NoDup (call_id <$> calls) ->
  calls !! i = Some a ->
  exists h,
    _pendingRequests (issue calls c) !! call_id a
    = Some {| promise := next_promise c + i; timeout := h |}.
Proof.
  revert c i. induction calls as [|b calls IH]; intros c i Hc Hnd Hi; [done|].
  rewrite issue_cons. destruct (step_call b c Hc) as (Hc' & _ & _ & Hnp & Hq).
  apply NoDup_cons in Hnd as [Hb Hnd].
  destruct i as [|i]; simpl in Hi.
  - injection Hi as <-. exists (next_timer c).
    rewrite issue_keeps; [|done|done]. rewrite Hq, lookup_insert_eq.
    do 2 f_equal. lia.
  - destruct (IH _ i Hc' Hnd Hi) as [h Hh]. exists h. rewrite Hh, Hnp.
    do 2 f_equal. lia.
Qed.

(** Delivering frames. *)

Lemma deliver_cons k m frames c :
  deliver k (m :: frames) c = deliver k frames (fst (step (WsMessage k (Parsed m)) c)).
Proof. apply run_cons_fst. Qed.

Lemma on_message_hit m id pr c :
  Config.truthy (msg_id m) = Some id -> _pendingRequests c !! id = Some pr ->
  fst (on_message (Parsed m) c)
  = settle (promise pr) (Resolved m)
      (set_pendingRequests (delete id (_pendingRequests c)) (clearTimeout (timeout pr) c)).
Proof. intros E Hl. unfold on_message. by rewrite E, Hl. Qed.

Lemma on_message_miss m c :
  (forall id, Config.truthy (msg_id m) = Some id -> _pendingRequests c !! id = None) ->
  on_message (Parsed m) c = (c, [EmitEvent m]).
Proof.
  intros H. unfold on_message. destruct (Config.truthy (msg_id m)) as [id|]; [|done].
  by rewrite (H id eq_refl).
Qed.

Lemma on_message_cases m c :
  (exists id pr, Config.truthy (msg_id m) = Some id /\ _pendingRequests c !! id = Some pr)
  \/ on_message (Parsed m) c = (c, [EmitEvent m]).
Proof.
  destruct (Config.truthy (msg_id m)) as [id|] eqn:E.
  - destruct (_pendingRequests c !! id) as [pr|] eqn:Hl; [left; eauto|].
    right. apply on_message_miss. intros id' E'. congruence.
  - right. apply on_message_miss. intros id' E'. congruence.
Qed.

Lemma step_message k m c :
  step (WsMessage k (Parsed m)) c
  = match sockets c !! k with
    | Some _ => on_message (Parsed m) c
    | None => (c, [])
    end.
Proof. reflexivity. Qed.

Lemma message_other k m c id :
  msg_id m <> Some id ->
  _pendingRequests (fst (step (WsMessage k (Parsed m)) c)) !! id
  = _pendingRequests c !! id.
Proof.
  intros Hne. rewrite step_message. destruct (sockets c !! k); [|done].
  destruct (on_message_cases m c) as [(id' & pr & E & Hl)| ->]; [|done].
  rewrite (on_message_hit m id' pr c E Hl).
  destruct (settle_fields (promise pr) (Resolved m)
              (set_pendingRequests (delete id' (_pendingRequests c))
                 (clearTimeout (timeout pr) c))) as (_ & _ & _ & -> & _).
  apply truthy_Some in E. cbn. apply lookup_delete_ne. congruence.
Qed.

Lemma message_resolves k m c id pr :
  wf c -> is_Some (sockets c !! k) ->
  msg_id m = Some id -> id <> EmptyString ->
  _pendingRequests c !! id = Some pr ->
  promises (fst (step (WsMessage k (Parsed m)) c)) !! promise pr = Some (Resolved m).
Proof.
  intros Hwf [r Hk] Hid Hne Hl. rewrite step_message, Hk.
  assert (E : Config.truthy (msg_id m) = Some id).
  { rewrite Hid. by destruct id. }
  rewrite (on_message_hit m id pr c E Hl), settle_lookup.
  destruct (wf_pending c Hwf _ _ Hl) as (d & ms & Hd).
  destruct (wf_unsettled c Hwf _ _ _ _ _ Hd) as [Hn _].
  cbn. rewrite Hn. by rewrite decide_True.
Qed.

Lemma step_sockets_message k m c :
  sockets (fst (step (WsMessage k (Parsed m)) c)) = sockets c.
Proof.
  rewrite step_message. destruct (sockets c !! k); [|done].
  destruct (on_message_cases m c) as [(id' & pr & E & Hl)| ->]; [|done].
  rewrite (on_message_hit m id' pr c E Hl).
  by destruct (settle_fields (promise pr) (Resolved m)
              (set_pendingRequests (delete id' (_pendingRequests c))
                 (clearTimeout (timeout pr) c))) as (_ & _ & _ & _ & -> & _).
Qed.

Lemma deliver_resolves k frames c m id pr :
  wf c -> is_Some (sockets c !! k) ->
  NoDup (msg_id <$> frames) ->
  m ∈ frames -> msg_id m = Some id -> id <> EmptyString ->
  _pendingRequests c !! id = Some pr ->
  promises (deliver k frames c) !! promise pr = Some (Resolved m).
Proof.
  revert c. induction frames as [|m0 frames IH]; intros c Hwf Hk Hnd Hm Hid Hne Hl.
  - by apply elem_of_nil in Hm.
  - rewrite deliver_cons. simpl in Hnd. apply NoDup_cons in Hnd as [Hm0 Hnd].
    apply elem_of_cons in Hm as [->|Hm].
    + apply promises_stable_run. by eapply message_resolves.
    + apply IH; try done.
      * by apply step_wf.
      * by rewrite step_sockets_message.
      * rewrite message_other; [done|]. intros E. apply Hm0.
        rewrite E, <- Hid. by apply list_elem_of_fmap_2.
Qed.

(** C2 (correlation).  On a connected client, let [N] calls of
    [sendCommand] be issued back to back and let their generated ids be
    pairwise different.  Whatever the order in which the frames carrying
    those ids arrive, the promise of the [i]-th call is resolved with the
    frame whose id is the id generated for that call, and with no other. *)
Theorem responses_correlate_by_id :
  forall (c : t) (k : nat) (calls : list Call) (frames : list PluginResponse),
    wf c -> _ws c = Some k -> sockets c !! k = Some OPEN ->
    NoDup (call_id <$> calls) ->
    Permutation (msg_id <$> frames) ((fun a => Some (call_id a)) <$> calls) ->
    forall (i : nat) (a : Call) (m : PluginResponse),
      calls !! i = Some a -> m ∈ frames -> msg_id m = Some (call_id a) ->
      promises (deliver k frames (issue calls c)) !! (next_promise c + i)
      = Some (Resolved m).
Proof.
  intros c k calls frames Hwf Hws Hk Hnd Hperm i a m Hi Hm Hid.
  assert (Hc : isConnected c = true).
  { unfold isConnected. rewrite Hws. by apply bool_decide_eq_true. }
  destruct (issue_pending calls c i a Hc Hnd Hi) as [h Hh].
  destruct (issue_frame calls c Hc) as [_ Hs].
  change (next_promise c + i) with (promise {| promise := next_promise c + i; timeout := h |}).
  eapply deliver_resolves; try done.
  - by apply issue_wf.
  - rewrite Hs, Hk. eauto.
  - rewrite Hperm. change (NoDup ((Some ∘ call_id) <$> calls)).
    rewrite list_fmap_compose. apply (NoDup_fmap_2 Some). exact Hnd.
Qed.

(** ** Timeouts

    The timer of a request stays live until one of the three events that end
    the request. *)

Lemma settle_timers p o c : timers (settle p o c) = timers c.
Proof. by destruct (settle_fields p o c) as (_ & _ & _ & _ & _ & -> & _). Qed.

Lemma settle_pending p o c : _pendingRequests (settle p o c) = _pendingRequests c.
Proof. by destruct (settle_fields p o c) as (_ & _ & _ & -> & _). Qed.

Lemma connect_timers c : timers (fst (connect c)) = timers c.
Proof. unfold connect. by destruct (isConnected c). Qed.

Lemma timer_survives p id h e c tm :
  wf c -> ends_request p id h e = false ->
  task tm = RequestTimeout p id (delay tm) ->
  timers c !! h = Some tm ->
  timers (fst (step e c)) !! h = Some tm.
Proof.
  intros Hwf He Htm Hh. destruct tm as [d tk]. simpl in Htm. subst tk.
  pose proof (wf_timers c Hwf _ _ Hh) as Hlt.
  destruct e.
  - cbn [step]. by rewrite connect_timers.
  - cbn [step]. unfold disconnect. destruct (_ws c) as [k|]; [|done].
    unfold ws_close. by destruct (sockets _ !! k) as [[]|].
  - cbn [step]. unfold sendCommand.
    destruct (_ws _) as [k|]; cbn -[settle];
      [case_bool_decide; cbn -[settle]|]; rewrite ?settle_timers; try done.
    rewrite lookup_insert_ne; [done|lia].
  - cbn [step]. by destruct (sockets c !! k).
  - destruct d0 as [|m]; [cbn; by destruct (sockets c !! k)|].
    rewrite step_message. destruct (sockets c !! k); [|done].
    destruct (on_message_cases m c) as [(id' & pr & E & Hl)| ->]; [|done].
    rewrite (on_message_hit m id' pr c E Hl), settle_timers.
    cbn. rewrite lookup_delete_ne; [done|]. intros Eh.
    destruct (wf_pending c Hwf _ _ Hl) as (d' & ms' & Hd). rewrite Eh, Hh in Hd.
    injection Hd as _ _ Eid _. apply truthy_Some in E.
    cbn in He. apply bool_decide_eq_false in He. congruence.
  - cbn [step]. by destruct (sockets c !! k).
  - cbn [step]. destruct (sockets c !! k); [|done]. unfold on_close. cbn.
    destruct (_ <? _)%Z; [|done]. cbn. rewrite lookup_insert_ne; [done|lia].
  - cbn in He. apply bool_decide_eq_false in He. cbn [step].
    destruct (timers c !! h0) as [[d' [q id' ms'|]]|] eqn:Hl; [| |done].
    + cbn [task]. unfold on_request_timeout. cbn [fst]. rewrite settle_timers.
      cbn. by rewrite lookup_delete_ne.
    + cbn [task]. unfold on_reconnect_timer. rewrite connect_timers. cbn.
      by rewrite lookup_delete_ne.
  - cbn [step]. destruct (sends c !! p0) as [[id' h']|] eqn:Hl; [|done].
    destruct err as [e|]; [|done]. cbn in He. apply bool_decide_eq_false in He.
    unfold on_send_done. cbn [fst]. rewrite settle_timers.
    cbn. rewrite lookup_delete_ne; [done|]. intros Eh. subst h'.
    destruct (wf_sends c Hwf _ _ _ Hl) as (_ & _ & C & _).
    destruct (C _ Hh) as (? & ? & [=]). congruence.
Qed.

Lemma timer_survives_run p id h es c tm :
  wf c -> (forall e, e ∈ es -> ends_request p id h e = false) ->
  task tm = RequestTimeout p id (delay tm) ->
  timers c !! h = Some tm ->
  timers (fst (run es c)) !! h = Some tm.
Proof.
  revert c. induction es as [|e es IH]; intros c Hwf Hes Htm Hh; [done|].
  rewrite run_cons_fst. apply IH; [by apply step_wf| |done|].
  - intros e' He'. apply Hes. by right.
  - eapply timer_survives; eauto. apply Hes. by left.
Qed.

Lemma timer_fires c h d p id ms :
  wf c ->
  timers c !! h = Some {| delay := d; task := RequestTimeout p id ms |} ->
  exists c',
    step (TimerFire h) c = (c', [Reject p (timeout_message ms)]) /\
    promises c' !! p = Some (Rejected (timeout_message ms)) /\
    _pendingRequests c' !! id = None /\
    timers c' !! h = None.
Proof.
  intros Hwf Hh. cbn [step]. rewrite Hh. cbn [task]. unfold on_request_timeout.
  eexists. split; [reflexivity|].
  rewrite settle_pending, settle_timers, settle_lookup. cbn.
  destruct (wf_unsettled c Hwf _ _ _ _ _ Hh) as [-> _].
  rewrite decide_True by done. by rewrite !lookup_delete_eq.
Qed.

(** C7 (timeout).  After [sendCommand] with timeout [timeoutMs] (5000 when
    omitted) on a connected client, as long as no frame carries the request's
    id, the [send] does not fail and the timer has not fired, the promise stays
    pending; when the timer fires the promise is rejected with
    "Request timeout after {timeoutMs}ms" and the pending map has no entry for
    the id any more. *)
Theorem request_times_out :
  forall (c : t) (cmd : PluginCommand) (timeoutMs : option Z) (now : Z) (rnd : string)
         (es : list Event),
    wf c -> isConnected c = true ->
    let p := next_promise c in
    let h := next_timer c in
    let id := request_id now rnd in
    let ms := default 5000%Z timeoutMs in
    (forall e, e ∈ es -> ends_request p id h e = false) ->
    let awaiting := fst (run es (fst (step (CallSendCommand cmd timeoutMs now rnd) c))) in
    promises awaiting !! p = None /\
    exists c',
      step (TimerFire h) awaiting = (c', [Reject p (timeout_message ms)]) /\
      promises c' !! p = Some (Rejected (timeout_message ms)) /\
      _pendingRequests c' !! id = None.
Proof.
  intros c cmd timeoutMs now rnd es Hwf Hc p h id ms Hes awaiting.
  destruct (sendCommand_connected cmd timeoutMs now rnd c Hc)
    as (c1 & out & E & _ & Ht & _).
  assert (Hwf1 : wf (fst (step (CallSendCommand cmd timeoutMs now rnd) c)))
    by by apply step_wf.
  assert (Hh : timers awaiting !! h
               = Some {| delay := ms; task := RequestTimeout p id ms |}).
  { apply (timer_survives_run p id h); [done|done|done|].
    cbn [step]. rewrite E. cbn [fst]. rewrite Ht. apply lookup_insert_eq. }
  assert (Hwf2 : wf awaiting) by by apply run_wf.
  split; [by destruct (wf_unsettled _ Hwf2 _ _ _ _ _ Hh)|].
  destruct (timer_fires awaiting h ms p id ms Hwf2 Hh) as (c' & A & B & C & _).
  eauto.
Qed.

(** ** Reconnection *)

Lemma new_counters_ok host port : counters_ok (new host port).
Proof. split; simpl; lia. Qed.

Lemma settle_attempts p o c :
  _reconnectAttempts (settle p o c) = _reconnectAttempts c /\
  _maxReconnectAttempts (settle p o c) = _maxReconnectAttempts c.
Proof. by destruct (settle_fields p o c) as (_ & -> & -> & _). Qed.

(** What one turn of the event loop does to the counter and which
    reconnection it schedules. *)
Lemma step_reconnect e c :
  is_open e = false -> counters_ok c ->
  _maxReconnectAttempts (fst (step e c)) = 5%Z /\
  ((reconnect_delays (snd (step e c)) = [] /\
    (_reconnectAttempts (fst (step e c)) = _reconnectAttempts c \/
     _reconnectAttempts (fst (step e c)) = 5%Z)) \/
   (reconnect_delays (snd (step e c)) = [(1000 * (_reconnectAttempts c + 1))%Z] /\
    _reconnectAttempts (fst (step e c)) = (_reconnectAttempts c + 1)%Z /\
    (_reconnectAttempts c < 5)%Z)).
Proof.
  intros He [Hmax Ha]. destruct e; try discriminate; cbn [step].
  - unfold connect. destruct (isConnected c); cbn; auto.
  - unfold disconnect. destruct (_ws c) as [k|]; [|cbn; auto].
    unfold ws_close. destruct (sockets _ !! k) as [[]|]; cbn; auto.
  - unfold sendCommand.
    destruct (_ws _) as [k|]; [case_bool_decide|]; cbn -[settle];
      rewrite ?(proj1 (settle_attempts _ _ _)), ?(proj2 (settle_attempts _ _ _));
      cbn; auto.
  - destruct (sockets c !! k); [|cbn; auto]. destruct d as [|m]; [cbn; auto|].
    destruct (on_message_cases m c) as [(id' & pr & E & Hl)| ->]; [|cbn; auto].
    unfold on_message. rewrite E, Hl. cbn -[settle].
    rewrite (proj1 (settle_attempts _ _ _)), (proj2 (settle_attempts _ _ _)). cbn; auto.
  - destruct (sockets c !! k); cbn; auto.
  - destruct (sockets c !! k); [|cbn; auto]. unfold on_close. cbn.
    rewrite Hmax. destruct (Z.ltb_spec (_reconnectAttempts c) 5); cbn.
    + split; [done|]. right. auto.
    + split; [done|]. left. auto.
  - destruct (timers c !! h) as [[d [q id ms|]]|]; [| |cbn; auto].
    + cbn [task]. unfold on_request_timeout. cbn -[settle].
      rewrite (proj1 (settle_attempts _ _ _)), (proj2 (settle_attempts _ _ _)). cbn; auto.
    + cbn [task]. unfold on_reconnect_timer, connect.
      destruct (isConnected _); cbn; auto.
  - destruct (sends c !! p) as [[id h]|]; [|cbn; auto].
    destruct err as [e|]; [|cbn; auto]. unfold on_send_done. cbn -[settle].
    rewrite (proj1 (settle_attempts _ _ _)), (proj2 (settle_attempts _ _ _)). cbn; auto.
Qed.

Lemma step_counters_ok e c : counters_ok c -> counters_ok (fst (step e c)).
Proof.
  intros Hc. destruct (is_open e) eqn:He.
  - destruct e; try discriminate. cbn [step].
    destruct (sockets c !! k); [|done]. destruct Hc as [Hm Ha]. split; cbn; [done|lia].
  - destruct (step_reconnect e c He Hc) as [Hm [[_ [Ea|Ea]]|(_ & Ea & Hlt)]];
      destruct Hc as [_ Ha]; split; try done; lia.
Qed.

Lemma run_counters_ok es c : counters_ok c -> counters_ok (fst (run es c)).
Proof.
  revert c. induction es as [|e es IH]; intros c Hc; [done|].
  rewrite run_cons_fst. apply IH. by apply step_counters_ok.
Qed.

Lemma run_cons_snd e es c :
  snd (run (e :: es) c) = snd (step e c) ++ snd (run es (fst (step e c))).
Proof.
  cbn [run]. destruct (step e c) as [c1 o1]. cbn [fst snd]. by destruct (run es c1).
Qed.

Lemma reconnect_delays_app o1 o2 :
  reconnect_delays (o1 ++ o2) = reconnect_delays o1 ++ reconnect_delays o2.
Proof. apply omap_app. Qed.

Lemma delays_shift (a : Z) (m : nat) :
  (fun n : nat => (1000 * (a + 1 + Z.of_nat n))%Z) <$> seq 1 m
  = (fun n : nat => (1000 * (a + Z.of_nat n))%Z) <$> seq 2 m.
Proof.
  rewrite <- (fmap_S_seq 1), <- list_fmap_compose. apply list_fmap_ext.
  intros i x _. cbn. f_equal. lia.
Qed.

Lemma run_reconnect es c :
  counters_ok c -> (forall e, e ∈ es -> is_open e = false) ->
  exists m : nat,
    reconnect_delays (snd (run es c))
    = (fun n : nat => (1000 * (_reconnectAttempts c + Z.of_nat n))%Z) <$> seq 1 m /\
    (_reconnectAttempts c + Z.of_nat m <= _reconnectAttempts (fst (run es c)) <= 5)%Z.
Proof.
  revert c. induction es as [|e es IH]; intros c Hc Hes.
  - exists 0. destruct Hc as [_ Ha]. cbn. split; [done|lia].
  - assert (He : is_open e = false) by (apply Hes; by left).
    assert (Hes' : forall e', e' ∈ es -> is_open e' = false)
      by (intros e' H; apply Hes; by right).
    pose proof (step_counters_ok e c Hc) as Hc1.
    destruct (IH _ Hc1 Hes') as (m' & Hd & Hb).
    rewrite run_cons_fst, run_cons_snd, reconnect_delays_app, Hd.
    destruct (step_reconnect e c He Hc) as [_ [[-> [Ea|Ea]]|(-> & Ea & Hlt)]].
    + exists m'. rewrite Ea in *. split; [done|lia].
    + exists 0. rewrite Ea in *. assert (m' = 0) as -> by lia. cbn. split; [done|].
      destruct Hc as [_ Ha]. lia.
    + exists (S m'). rewrite Ea in *. split; [|lia].
      cbn [seq fmap list_fmap app]. rewrite <- delays_shift. reflexivity.
Qed.


(** ** Close and disconnect *)

(** C1 (evaluation of the close handler).  With two requests in flight, the
    close of the socket leaves both entries in the pending map, settles no
    promise and only announces the disconnection and schedules a
    reconnection: the requests are not rejected on close. *)
Theorem close_leaves_requests_pending :
  size (_pendingRequests two_pending) = 2 /\
  _pendingRequests (fst (step (WsClose 0) two_pending)) = _pendingRequests two_pending /\
  promises (fst (step (WsClose 0) two_pending)) = ∅ /\
  snd (step (WsClose 0) two_pending)
  = [EmitDisconnected; SetTimeout 2 {| delay := 1000; task := Reconnect |}].
Proof. vm_compute. repeat split. Qed.

(** The same for every client and every socket. *)
Lemma close_keeps_requests k c :
  _pendingRequests (fst (step (WsClose k) c)) = _pendingRequests c /\
  promises (fst (step (WsClose k) c)) = promises c.
Proof.
  cbn [step]. destruct (sockets c !! k); [|done]. unfold on_close. cbn.
  by destruct (_ <? _)%Z.
Qed.

(** C6 (evaluation of [disconnect] during back-off).  After an unexpected
    close the client holds no socket and has one reconnection scheduled.
    [disconnect()] then changes nothing; the reconnection timer still fires and
    opens a new socket, which can open (the client is connected again) or fail
    (and the next reconnection is scheduled after 2000 ms). *)
Theorem disconnect_during_backoff_still_reconnects :
  _ws in_backoff = None /\
  timers in_backoff !! 0 = Some {| delay := 1000; task := Reconnect |} /\
  step CallDisconnect in_backoff = (in_backoff, []) /\
  snd (run [CallDisconnect; TimerFire 0] in_backoff)
  = [NewWebSocket 1 "ws://localhost:9223"] /\
  isConnected (fst (run [CallDisconnect; TimerFire 0; WsOpen 1] in_backoff)) = true /\
  reconnect_delays
    (snd (run [CallDisconnect; TimerFire 0; WsError 1 "ECONNREFUSED"; WsClose 1]
            in_backoff))
  = [2000%Z].
Proof. vm_compute. repeat split. Qed.

(** When the client does hold a socket, [disconnect] raises the counter to
    its maximum: whatever happens next, short of a socket opening, the close
    handler schedules no further reconnection. *)
Lemma disconnect_stops_reconnect c k es :
  counters_ok c -> _ws c = Some k ->
  (forall e, e ∈ es -> is_open e = false) ->
  reconnect_delays (snd (run es (fst (disconnect c)))) = [].
Proof.
  intros [Hm Ha] Hws Hes.
  assert (Hc : counters_ok (fst (disconnect c))).
  { unfold disconnect. rewrite Hws. unfold ws_close.
    destruct (sockets _ !! k) as [[]|]; split; cbn; lia. }
  assert (E : _reconnectAttempts (fst (disconnect c)) = 5%Z).
  { unfold disconnect. rewrite Hws. unfold ws_close.
    destruct (sockets _ !! k) as [[]|]; cbn; lia. }
  destruct (run_reconnect es _ Hc Hes) as (m & -> & Hb).
  assert (m = 0) as -> by lia. done.
Qed.

(** C10 (singleton).  When the singleton exists, [getPluginClient(host, port)]
    returns it and leaves it in place whatever [host] and [port] are, and
    [connectPlugin(host, port)] keeps its host, port and URL; when the
    singleton is null, [getPluginClient] creates the client for the given host
    and port (or the defaults) and stores it; [resetPluginClient] leaves the
    singleton null. *)
Theorem getPluginClient_keeps_singleton :
  forall (parseInt : string -> Z) (env : Config.ProcessEnv)
         (host : option string) (port : option Z),
    (forall client : t,
       getPluginClient parseInt env host port (Some client) = (client, Some client)) /\
    (let fresh := new (default (Config.getDefaultHost env) host)
                      (default (Config.getDefaultPort parseInt env) port) in
     getPluginClient parseInt env host port None = (fresh, Some fresh)) /\
    (forall client : t,
       exists client' : t,
         fst (connectPlugin parseInt env host port (Some client)) = Some client' /\
         _host client' = _host client /\ _port client' = _port client /\
         _url client' = _url client) /\
    (forall pluginClient : option t, fst (resetPluginClient pluginClient) = None).
Proof.
  intros parseInt env host port. split; [|split; [|split]].
  - reflexivity.
  - reflexivity.
  - intros client. unfold connectPlugin, getPluginClient, connect.
    destruct (isConnected client); eexists; (split; [reflexivity|done]).
  - by intros [client|].
Qed.

(** ** The properties on concrete runs *)

Lemma connected_client_wf : wf connected_client.
Proof. apply run_wf, new_wf. Qed.

Lemma responses_correlate_by_id_witness :
  let a1 := {| call_command := get_window_info; call_timeoutMs := None;
               call_now := 1764892800000; call_rnd := "k3j2h1g0f" |} in
  let a2 := {| call_command := get_window_info; call_timeoutMs := None;
               call_now := 1764892800000; call_rnd := "a1b2c3d4e" |} in
  let m1 := {| msg_id := Some (call_id a1); success := true;
               data := Some "one"; error := None |} in
  let m2 := {| msg_id := Some (call_id a2); success := false;
               data := None; error := Some "two" |} in
  promises (deliver 0 [m2; m1] (issue [a1; a2] connected_client)) !! (0 + 1)
  = Some (Resolved m2).
Proof.
  intros a1 a2 m1 m2.
  apply (responses_correlate_by_id connected_client 0 [a1; a2] [m2; m1]
           connected_client_wf eq_refl eq_refl) with (a := a2).
  - vm_compute. apply NoDup_cons. split; [|apply NoDup_singleton].
    intros H%list_elem_of_singleton. discriminate H.
  - vm_compute. apply perm_swap.
  - reflexivity.
  - by left.
  - reflexivity.
Defined.

Lemma request_times_out_witness :
  exists c',
    step (TimerFire 0)
      (fst (run [WsMessage 0 (Parsed {| msg_id := Some "req_1_other"; success := true;
                                        data := None; error := None |});
                 SendDone 0 None; WsClose 0]
              (fst (step (CallSendCommand get_window_info (Some 250%Z)
                            1764892800000 "k3j2h1g0f") connected_client))))
    = (c', [Reject 0 "Request timeout after 250ms"]) /\
    promises c' !! 0 = Some (Rejected "Request timeout after 250ms") /\
    _pendingRequests c' !! "req_1764892800000_k3j2h1g0f" = None.
Proof.
  refine (proj2 (request_times_out connected_client get_window_info (Some 250%Z)
                   1764892800000 "k3j2h1g0f" _ connected_client_wf eq_refl _)).
  intros e He. repeat (apply elem_of_cons in He as [->|He]); try reflexivity.
  by apply elem_of_nil in He.
Defined.


End ClientProofs.

(** * Properties of port discovery *)

Module DiscoveryProofs.
Import AppDiscovery Scenarios Examples.


(** What a probe makes of each answer, on the client it creates. *)
Lemma probe_new answer host port :
  fst (probe answer (PluginClient.new host port))
  = match answer with
    | ProbeOpens => inr true
    | ProbeFails err => inl (Async.Uncaught err)
    | ProbeTimesOut => inr false
    | ProbeThrows _ => inr false
    end.
Proof. by destruct answer. Qed.








(** C8 (discovery), as the code behaves.  With apps on 9224 and 9230 and
    nothing on 9223, the scan from 9223 does not get to 9224: the probe of
    9223 is refused, the error event of its socket is thrown by
    [emit('error')], and [getFirstAvailableApp] does not return. *)
Theorem refused_probe_ends_the_scan :
  getFirstAvailableApp (listening [("localhost", 9224%Z); ("localhost", 9230%Z)])
    local_discovery []
  = (inl (Async.Uncaught "Error: connect ECONNREFUSED"), [IoProbe "localhost" 9223]).
Proof. vm_compute. reflexivity. Qed.



End DiscoveryProofs.

(** * Properties of the session coordinator *)

Module SessionProofs.
Import SessionManager Scenarios.

Lemma bind_run {A B} (m : M A) (f : A -> M B) (s : State) :
  (m ≫= f) s = match m s with
               | (inl e, s') => (inl e, s')
               | (inr a, s') => f a s'
               end.
Proof. reflexivity. Qed.

(** What the answer of the network makes of [connect()] on a new client. *)
Lemma await_connect_new o host port :
  fst (AppDiscovery.await_connect o (PluginClient.new host port))
  = match o with
    | AppDiscovery.Opens => AppDiscovery.Resolved
    | AppDiscovery.Fails e => AppDiscovery.Unsettled (Some e)
    | AppDiscovery.Throws e => AppDiscovery.Rejected e
    | AppDiscovery.Hangs => AppDiscovery.Unsettled None
    end.
Proof. by destruct o. Qed.

Lemma open_session_spec net port host d io :
  exists d',
    AppDiscovery.open_session net port None host d io
    = (match AppDiscovery.connect_outcome net io host port with
       | AppDiscovery.Opens =>
           inr {| AppDiscovery.appId := AppDiscovery.session_id host port;
                  AppDiscovery.name := AppDiscovery.default_name host port;
                  AppDiscovery.host := host;
                  AppDiscovery.port := port;
                  AppDiscovery.client :=
                    Some (snd (AppDiscovery.await_connect AppDiscovery.Opens
                                 (PluginClient.new host port)));
                  AppDiscovery.connected := true |}
       | AppDiscovery.Fails err => inl (Async.Uncaught err)
       | AppDiscovery.Throws err =>
           inl (Async.Thrown (AppDiscovery.connect_error host port err))
       | AppDiscovery.Hangs => inl Async.Pending
       end, d', io ++ [AppDiscovery.IoConnect host port])
    /\ AppDiscovery._host d' = AppDiscovery._host d.
Proof.
  unfold AppDiscovery.open_session.
  pose proof (await_connect_new (AppDiscovery.connect_outcome net io host port) host port)
    as Hawait.
  destruct (AppDiscovery.connect_outcome net io host port) as [|err|err|];
    destruct (AppDiscovery.await_connect _ _) as [[|e|[e|]] c];
    cbn in Hawait; try discriminate;
    try injection Hawait as ->; eexists; (split; [reflexivity|done]).
Qed.

Lemma connectToPort_hit h d port host s :
  hit d host port = true ->
  exists existing,
    connectToPort h d port host s
    = (inr existing, set_io (io s) (set_appDiscovery (Some d) s)).
Proof.
  unfold hit, connectToPort, AppDiscovery.connectToPort.
  change (default (AppDiscovery._host d) (Some host)) with host.
  destruct (_ !! _) as [existing|]; [|discriminate]. intros ->. eauto.
Qed.

Lemma connectToPort_miss h d port host s :
  hit d host port = false ->
  exists d',
    connectToPort h d port host s
    = (match AppDiscovery.connect_outcome (net h) (io s) host port with
       | AppDiscovery.Opens =>
           inr {| AppDiscovery.appId := AppDiscovery.session_id host port;
                  AppDiscovery.name := AppDiscovery.default_name host port;
                  AppDiscovery.host := host;
                  AppDiscovery.port := port;
                  AppDiscovery.client :=
                    Some (snd (AppDiscovery.await_connect AppDiscovery.Opens
                                 (PluginClient.new host port)));
                  AppDiscovery.connected := true |}
       | AppDiscovery.Fails err => inl (Async.Uncaught err)
       | AppDiscovery.Throws err =>
           inl (Async.Thrown (AppDiscovery.connect_error host port err))
       | AppDiscovery.Hangs => inl Async.Pending
       end,
       set_io (io s ++ [AppDiscovery.IoConnect host port])
         (set_appDiscovery (Some d') s))
    /\ AppDiscovery._host d' = AppDiscovery._host d.
Proof.
  unfold hit, connectToPort, AppDiscovery.connectToPort.
  change (default (AppDiscovery._host d) (Some host)) with host.
  destruct (open_session_spec (net h) port host d (io s)) as (d' & E & Hd').
  intros Hhit. exists d'. split; [|done].
  destruct (_ !! _) as [existing|]; [rewrite Hhit|]; by rewrite E.
Qed.

(** What [tryConnect] does. *)
Lemma tryConnect_spec h host port s :
  let r := tryConnect h host port s in
  currentSession (snd r) = currentSession s /\
  pluginClient (snd r) = pluginClient s /\
  executorInitialized (snd r) = executorInitialized s /\
  (exists d, appDiscovery (snd r) = Some d /\ AppDiscovery._host d = host) /\
  ((cached host port s = true /\ io (snd r) = io s /\ exists session, fst r = inr session)
   \/
   (cached host port s = false /\
    io (snd r) = io s ++ [AppDiscovery.IoConnect host port] /\
    fst r = match AppDiscovery.connect_outcome (net h) (io s) host port with
            | AppDiscovery.Opens =>
                inr {| name := AppDiscovery.default_name host port;
                       host := host; port := port |}
            | AppDiscovery.Fails err => inl (Async.Uncaught err)
            | AppDiscovery.Throws err =>
                inl (Async.Thrown (AppDiscovery.connect_error host port err))
            | AppDiscovery.Hangs => inl Async.Pending
            end)).
Proof.
  unfold tryConnect. rewrite bind_run.
  assert (Hgen : forall d s1,
    appDiscovery s1 = Some d -> AppDiscovery._host d = host ->
    io s1 = io s -> currentSession s1 = currentSession s ->
    pluginClient s1 = pluginClient s -> executorInitialized s1 = executorInitialized s ->
    cached host port s = hit d host port ->
    let r := (connectToPort h d port host
                ≫= fun session =>
                     mret {| name := AppDiscovery.name session;
                             host := AppDiscovery.host session;
                             port := AppDiscovery.port session |}) s1 in
    currentSession (snd r) = currentSession s /\
    pluginClient (snd r) = pluginClient s /\
    executorInitialized (snd r) = executorInitialized s /\
    (exists d, appDiscovery (snd r) = Some d /\ AppDiscovery._host d = host) /\
    ((cached host port s = true /\ io (snd r) = io s /\ exists session, fst r = inr session)
     \/
     (cached host port s = false /\
      io (snd r) = io s ++ [AppDiscovery.IoConnect host port] /\
      fst r = match AppDiscovery.connect_outcome (net h) (io s) host port with
              | AppDiscovery.Opens =>
                  inr {| name := AppDiscovery.default_name host port;
                         host := host; port := port |}
              | AppDiscovery.Fails err => inl (Async.Uncaught err)
              | AppDiscovery.Throws err =>
                  inl (Async.Thrown (AppDiscovery.connect_error host port err))
              | AppDiscovery.Hangs => inl Async.Pending
              end))).
  { intros d s1 Hd Hh E1 E2 E3 E4 Hc r. subst r. rewrite bind_run, Hc.
    destruct (hit d host port) eqn:Hhit.
    - destruct (connectToPort_hit h d port host s1 Hhit) as (existing & ->).
      cbn. repeat split; eauto 6.
    - destruct (connectToPort_miss h d port host s1 Hhit) as (d' & -> & Hd').
      rewrite E1.
      destruct (AppDiscovery.connect_outcome _ _ _ _); cbn;
        (repeat split; try done; [exists d'; split; [done|congruence]|right; done]). }
  unfold getAppDiscovery.
  destruct (appDiscovery s) as [d0|] eqn:Hd0.
  - case_bool_decide as Hh.
    + apply (Hgen d0 s); try done. unfold cached. rewrite Hd0.
      by rewrite bool_decide_eq_true_2.
    + apply (Hgen _ (set_appDiscovery _ s)); try done. unfold cached. rewrite Hd0.
      by rewrite bool_decide_eq_false_2.
  - apply (Hgen _ (set_appDiscovery _ s)); try done. unfold cached. by rewrite Hd0.
Qed.


Lemma resetPluginClient_run s : resetPluginClient s = (inr tt, set_pluginClient None s).
Proof. unfold resetPluginClient, modify. by destruct (pluginClient s). Qed.

(** A [try]-and-return around [tryConnect]: the [catch] falls through for
    what [tryConnect] throws. *)
Lemma attempt_connect h host port (fmt : Session -> string) s :
  attempt (session ← tryConnect h host port;
           modify (set_currentSession (Some session));;
           mret (fmt session)) s
  = match tryConnect h host port s with
    | (inr session, s') => (inr (Some (fmt session)), set_currentSession (Some session) s')
    | (inl (Async.Thrown _), s') => (inr None, s')
    | (inl abort, s') => (inl abort, s')
    end.
Proof.
  unfold attempt, try_catch. rewrite !bind_run.
  by destruct (tryConnect h host port s) as [[[e|e|]|session] s'].
Qed.

Lemma attempts_of_extends s s' evs : extends s s' evs -> attempts_of s s' = evs.
Proof. unfold extends, attempts_of. intros ->. by rewrite drop_app_length. Qed.

Lemma extends_trans s1 s2 s3 e1 e2 :
  extends s1 s2 e1 -> extends s2 s3 e2 -> extends s1 s3 (e1 ++ e2).
Proof. unfold extends. intros H1 H2. by rewrite H2, H1, app_assoc. Qed.

(** One strategy of [start]: [tryConnect] in a [try] whose [catch] falls
    through. *)
Lemma attempt_connect_spec h host port (fmt : Session -> string) s :
  let r := attempt (session ← tryConnect h host port;
                    modify (set_currentSession (Some session));;
                    mret (fmt session)) s in
  pluginClient (snd r) = pluginClient s /\
  (exists d, appDiscovery (snd r) = Some d /\ AppDiscovery._host d = host) /\
  ((cached host port s = true /\ extends s (snd r) [] /\
    exists session, fst r = inr (Some (fmt session)) /\
                    currentSession (snd r) = Some session)
   \/
   (cached host port s = false /\ extends s (snd r) [AppDiscovery.IoConnect host port] /\
    match AppDiscovery.connect_outcome (net h) (io s) host port with
    | AppDiscovery.Opens =>
        fst r = inr (Some (fmt {| name := AppDiscovery.default_name host port;
                                  host := host; port := port |})) /\
        currentSession (snd r)
        = Some {| name := AppDiscovery.default_name host port; host := host; port := port |}
    | AppDiscovery.Fails err =>
        fst r = inl (Async.Uncaught err) /\ currentSession (snd r) = currentSession s
    | AppDiscovery.Throws _ =>
        fst r = inr None /\ currentSession (snd r) = currentSession s
    | AppDiscovery.Hangs =>
        fst r = inl Async.Pending /\ currentSession (snd r) = currentSession s
    end)).
Proof.
  cbv zeta. rewrite attempt_connect.
  destruct (tryConnect_spec h host port s) as (A & B & C & D & E).
  destruct (tryConnect h host port s) as [[abort|session] s']; cbn [fst snd] in *.
  - assert (Hmiss : cached host port s = false /\
                    io s' = io s ++ [AppDiscovery.IoConnect host port] /\
                    inl abort
                    = match AppDiscovery.connect_outcome (net h) (io s) host port with
                      | AppDiscovery.Opens =>
                          inr {| name := AppDiscovery.default_name host port;
                                 host := host; port := port |}
                      | AppDiscovery.Fails err => inl (Async.Uncaught err)
                      | AppDiscovery.Throws err =>
                          inl (Async.Thrown (AppDiscovery.connect_error host port err))
                      | AppDiscovery.Hangs => inl Async.Pending
                      end).
    { destruct E as [(_ & _ & session & [=])|E]; done. }
    destruct Hmiss as (Hc & Hio & Hr).
    destruct (AppDiscovery.connect_outcome (net h) (io s) host port) as [|err|err|];
      [discriminate| | |]; injection Hr as ->; cbn [fst snd];
      (split; [done|]; split; [done|]; right; done).
  - split; [done|]. split; [done|].
    destruct E as [(Hc & Hio & _)|(Hc & Hio & Hr)].
    + left. split; [done|]. split; [by unfold extends; rewrite app_nil_r|]. eauto.
    + right. split; [done|]. split; [done|].
      destruct (AppDiscovery.connect_outcome _ _ _ _); try discriminate.
      by injection Hr as ->.
Qed.

Lemma strategy2_spec h cfgHost cfgPort s :
  let r := strategy2 h cfgHost cfgPort s in
  pluginClient (snd r) = pluginClient s /\
  (exists d, appDiscovery (snd r) = Some d /\ AppDiscovery._host d = cfgHost) /\
  ((cached cfgHost cfgPort s = true /\ extends s (snd r) [] /\
    exists session, fst r = inr (Some (started_on_host session)) /\
                    currentSession (snd r) = Some session)
   \/
   (cached cfgHost cfgPort s = false /\ extends s (snd r) [AppDiscovery.IoConnect cfgHost cfgPort] /\
    match AppDiscovery.connect_outcome (net h) (io s) cfgHost cfgPort with
    | AppDiscovery.Opens =>
        fst r = inr (Some (started_on_host
                             {| name := AppDiscovery.default_name cfgHost cfgPort;
                                host := cfgHost; port := cfgPort |})) /\
        currentSession (snd r)
        = Some {| name := AppDiscovery.default_name cfgHost cfgPort; host := cfgHost; port := cfgPort |}
    | AppDiscovery.Fails err =>
        fst r = inl (Async.Uncaught err) /\ currentSession (snd r) = currentSession s
    | AppDiscovery.Throws _ =>
        fst r = inr None /\ currentSession (snd r) = currentSession s
    | AppDiscovery.Hangs =>
        fst r = inl Async.Pending /\ currentSession (snd r) = currentSession s
    end)).
Proof. apply (attempt_connect_spec h cfgHost cfgPort started_on_host s). Qed.

Lemma strategy1_spec h cfgHost cfgPort s :
  cfgHost <> "localhost" -> cfgHost <> "127.0.0.1" ->
  let r := strategy1 h cfgHost cfgPort s in
  pluginClient (snd r) = pluginClient s /\
  (exists d, appDiscovery (snd r) = Some d /\ AppDiscovery._host d = "localhost") /\
  ((cached "localhost" cfgPort s = true /\ extends s (snd r) [] /\
    exists session, fst r = inr (Some (started_on_localhost session)) /\
                    currentSession (snd r) = Some session)
   \/
   (cached "localhost" cfgPort s = false /\
    extends s (snd r) [AppDiscovery.IoConnect "localhost" cfgPort] /\
    match AppDiscovery.connect_outcome (net h) (io s) "localhost" cfgPort with
    | AppDiscovery.Opens =>
        fst r = inr (Some (started_on_localhost
                             {| name := AppDiscovery.default_name "localhost" cfgPort;
                                host := "localhost"; port := cfgPort |})) /\
        currentSession (snd r)
        = Some {| name := AppDiscovery.default_name "localhost" cfgPort;
                  host := "localhost"; port := cfgPort |}
    | AppDiscovery.Fails err =>
        fst r = inl (Async.Uncaught err) /\ currentSession (snd r) = currentSession s
    | AppDiscovery.Throws _ =>
        fst r = inr None /\ currentSession (snd r) = currentSession s
    | AppDiscovery.Hangs =>
        fst r = inl Async.Pending /\ currentSession (snd r) = currentSession s
    end)).
Proof.
  intros H1 H2. unfold strategy1. rewrite bool_decide_eq_true_2 by done.
  apply (attempt_connect_spec h "localhost" cfgPort started_on_localhost s).
Qed.

Lemma strategy1_loopback h cfgHost cfgPort s :
  cfgHost = "localhost" \/ cfgHost = "127.0.0.1" -> strategy1 h cfgHost cfgPort s = (inr None, s).
Proof.
  intros Hl. unfold strategy1. rewrite bool_decide_eq_false_2; [done|]. tauto.
Qed.

Lemma cached_other_host cfgHost cfgPort s d :
  appDiscovery s = Some d -> AppDiscovery._host d <> cfgHost -> cached cfgHost cfgPort s = false.
Proof.
  intros Hd Hne. unfold cached. rewrite Hd. by rewrite bool_decide_eq_false_2.
Qed.

(** Case analysis on the answer of the network that a hypothesis mentions. *)
Ltac case_outcome S :=
  revert S;
  match goal with
  | |- context [AppDiscovery.connect_outcome ?n ?i ?a ?b] =>
      destruct (AppDiscovery.connect_outcome n i a b)
  end;
  intros S.

(** [start] as a cascade over the results of the strategies. *)
Lemma start_run h host port s :
  manageDriverSession h start host port s
  = let configuredHost := default (Config.getDefaultHost (env h)) host in
    let configuredPort := default (Config.getDefaultPort (parseInt h) (env h)) port in
    let portIsExplicit := bool_decide (is_Some port) || isPortExplicitlyConfigured h in
    match strategy1 h configuredHost configuredPort (set_pluginClient None s) with
    | (inl e, s1) => (inl e, s1)
    | (inr (Some reply), s1) => (inr reply, s1)
    | (inr None, s1) =>
        match strategy2 h configuredHost configuredPort s1 with
        | (inl e, s2) => (inl e, s2)
        | (inr (Some reply), s2) => (inr reply, s2)
        | (inr None, s2) =>
            match strategy3 h portIsExplicit s2 with
            | (inl e, s3) => (inl e, s3)
            | (inr (Some reply), s3) => (inr reply, s3)
            | (inr None, s3) =>
                if portIsExplicit
                then (inr (failed_explicit configuredHost configuredPort),
                      set_currentSession None s3)
                else strategy4 h configuredHost configuredPort s3
            end
        end
    end.
Proof.
  unfold manageDriverSession, manageDriverSession_start.
  rewrite bind_run, resetPluginClient_run. cbv zeta. rewrite bind_run.
  destruct (strategy1 _ _ _ _) as [[e|[reply|]] s1]; try done.
  rewrite bind_run.
  destruct (strategy2 _ _ _ _) as [[e|[reply|]] s2]; try done.
  rewrite bind_run.
  destruct (strategy3 _ _ _) as [[e|[reply|]] s3]; try done.
  by destruct (_ || _).
Qed.

Lemma explicit_true h (port : option Z) :
  is_Some port \/ is_Some (Config.truthy (Config.MCP_BRIDGE_PORT (env h))) ->
  bool_decide (is_Some port) || isPortExplicitlyConfigured h = true.
Proof.
  intros [Hp|He]; unfold isPortExplicitlyConfigured.
  - by rewrite bool_decide_eq_true_2.
  - rewrite (bool_decide_eq_true_2 _ He). apply orb_true_r.
Qed.

Lemma loopback_dec (cfgHost : string) :
  (cfgHost <> "localhost" /\ cfgHost <> "127.0.0.1") \/ (cfgHost = "localhost" \/ cfgHost = "127.0.0.1").
Proof.
  destruct (decide (cfgHost = "localhost")); [tauto|].
  destruct (decide (cfgHost = "127.0.0.1")); tauto.
Qed.

(** C3 (explicit port), as the code behaves.  On a process that has done
    nothing yet, with nothing listening on port 9223 of localhost or of
    10.0.0.5, [start] with host 10.0.0.5 and port 9223 does not return the
    diagnostic: the connection to localhost:9223, its first, is refused, the
    error event of that socket is thrown by [emit('error')], and the call
    does not return at all.  The configured host is not tried. *)
Theorem refused_connection_ends_start :
  let r := manageDriverSession (host_on []) start (Some "10.0.0.5") (Some 9223%Z) idle in
  fst r = inl (Async.Uncaught "Error: connect ECONNREFUSED") /\
  fst r <> inr (failed_explicit "10.0.0.5" 9223) /\
  attempts_of idle (snd r) = [AppDiscovery.IoConnect "localhost" 9223] /\
  currentSession (snd r) = None.
Proof.
  vm_compute. split; [reflexivity|]. split; [discriminate|]. split; reflexivity.
Qed.

Lemma grows_ret {A} (a : A) : grows (mret a).
Proof. intros s. exists []. unfold extends. cbn. by rewrite app_nil_r. Qed.

Lemma grows_modify f : (forall s, io (f s) = io s) -> grows (modify f).
Proof. intros Hf s. exists []. unfold extends. cbn. by rewrite Hf, app_nil_r. Qed.

Lemma grows_bind {A B} (m : M A) (f : A -> M B) :
  grows m -> (forall a, grows (f a)) -> grows (m ≫= f).
Proof.
  intros Hm Hf s. rewrite bind_run. destruct (Hm s) as [e1 H1].
  destruct (m s) as [[e|a] s1]; cbn [snd] in *; [eauto|].
  destruct (Hf a s1) as [e2 H2]. exists (e1 ++ e2). by eapply extends_trans.
Qed.

Lemma grows_try_catch {A} (m k : M A) : grows m -> grows k -> grows (try_catch m k).
Proof.
  intros Hm Hk s. unfold try_catch. destruct (Hm s) as [e1 H1].
  destruct (m s) as [[[e|e|]|a] s1]; cbn [snd] in *; [|eauto..].
  destruct (Hk s1) as [e2 H2]. exists (e1 ++ e2). by eapply extends_trans.
Qed.

Lemma grows_attempt (m : M string) : grows m -> grows (attempt m).
Proof.
  intros Hm. unfold attempt. apply grows_try_catch; [|apply grows_ret].
  apply grows_bind; [done|]. intros a. apply grows_ret.
Qed.

Lemma grows_resetPluginClient : grows resetPluginClient.
Proof. by apply grows_modify. Qed.

Lemma grows_tryConnect h host port : grows (tryConnect h host port).
Proof.
  intros s. destruct (tryConnect_spec h host port s) as (_ & _ & _ & _ & E).
  destruct E as [(_ & E & _)|(_ & E & _)]; [exists []|eauto].
  unfold extends. by rewrite app_nil_r.
Qed.

Lemma grows_getAppDiscovery h host : grows (getAppDiscovery h host).
Proof.
  intros s. exists []. unfold extends, getAppDiscovery.
  destruct (appDiscovery s); [case_bool_decide|]; cbn; by rewrite app_nil_r.
Qed.

Lemma grows_getFirstAvailableApp h d : grows (getFirstAvailableApp h d).
Proof.
  intros s. unfold getFirstAvailableApp, AppDiscovery.getFirstAvailableApp.
  assert (H : forall offsets apps io0,
             exists evs, snd (AppDiscovery.scan (net h) d offsets apps io0) = io0 ++ evs).
  { induction offsets as [|k offsets IH]; intros apps io0; cbn [AppDiscovery.scan].
    - exists []. cbn. by rewrite app_nil_r.
    - unfold AppDiscovery._isPortInUse.
      destruct (fst (AppDiscovery.probe _ _)) as [abort|inUse]; cbn [snd]; [eauto|].
      match goal with
      | |- context [AppDiscovery.scan _ _ _ ?a ?i] =>
          destruct (IH a i) as [evs ->]; rewrite <- app_assoc; eauto
      end. }
  unfold AppDiscovery.discoverApps.
  destruct (H (seq 0 (AppDiscovery._maxPorts d)) [] (io s)) as [evs Hevs].
  destruct (AppDiscovery.scan _ _ _ _ _) as [[abort|apps] io']; cbn in *; subst io';
    by exists evs.
Qed.

Lemma grows_connect_reply h host port (fmt : Session -> string) :
  grows (session ← tryConnect h host port;
         modify (set_currentSession (Some session));;
         mret (fmt session)).
Proof.
  apply grows_bind; [apply grows_tryConnect|]. intros session.
  apply grows_bind; [by apply grows_modify|]. intros _. apply grows_ret.
Qed.

Lemma grows_strategy2 h cfgHost cfgPort : grows (strategy2 h cfgHost cfgPort).
Proof. apply grows_attempt, grows_connect_reply. Qed.

Lemma grows_strategy3 h explicit : grows (strategy3 h explicit).
Proof.
  unfold strategy3. destruct (negb explicit); [|apply grows_ret].
  apply grows_bind; [apply grows_getAppDiscovery|]. intros d.
  apply grows_bind; [apply grows_getFirstAvailableApp|]. intros [app|]; [|apply grows_ret].
  apply grows_attempt. apply grows_bind; [apply grows_resetPluginClient|].
  intros _. apply grows_connect_reply.
Qed.

Lemma grows_strategy4 h cfgHost cfgPort : grows (strategy4 h cfgHost cfgPort).
Proof.
  unfold strategy4. apply grows_try_catch.
  - apply grows_bind; [apply grows_resetPluginClient|]. intros _. apply grows_connect_reply.
  - apply grows_bind; [by apply grows_modify|]. intros _. apply grows_ret.
Qed.

(** What follows strategy 1 in [start]. *)
Lemma after_strategy1_grows h cfgHost cfgPort explicit s1 :
  exists evs,
    extends s1
      (snd (match strategy2 h cfgHost cfgPort s1 with
            | (inl e, s2) => (inl e, s2)
            | (inr (Some reply), s2) => (inr reply, s2)
            | (inr None, s2) =>
                match strategy3 h explicit s2 with
                | (inl e, s3) => (inl e, s3)
                | (inr (Some reply), s3) => (inr reply, s3)
                | (inr None, s3) =>
                    if explicit
                    then (inr (failed_explicit cfgHost cfgPort),
                          set_currentSession None s3)
                    else strategy4 h cfgHost cfgPort s3
                end
            end)) evs.
Proof.
  destruct (grows_strategy2 h cfgHost cfgPort s1) as [e2 H2].
  destruct (strategy2 h cfgHost cfgPort s1) as [[e|[reply|]] s2]; cbn [snd] in *; eauto.
  destruct (grows_strategy3 h explicit s2) as [e3 H3].
  destruct (strategy3 h explicit s2) as [[e|[reply|]] s3]; cbn [snd] in *;
    try (exists (e2 ++ e3); by eapply extends_trans).
  destruct explicit.
  - exists (e2 ++ e3). by eapply extends_trans.
  - destruct (grows_strategy4 h cfgHost cfgPort s3) as [e4 H4].
    exists ((e2 ++ e3) ++ e4). eapply extends_trans; [|done]. by eapply extends_trans.
Qed.

(** C4 (loopback first).  When the configured host is neither "localhost"
    nor "127.0.0.1": any connection to the configured host comes after a
    connection to localhost on the configured port; unless a localhost session
    is already tracked, that connection is the first thing [start] attempts,
    and if it opens, the session is attached with host "localhost" and nothing
    else is attempted, no discovery either.  If a localhost session is already
    tracked, it is reused and nothing is attempted. *)
Theorem loopback_is_tried_first :
  forall (h : Host) (host : option string) (port : option Z) (s : State),
    let configuredHost := default (Config.getDefaultHost (env h)) host in
    let configuredPort := default (Config.getDefaultPort (parseInt h) (env h)) port in
    let r := manageDriverSession h start host port s in
    let tried := attempts_of s (snd r) in
    let loopback := AppDiscovery.IoConnect "localhost" configuredPort in
    let attached := {| name := AppDiscovery.default_name "localhost" configuredPort;
                       host := "localhost"; port := configuredPort |} in
    configuredHost <> "localhost" -> configuredHost <> "127.0.0.1" ->
    (forall pre p post,
       tried = pre ++ AppDiscovery.IoConnect configuredHost p :: post -> loopback ∈ pre) /\
    (cached "localhost" configuredPort s = false -> exists rest, tried = loopback :: rest) /\
    (cached "localhost" configuredPort s = false ->
     AppDiscovery.connect_outcome (net h) (io s) "localhost" configuredPort
     = AppDiscovery.Opens ->
     fst r = inr (started_on_localhost attached) /\
     currentSession (snd r) = Some attached /\
     tried = [loopback]) /\
    (cached "localhost" configuredPort s = true ->
     tried = [] /\
     exists session, fst r = inr (started_on_localhost session) /\
                     currentSession (snd r) = Some session).
Proof.
  intros h host port s cfgHost cfgPort r tried loopback attached Hn1 Hn2.
  subst r tried. rewrite start_run. cbv zeta. fold cfgHost cfgPort.
  set (explicit := bool_decide (is_Some port) || isPortExplicitlyConfigured h).
  set (s0 := set_pluginClient None s).
  assert (Hio0 : extends s s0 []) by (unfold extends; cbn; by rewrite app_nil_r).
  assert (Hc0 : forall a b, cached a b s0 = cached a b s) by done.
  destruct (strategy1_spec h cfgHost cfgPort s0 Hn1 Hn2) as (_ & _ & S1).
  destruct (after_strategy1_grows h cfgHost cfgPort explicit
              (snd (strategy1 h cfgHost cfgPort s0))) as [rest Hrest].
  destruct (strategy1 h cfgHost cfgPort s0) as [[e|[reply|]] s1]; cbn [fst snd] in *.
  - destruct S1 as [(_ & _ & ? & [=] & _)|(Hc & E1 & S1)]. rewrite Hc0 in Hc.
    rewrite (attempts_of_extends s s1 _ (extends_trans _ _ _ _ _ Hio0 E1)). cbn.
    split; [|split; [|split]].
    + intros [|ev pre] p post Heq; cbn in Heq.
      * congruence.
      * injection Heq as <- _. by left.
    + eauto.
    + intros _ Ho. exfalso. change (io s0) with (io s) in S1. rewrite Ho in S1.
      destruct S1; discriminate.
    + congruence.
  - destruct S1 as [(Hc & E1 & session & [= ->] & Hcur)|(Hc & E1 & S1)]; rewrite Hc0 in Hc.
    + rewrite (attempts_of_extends s s1 _ (extends_trans _ _ _ _ _ Hio0 E1)). cbn.
      split; [|split; [|split]].
      * intros pre p post Heq. by destruct pre.
      * congruence.
      * congruence.
      * intros _. eauto.
    + rewrite (attempts_of_extends s s1 _ (extends_trans _ _ _ _ _ Hio0 E1)). cbn.
      split; [|split; [|split]].
      * intros [|ev pre] p post Heq; cbn in Heq.
        -- congruence.
        -- injection Heq as <- _. by left.
      * eauto.
      * intros _ Ho. change (io s0) with (io s) in S1. rewrite Ho in S1.
        destruct S1 as [[= ->] ->]. done.
      * congruence.
  - destruct S1 as [(_ & _ & ? & [=] & _)|(Hc & E1 & S1)]. rewrite Hc0 in Hc.
    pose proof (extends_trans _ _ _ _ _ (extends_trans _ _ _ _ _ Hio0 E1) Hrest) as Hall.
    rewrite (attempts_of_extends s _ _ Hall). cbn.
    split; [|split; [|split]].
    + intros [|ev pre] p post Heq; cbn in Heq.
      * congruence.
      * injection Heq as <- _. by left.
    + eauto.
    + intros _ Ho. exfalso. change (io s0) with (io s) in S1. rewrite Ho in S1.
      destruct S1; discriminate.
    + congruence.
Qed.

Lemma status_replies_differ cur : status_connected cur <> status_disconnected.
Proof. unfold status_connected, status_disconnected. cbn. discriminate. Qed.

Lemma new_client_not_connected host port :
  PluginClient.isConnected (PluginClient.new host port) = false.
Proof. reflexivity. Qed.

(** C9, amended (status).  [status] replies with the connected shape exactly
    when the singleton client has an open socket and a current session exists,
    and with the not-connected shape otherwise.  It attempts no connection and
    leaves the discovery instance, the current session and the executor flag
    as they are.  When the singleton client exists the whole state is
    unchanged; when it does not, [status] creates an unconnected client for the
    default endpoint and stores it. *)
Theorem status_reads_without_connecting :
  forall (h : Host) (host : option string) (port : option Z) (s : State),
    let r := manageDriverSession h status host port s in
    let client :=
      default (PluginClient.new (Config.getDefaultHost (env h))
                 (Config.getDefaultPort (parseInt h) (env h)))
              (pluginClient s) in
    fst r = inr (match currentSession s with
                 | Some current =>
                     if PluginClient.isConnected client
                     then status_connected current
                     else status_disconnected
                 | None => status_disconnected
                 end) /\
    ((exists current, fst r = inr (status_connected current)) <->
     PluginClient.isConnected client = true /\ is_Some (currentSession s)) /\
    appDiscovery (snd r) = appDiscovery s /\
    currentSession (snd r) = currentSession s /\
    executorInitialized (snd r) = executorInitialized s /\
    io (snd r) = io s /\
    pluginClient (snd r) = Some client /\
    (is_Some (pluginClient s) -> snd r = s).
Proof.
  intros h host port s r client.
  assert (Hr : r = (inr (match currentSession s with
                         | Some current =>
                             if PluginClient.isConnected client
                             then status_connected current
                             else status_disconnected
                         | None => status_disconnected
                         end), set_pluginClient (Some client) s)).
  { subst r client. unfold manageDriverSession, manageDriverSession_status.
    rewrite bind_run. unfold getPluginClient, PluginClient.getPluginClient.
    destruct s as [ad [cur|] [c|] ei io0]; cbn; try reflexivity;
      destruct (PluginClient.isConnected c); reflexivity. }
  rewrite Hr. cbn [fst snd]. split; [done|]. split; [|repeat split].
  - split.
    + intros [current Heq]. destruct (currentSession s) as [cur|].
      * destruct (PluginClient.isConnected client); [eauto|].
        exfalso. apply (status_replies_differ current). congruence.
      * exfalso. apply (status_replies_differ current). congruence.
    + intros [-> [cur ->]]. eauto.
  - intros [c Hc]. subst client. rewrite Hc. cbn. destruct s. cbn in *. by subst.
Qed.

Lemma loopback_is_tried_first_witness :
  let r := manageDriverSession (host_on [("localhost", 9223%Z)]) start
             (Some "10.0.0.5") None idle in
  fst r = inr "Session started with app: Tauri App (localhost:9223) (localhost:9223)" /\
  currentSession (snd r)
  = Some {| name := "Tauri App (localhost:9223)"; host := "localhost"; port := 9223 |} /\
  attempts_of idle (snd r) = [AppDiscovery.IoConnect "localhost" 9223].
Proof.
  refine (proj1 (proj2 (proj2
    (loopback_is_tried_first (host_on [("localhost", 9223%Z)]) (Some "10.0.0.5") None
       idle _ _))) eq_refl eq_refl); discriminate.
Defined.

(** On a fresh process [status] does change the state: it creates the
    singleton client, for the default endpoint.  A later
    [getPluginClient("10.0.0.5", 9300)] then gets that client, where without
    the [status] call it would have got one for 10.0.0.5:9300. *)
Lemma status_creates_the_client :
  pluginClient idle = None /\
  pluginClient (snd (manageDriverSession (host_on []) status None None idle))
  = Some (PluginClient.new "localhost" 9223) /\
  snd (manageDriverSession (host_on []) status None None idle) <> idle /\
  PluginClient._host
    (fst (PluginClient.getPluginClient parse_digits no_env (Some "10.0.0.5") (Some 9300%Z)
            (pluginClient idle))) = "10.0.0.5" /\
  PluginClient._host
    (fst (PluginClient.getPluginClient parse_digits no_env (Some "10.0.0.5") (Some 9300%Z)
            (pluginClient
               (snd (manageDriverSession (host_on []) status None None idle)))))
  = "localhost".
Proof.
  split; [reflexivity|]. split; [reflexivity|]. split; [|split; reflexivity].
  intros H. apply (f_equal pluginClient) in H. discriminate H.
Qed.

End SessionProofs.

(** * Identifiers are unambiguous *)

Module TextProofs.
Import Invariants.

Ltac is_numeric := unfold numeric; cbn; repeat first [by left | right].

Ltac not_numeric :=
  let H := fresh in
  unfold numeric; cbn; intros H;
  repeat (apply elem_of_cons in H as [H|H]; [discriminate H|]);
  by apply elem_of_nil in H.

Lemma pretty_N_char_numeric x : numeric (pretty_N_char x).
Proof. unfold pretty_N_char. repeat case_match; is_numeric. Qed.

Lemma pretty_N_go_numeric x : forall s,
  Forall numeric (list_ascii_of_string s) ->
  Forall numeric (list_ascii_of_string (pretty_N_go x s)).
Proof.
  induction (N.lt_wf_0 x) as [x _ IH]. intros s Hs.
  assert (x = 0 \/ 0 < x)%N as [->|Hx] by lia.
  - by rewrite pretty_N_go_0.
  - rewrite pretty_N_go_step by done. apply IH.
    + by apply N.div_lt.
    + cbn. constructor; [apply pretty_N_char_numeric|done].
Qed.

Lemma pretty_N_numeric (x : N) : Forall numeric (list_ascii_of_string (pretty x)).
Proof.
  unfold pretty, pretty_N. case_decide.
  - cbn. constructor; [is_numeric|constructor].
  - apply pretty_N_go_numeric. constructor.
Qed.

Lemma pretty_Z_numeric (z : Z) : Forall numeric (list_ascii_of_string (pretty z)).
Proof.
  destruct z as [|p|p]; unfold pretty, pretty_Z.
  - cbn. constructor; [is_numeric|constructor].
  - apply (pretty_N_numeric (N.pos p)).
  - cbn. constructor; [is_numeric|].
    apply (pretty_N_numeric (N.pos p)).
Qed.

Lemma not_numeric_absent (sep : ascii) (z : Z) :
  ~ numeric sep -> sep ∉ list_ascii_of_string (pretty z).
Proof.
  intros Hsep Hin. pose proof (pretty_Z_numeric z) as H.
  rewrite Forall_forall in H. by apply Hsep, H.
Qed.

Lemma append_chars a b :
  list_ascii_of_string (a +:+ b) = list_ascii_of_string a ++ list_ascii_of_string b.
Proof. induction a as [|c a IH]; [done|]. simpl. f_equal. exact IH. Qed.

(** A separator that does not occur after it splits a string in one way. *)
Lemma split_at_last (sep : ascii) : forall a1 a2 b1 b2 : string,
  sep ∉ list_ascii_of_string b1 -> sep ∉ list_ascii_of_string b2 ->
  a1 +:+ String sep b1 = a2 +:+ String sep b2 -> a1 = a2 /\ b1 = b2.
Proof.
  induction a1 as [|c a1 IH]; intros [|c' a2] b1 b2 H1 H2 Heq; cbn in Heq.
  - by injection Heq as ->.
  - injection Heq as <- ->. exfalso. apply H1. rewrite append_chars. cbn.
    apply elem_of_app. right. by left.
  - injection Heq as -> <-. exfalso. apply H2. rewrite append_chars. cbn.
    apply elem_of_app. right. by left.
  - injection Heq as <- Heq. destruct (IH _ _ _ H1 H2 Heq) as [-> ->]. done.
Qed.

(** A separator that does not occur before it splits a string in one way. *)
Lemma split_at_first (sep : ascii) : forall a1 a2 b1 b2 : string,
  sep ∉ list_ascii_of_string a1 -> sep ∉ list_ascii_of_string a2 ->
  a1 +:+ String sep b1 = a2 +:+ String sep b2 -> a1 = a2 /\ b1 = b2.
Proof.
  induction a1 as [|c a1 IH]; intros [|c' a2] b1 b2 H1 H2 Heq; cbn in Heq.
  - by injection Heq as ->.
  - injection Heq as <- _. exfalso. apply H2. by left.
  - injection Heq as -> _. exfalso. apply H1. by left.
  - injection Heq as <- Heq. cbn in H1, H2.
    apply not_elem_of_cons in H1 as [_ H1]. apply not_elem_of_cons in H2 as [_ H2].
    destruct (IH _ _ _ H1 H2 Heq) as [-> ->]. done.
Qed.

Lemma session_id_inj host1 host2 port1 port2 :
  AppDiscovery.session_id host1 port1 = AppDiscovery.session_id host2 port2 ->
  host1 = host2 /\ port1 = port2.
Proof.
  revert host1 host2 port1 port2. intros h1 h2 p1 p2 Heq. unfold AppDiscovery.session_id in Heq.
  apply (split_at_last "_"%char) in Heq as [-> Hp].
  - split; [done|]. by apply (inj pretty).
  - apply not_numeric_absent. not_numeric.
  - apply not_numeric_absent. not_numeric.
Qed.

(** X1 (session ids).  The registry key [host_port] of an endpoint
    determines the endpoint: two endpoints with the same key have the same
    host and the same port, also when the host itself contains underscores. *)
Theorem session_id_injective :
  forall (host1 host2 : string) (port1 port2 : Z),
    AppDiscovery.session_id host1 port1 = AppDiscovery.session_id host2 port2 ->
    host1 = host2 /\ port1 = port2.
Proof. intros host1 host2 port1 port2. apply session_id_inj. Qed.

(** X2 (socket URLs).  [buildWebSocketURL] maps different endpoints to
    different URLs: the URL determines host and port. *)
Theorem buildWebSocketURL_injective :
  forall (host1 host2 : string) (port1 port2 : Z),
    Config.buildWebSocketURL host1 port1 = Config.buildWebSocketURL host2 port2 ->
    host1 = host2 /\ port1 = port2.
Proof.
  intros h1 h2 p1 p2 Heq. unfold Config.buildWebSocketURL in Heq.
  cbn in Heq. injection Heq as Heq.
  apply (split_at_last ":"%char) in Heq as [-> Hp].
  - split; [done|]. by apply (inj pretty).
  - apply not_numeric_absent. not_numeric.
  - apply not_numeric_absent. not_numeric.
Qed.

(** X3 (request ids).  The id that [sendCommand] generates determines
    the clock reading and the random suffix it was built from: two calls get
    the same id only when both agree. *)
Theorem request_id_injective :
  forall (now1 now2 : Z) (rnd1 rnd2 : string),
    PluginClient.request_id now1 rnd1 = PluginClient.request_id now2 rnd2 ->
    now1 = now2 /\ rnd1 = rnd2.
Proof.
  intros n1 n2 r1 r2 Heq. unfold PluginClient.request_id in Heq.
  cbn in Heq. injection Heq as Heq.
  apply (split_at_first "_"%char) in Heq as [Hn ->].
  - split; [|done]. by apply (inj pretty).
  - apply not_numeric_absent. not_numeric.
  - apply not_numeric_absent. not_numeric.
Qed.

Lemma session_id_injective_witness :
  AppDiscovery.session_id "my_host" 9223 = "my_host_9223" /\
  ("my_host" = "my_host" /\ 9223%Z = 9223%Z).
Proof.
  split; [reflexivity|].
  apply (session_id_injective "my_host" "my_host" 9223 9223). reflexivity.
Defined.

Lemma buildWebSocketURL_injective_witness :
  Config.buildWebSocketURL "10.0.0.5" 9300 = "ws://10.0.0.5:9300" /\
  ("10.0.0.5" = "10.0.0.5" /\ 9300%Z = 9300%Z).
Proof.
  split; [reflexivity|].
  apply (buildWebSocketURL_injective "10.0.0.5" "10.0.0.5" 9300 9300). reflexivity.
Defined.

Lemma request_id_injective_witness :
  PluginClient.request_id 1764892800000 "k3j2h1g0f" = "req_1764892800000_k3j2h1g0f" /\
  (1764892800000%Z = 1764892800000%Z /\ "k3j2h1g0f" = "k3j2h1g0f").
Proof.
  split; [reflexivity|].
  apply (request_id_injective 1764892800000 1764892800000 "k3j2h1g0f" "k3j2h1g0f").
  reflexivity.
Defined.

End TextProofs.

(** * Further properties of the dispatcher *)

Module RequestProofs.
Import PluginClient Scenarios Invariants Examples ClientProofs.

(** ** The endpoint of a client *)

Lemma settle_endpoint p o c :
  _host (settle p o c) = _host c /\ _port (settle p o c) = _port c /\
  _url (settle p o c) = _url c.
Proof. unfold settle. by destruct (promises c !! p). Qed.

Lemma connect_endpoint c :
  _host (fst (connect c)) = _host c /\ _port (fst (connect c)) = _port c /\
  _url (fst (connect c)) = _url c /\
  forall k url, NewWebSocket k url ∈ snd (connect c) -> url = _url c.
Proof.
  unfold connect. destruct (isConnected c); cbn; repeat split; try done.
  - intros k url Hin. apply list_elem_of_singleton in Hin. discriminate Hin.
  - intros k url Hin. apply list_elem_of_singleton in Hin. by injection Hin as _ ->.
Qed.

Ltac no_new_socket :=
  let k := fresh in let url := fresh in let Hin := fresh in
  intros k url Hin;
  repeat (apply elem_of_cons in Hin as [Hin|Hin]; [discriminate Hin|]);
  by apply elem_of_nil in Hin.

Ltac settled_field :=
  first [ done
        | etrans; [apply (proj1 (settle_endpoint _ _ _))|done]
        | etrans; [apply (proj1 (proj2 (settle_endpoint _ _ _)))|done]
        | etrans; [apply (proj2 (proj2 (settle_endpoint _ _ _)))|done] ].

Ltac no_socket_by H := cbn [fst snd]; apply H; [no_new_socket | settled_field ..].

Lemma step_endpoint e c :
  _host (fst (step e c)) = _host c /\ _port (fst (step e c)) = _port c /\
  _url (fst (step e c)) = _url c /\
  forall k url, NewWebSocket k url ∈ snd (step e c) -> url = _url c.
Proof.
  assert (Hno : forall (out : list Action) (s : t),
            (forall k url, NewWebSocket k url ∉ out) ->
            _host s = _host c -> _port s = _port c -> _url s = _url c ->
            _host s = _host c /\ _port s = _port c /\ _url s = _url c /\
            forall k url, NewWebSocket k url ∈ out -> url = _url c).
  { intros out s Hout H1 H2 H3. repeat split; try done.
    intros k url Hin. by apply Hout in Hin. }
  destruct e; cbn [step].
  - apply connect_endpoint.
  - unfold disconnect. destruct (_ws c) as [k|]; [|no_socket_by Hno].
    unfold ws_close. destruct (sockets _ !! k) as [[]|]; no_socket_by Hno.
  - unfold sendCommand.
    destruct (_ws _) as [k|]; [case_bool_decide|]; cbn -[settle]; no_socket_by Hno.
  - destruct (sockets c !! k); no_socket_by Hno.
  - destruct (sockets c !! k); [|no_socket_by Hno]. destruct d as [|m]; [no_socket_by Hno|].
    destruct (on_message_cases m c) as [(id' & pr & E & Hl)| ->]; [|no_socket_by Hno].
    unfold on_message. rewrite E, Hl. cbn -[settle]. no_socket_by Hno.
  - destruct (sockets c !! k); no_socket_by Hno.
  - destruct (sockets c !! k); [|no_socket_by Hno]. unfold on_close. cbn.
    destruct (_ <? _)%Z; cbn; no_socket_by Hno.
  - destruct (timers c !! h) as [[d [q id ms|]]|]; [| |no_socket_by Hno].
    + cbn [task]. unfold on_request_timeout. no_socket_by Hno.
    + cbn [task]. unfold on_reconnect_timer.
      apply (connect_endpoint (clearTimeout h c)).
  - destruct (sends c !! p) as [[id h]|]; [|no_socket_by Hno].
    destruct err as [e|]; [|no_socket_by Hno]. unfold on_send_done. no_socket_by Hno.
Qed.

Lemma run_endpoint es : forall c,
  _host (fst (run es c)) = _host c /\ _port (fst (run es c)) = _port c /\
  _url (fst (run es c)) = _url c /\
  forall k url, NewWebSocket k url ∈ snd (run es c) -> url = _url c.
Proof.
  induction es as [|e es IH]; intros c.
  - cbn. repeat split. intros k url Hin. by apply elem_of_nil in Hin.
  - rewrite run_cons_fst, run_cons_snd.
    destruct (step_endpoint e c) as (A & B & C & D).
    destruct (IH (fst (step e c))) as (A' & B' & C' & D').
    repeat split; try congruence.
    intros k url [Hin|Hin]%elem_of_app; [by apply (D k)|].
    rewrite <- C. by apply (D' k).
Qed.

(** X4 (endpoint).  Whatever happens to a client, its host, port and URL
    stay those it was constructed with, and every socket it ever creates,
    on [connect] or on a reconnection, is opened on that URL. *)
Theorem client_keeps_its_endpoint :
  forall (host : string) (port : Z) (es : list Event),
    _host (fst (run es (new host port))) = host /\
    _port (fst (run es (new host port))) = port /\
    _url (fst (run es (new host port))) = Config.buildWebSocketURL host port /\
    forall k url,
      NewWebSocket k url ∈ snd (run es (new host port)) ->
      url = Config.buildWebSocketURL host port.
Proof. intros host port es. apply (run_endpoint es (new host port)). Qed.

(** ** Invariants of reachable states *)

(** X5 (retry counter).  After any sequence of events the limit of a
    client is still 5 and its reconnection counter lies between 0 and 5. *)
Theorem retry_counter_stays_in_range :
  forall (host : string) (port : Z) (es : list Event),
    _maxReconnectAttempts (fst (run es (new host port))) = 5%Z /\
    (0 <= _reconnectAttempts (fst (run es (new host port))) <= 5)%Z.
Proof. intros host port es. apply run_counters_ok, new_counters_ok. Qed.

(** X6 (pending map).  After any sequence of events on a new client,
    every entry of the pending map belongs to a promise that is not settled
    yet and to a timer that is still armed and is the time-out of that very
    request. *)
Theorem pending_requests_are_in_flight :
  forall (host : string) (port : Z) (es : list Event) (id : string) (pr : PendingRequest),
    _pendingRequests (fst (run es (new host port))) !! id = Some pr ->
    promises (fst (run es (new host port))) !! promise pr = None /\
    exists d ms,
      timers (fst (run es (new host port))) !! timeout pr
      = Some {| delay := d; task := RequestTimeout (promise pr) id ms |}.
Proof.
  intros host port es id pr Hl.
  pose proof (run_wf es _ (new_wf host port)) as Hwf.
  destruct (wf_pending _ Hwf _ _ Hl) as (d & ms & Hd).
  split; [|eauto]. by destruct (wf_unsettled _ Hwf _ _ _ _ _ Hd).
Qed.

(** ** Commands on a client that is not connected *)

Lemma sendCommand_rejected c cmd timeoutMs now rnd :
  wf c -> isConnected c = false ->
  exists c',
    sendCommand cmd timeoutMs now rnd c
    = (next_promise c, c', [Reject (next_promise c) "Not connected to plugin"]) /\
    promises c' !! next_promise c = Some (Rejected "Not connected to plugin") /\
    _pendingRequests c' = _pendingRequests c /\
    timers c' = timers c /\
    sends c' = sends c.
Proof.
  intros Hwf Hc. set (p := next_promise c).
  assert (Hfresh : promises c !! p = None).
  { destruct (promises c !! p) eqn:E; [|done]. apply (wf_promises c Hwf) in E.
    unfold p in E. lia. }
  exists (settle p (Rejected "Not connected to plugin")
            (set_promises (promises c) (S p) c)).
  split.
  - unfold sendCommand, isConnected in *. cbn -[settle].
    destruct (_ws c) as [k|]; [|done]. by rewrite Hc.
  - rewrite settle_lookup, settle_pending, settle_timers. cbn.
    rewrite Hfresh, decide_True by done. repeat split.
    by destruct (settle_fields p (Rejected "Not connected to plugin")
                   (set_promises (promises c) (S p) c)) as (_ & _ & _ & _ & _ & _ & -> & _).
Qed.

(** X8 (not connected).  On a client without an open socket
    [sendCommand] rejects with "Not connected to plugin" at once: nothing is
    sent, no timer is armed and the pending map is as before. *)
Theorem sendCommand_needs_an_open_socket :
  forall (c : t) (cmd : PluginCommand) (timeoutMs : option Z) (now : Z) (rnd : string),
    wf c -> isConnected c = false ->
    exists c',
      sendCommand cmd timeoutMs now rnd c
      = (next_promise c, c', [Reject (next_promise c) "Not connected to plugin"]) /\
      promises c' !! next_promise c = Some (Rejected "Not connected to plugin") /\
      _pendingRequests c' = _pendingRequests c /\
      timers c' = timers c /\
      sends c' = sends c.
Proof. intros c cmd timeoutMs now rnd. apply sendCommand_rejected. Qed.

Lemma disconnect_not_connected c : isConnected (fst (disconnect c)) = false.
Proof.
  unfold disconnect. destruct (_ws c) as [k|] eqn:E; [reflexivity|].
  unfold isConnected. cbn [fst]. by rewrite E.
Qed.

Lemma close_not_connected c k :
  is_Some (sockets c !! k) -> isConnected (fst (step (WsClose k) c)) = false.
Proof.
  intros [r Hk]. cbn [step]. rewrite Hk. unfold on_close. cbn.
  by destruct (_ <? _)%Z.
Qed.

(** X9 (after the socket is gone).  After [disconnect()], and after
    a close event of a socket, the next [sendCommand] is rejected with
    "Not connected to plugin" and sends nothing. *)
Theorem commands_fail_after_the_socket_is_gone :
  forall (c : t) (k : nat) (cmd : PluginCommand) (timeoutMs : option Z)
         (now : Z) (rnd : string),
    wf c -> is_Some (sockets c !! k) ->
    (let c1 := fst (step CallDisconnect c) in
     snd (step (CallSendCommand cmd timeoutMs now rnd) c1)
     = [Reject (next_promise c1) "Not connected to plugin"]) /\
    (let c1 := fst (step (WsClose k) c) in
     snd (step (CallSendCommand cmd timeoutMs now rnd) c1)
     = [Reject (next_promise c1) "Not connected to plugin"]).
Proof.
  intros c k cmd timeoutMs now rnd Hwf Hk. split; intros c1.
  - destruct (sendCommand_rejected c1 cmd timeoutMs now rnd) as (c' & E & _).
    + by apply step_wf.
    + apply disconnect_not_connected.
    + cbn [step]. by rewrite E.
  - destruct (sendCommand_rejected c1 cmd timeoutMs now rnd) as (c' & E & _).
    + by apply step_wf.
    + by apply close_not_connected.
    + cbn [step]. by rewrite E.
Qed.

(** ** The three ways a request ends *)

Lemma step_timer_gone h c : timers c !! h = None -> step (TimerFire h) c = (c, []).
Proof. intros H. cbn [step]. by rewrite H. Qed.

(** X10 (response).  A response whose id is that of a pending request
    clears the timer of the request, resolves its promise with the response
    and removes the entry; the timer firing afterwards does nothing, and the
    same frame arriving again is only emitted as an event. *)
Theorem response_ends_the_request :
  forall (c : t) (k : nat) (m : PluginResponse) (id : string) (pr : PendingRequest),
    wf c -> is_Some (sockets c !! k) ->
    msg_id m = Some id -> id <> EmptyString ->
    _pendingRequests c !! id = Some pr ->
    let c1 := fst (step (WsMessage k (Parsed m)) c) in
    snd (step (WsMessage k (Parsed m)) c)
    = [ClearTimeout (timeout pr); Resolve (promise pr) m] /\
    promises c1 !! promise pr = Some (Resolved m) /\
    _pendingRequests c1 !! id = None /\
    step (TimerFire (timeout pr)) c1 = (c1, []) /\
    step (WsMessage k (Parsed m)) c1 = (c1, [EmitEvent m]).
Proof.
  intros c k m id pr Hwf Hk Hid Hne Hl c1.
  assert (E : Config.truthy (msg_id m) = Some id) by (rewrite Hid; by destruct id).
  assert (Hq : _pendingRequests c1 !! id = None).
  { subst c1. rewrite step_message. destruct Hk as [r ->].
    rewrite (on_message_hit m id pr c E Hl), settle_pending. cbn.
    apply lookup_delete_eq. }
  split; [|split; [|split; [|split]]].
  - rewrite step_message. destruct Hk as [r ->]. unfold on_message. by rewrite E, Hl.
  - by eapply message_resolves.
  - exact Hq.
  - apply step_timer_gone. subst c1. rewrite step_message. destruct Hk as [r ->].
    rewrite (on_message_hit m id pr c E Hl), settle_timers. cbn.
    apply lookup_delete_eq.
  - rewrite step_message.
    assert (Hk1 : is_Some (sockets c1 !! k)) by (subst c1; by rewrite step_sockets_message).
    destruct Hk1 as [r ->]. apply on_message_miss. intros id' E'.
    rewrite E in E'. by injection E' as <-.
Qed.

(** X11 (late response).  Once the time-out of a request has fired, its
    promise is rejected with the time-out message; a response that arrives
    later does not settle anything and is emitted as an event, and the timer
    firing again does nothing. *)
Theorem late_response_is_broadcast :
  forall (c : t) (k h : nat) (d : Z) (p : nat) (id : string) (ms : Z) (m : PluginResponse),
    wf c -> is_Some (sockets c !! k) ->
    timers c !! h = Some {| delay := d; task := RequestTimeout p id ms |} ->
    msg_id m = Some id ->
    let c1 := fst (step (TimerFire h) c) in
    promises c1 !! p = Some (Rejected (timeout_message ms)) /\
    step (WsMessage k (Parsed m)) c1 = (c1, [EmitEvent m]) /\
    step (TimerFire h) c1 = (c1, []).
Proof.
  intros c k h d p id ms m Hwf [r Hk] Hh Hid c1.
  destruct (timer_fires c h d p id ms Hwf Hh) as (c' & E & Hp & Hq & Ht).
  subst c1. rewrite E. cbn [fst]. split; [done|]. split; [|by apply step_timer_gone].
  rewrite step_message.
  assert (Hs : sockets c' !! k = Some r).
  { assert (c' = fst (step (TimerFire h) c)) as -> by by rewrite E.
    cbn [step]. rewrite Hh. cbn [task]. unfold on_request_timeout. cbn [fst].
    by destruct (settle_fields p (Rejected (timeout_message ms))
                   (set_pendingRequests
                      (delete id (_pendingRequests (clearTimeout h c)))
                      (clearTimeout h c))) as (_ & _ & _ & _ & -> & _). }
  rewrite Hs. apply on_message_miss. intros id' E'.
  apply truthy_Some in E'. rewrite Hid in E'. by injection E' as <-.
Qed.

(** X12 (other frames).  Frames that do not parse, that carry no id or
    whose id matches no pending request leave the client exactly as it was;
    each parsed one is emitted as an event, each unparseable one is dropped. *)
Theorem unmatched_frames_change_nothing :
  forall (c : t) (k : nat) (frames : list Inbound),
    is_Some (sockets c !! k) ->
    (forall d, d ∈ frames -> unmatched c d) ->
    run (WsMessage k <$> frames) c = (c, concat (broadcast <$> frames)).
Proof.
  intros c k frames [r Hk] Hall. induction frames as [|d frames IH]; [done|].
  cbn [fmap list_fmap run concat].
  assert (Hd : step (WsMessage k d) c = (c, broadcast d)).
  { cbn [step]. rewrite Hk. destruct d as [|m]; [done|].
    apply on_message_miss. apply (Hall (Parsed m)). by left. }
  rewrite Hd. change (list_fmap _ _ (WsMessage k) frames) with (WsMessage k <$> frames).
  rewrite IH; [done|]. intros d' Hd'. apply Hall. by right.
Qed.


(** The completion callback of a request stays registered until [send]
    completes. *)
Lemma sends_survives p e c v :
  wf c -> (forall err, e <> SendDone p err) ->
  sends c !! p = Some v -> sends (fst (step e c)) !! p = Some v.
Proof.
  intros Hwf He Hs.
  assert (Hset : forall q o c', sends c' !! p = Some v -> sends (settle q o c') !! p = Some v).
  { intros q o c' H.
    by destruct (settle_fields q o c') as (_ & _ & _ & _ & _ & _ & -> & _). }
  destruct e; cbn [step].
  - unfold connect. by destruct (isConnected c).
  - unfold disconnect. destruct (_ws c) as [k|]; [|done].
    unfold ws_close. by destruct (sockets _ !! k) as [[]|].
  - unfold sendCommand.
    destruct (_ws _) as [k|]; [case_bool_decide|]; cbn -[settle];
      try (apply Hset; exact Hs).
    rewrite lookup_insert_ne; [done|].
    destruct v as [id h]. destruct (wf_sends c Hwf _ _ _ Hs) as (Hlt & _). lia.
  - by destruct (sockets c !! k).
  - destruct (sockets c !! k); [|done]. destruct d as [|m]; [done|].
    destruct (on_message_cases m c) as [(id' & pr & E & Hl)| ->]; [|done].
    rewrite (on_message_hit m id' pr c E Hl). by apply Hset.
  - by destruct (sockets c !! k).
  - destruct (sockets c !! k); [|done]. unfold on_close. cbn.
    by destruct (_ <? _)%Z.
  - destruct (timers c !! h) as [[d [q id ms|]]|]; [| |done].
    + cbn [task]. unfold on_request_timeout. cbn [fst]. by apply Hset.
    + cbn [task]. unfold on_reconnect_timer, connect. by destruct (isConnected _).
  - destruct (decide (p0 = p)) as [->|Hne]; [by destruct (He err)|].
    destruct (sends c !! p0) as [[id h]|]; [|done].
    destruct err as [e|]; cbn -[settle].
    + apply Hset. cbn. by rewrite lookup_delete_ne.
    + by rewrite lookup_delete_ne.
Qed.

Lemma sends_survives_run p es c v :
  wf c -> (forall e err, e ∈ es -> e <> SendDone p err) ->
  sends c !! p = Some v -> sends (fst (run es c)) !! p = Some v.
Proof.
  revert c. induction es as [|e es IH]; intros c Hwf Hes Hs; [done|].
  rewrite run_cons_fst. apply IH; [by apply step_wf| |].
  - intros e' err He'. apply Hes. by right.
  - apply sends_survives; [done| |done]. intros err. apply Hes. by left.
Qed.

(** X13 (failed send).  When the completion callback of [send] reports
    an error for a request that is still pending, the timer of the request
    is cleared, its promise is rejected with that error and the entry is
    removed; the timer firing afterwards does nothing. *)
Theorem failed_send_rejects_the_request :
  forall (c : t) (cmd : PluginCommand) (timeoutMs : option Z) (now : Z) (rnd : string)
         (es : list Event) (failure : string),
    wf c -> isConnected c = true ->
    let p := next_promise c in
    let h := next_timer c in
    let id := request_id now rnd in
    (forall e, e ∈ es -> ends_request p id h e = false) ->
    (forall e err, e ∈ es -> e <> SendDone p err) ->
    let awaiting := fst (run es (fst (step (CallSendCommand cmd timeoutMs now rnd) c))) in
    exists c',
      step (SendDone p (Some failure)) awaiting
      = (c', [ClearTimeout h; Reject p failure]) /\
      promises c' !! p = Some (Rejected failure) /\
      _pendingRequests c' !! id = None /\
      step (TimerFire h) c' = (c', []).
Proof.
  intros c cmd timeoutMs now rnd es failure Hwf Hc p h id Hes Hsend awaiting.
  set (ms := default 5000%Z timeoutMs).
  destruct (sendCommand_connected cmd timeoutMs now rnd c Hc)
    as (c1 & out & E & _ & Ht & _).
  assert (Ec1 : fst (step (CallSendCommand cmd timeoutMs now rnd) c) = c1)
    by (cbn [step]; by rewrite E).
  assert (Hwf1 : wf c1) by (rewrite <- Ec1; by apply step_wf).
  assert (Hs1 : sends c1 !! p = Some (id, h)).
  { assert (c1 = snd (fst (sendCommand cmd timeoutMs now rnd c))) as -> by by rewrite E.
    unfold sendCommand, isConnected in *. cbn.
    destruct (_ws c) as [k|]; [|discriminate]. rewrite Hc. cbn.
    apply lookup_insert_eq. }
  assert (Hh : timers awaiting !! h
               = Some {| delay := ms; task := RequestTimeout p id ms |}).
  { subst awaiting. rewrite Ec1. apply (timer_survives_run p id h); [done|done|done|].
    rewrite Ht. apply lookup_insert_eq. }
  assert (Hs : sends awaiting !! p = Some (id, h)).
  { subst awaiting. rewrite Ec1. by apply sends_survives_run. }
  assert (Hwf2 : wf awaiting) by (subst awaiting; rewrite Ec1; by apply run_wf).
  destruct (wf_unsettled _ Hwf2 _ _ _ _ _ Hh) as [Hp _].
  eexists. split; [cbn [step]; rewrite Hs; reflexivity|].
  unfold on_send_done. rewrite settle_lookup, settle_pending. cbn.
  rewrite Hp, decide_True by done. split; [done|]. split; [apply lookup_delete_eq|].
  apply step_timer_gone. rewrite settle_timers. cbn. apply lookup_delete_eq.
Qed.

(** X26 (disconnect).  On a client that holds a socket, [disconnect()]
    closes that socket and raises the reconnection counter to its maximum;
    whatever happens afterwards, short of a socket opening, no reconnection
    is scheduled any more. *)
Theorem disconnect_ends_reconnection :
  forall (host : string) (port : Z) (before after : list Event) (k : nat),
    let c := fst (run before (new host port)) in
    _ws c = Some k ->
    (forall e, e ∈ after -> is_open e = false) ->
    snd (step CallDisconnect c) = [WsCloseCall k] /\
    _reconnectAttempts (fst (step CallDisconnect c)) = 5%Z /\
    reconnect_delays (snd (run (CallDisconnect :: after) c)) = [].
Proof.
  intros host port before after k c Hws Hafter.
  assert (Hc : counters_ok c) by apply run_counters_ok, new_counters_ok.
  split; [|split].
  - cbn [step]. unfold disconnect. by rewrite Hws.
  - cbn [step]. unfold disconnect. rewrite Hws. destruct Hc as [Hm _].
    unfold ws_close. destruct (sockets _ !! k) as [[]|]; cbn; exact Hm.
  - rewrite run_cons_snd, reconnect_delays_app. cbn [step].
    rewrite (disconnect_stops_reconnect c k after Hc Hws Hafter).
    unfold disconnect. by rewrite Hws.
Qed.

Lemma pending_requests_are_in_flight_witness :
  let c := fst (run [CallConnect; WsOpen 0;
                     CallSendCommand get_window_info None 1764892800000 "k3j2h1g0f"]
                  (new "localhost" 9223)) in
  promises c !! 0 = None /\
  exists d ms,
    timers c !! 0
    = Some {| delay := d; task := RequestTimeout 0 "req_1764892800000_k3j2h1g0f" ms |}.
Proof.
  apply (pending_requests_are_in_flight "localhost" 9223
           [CallConnect; WsOpen 0;
            CallSendCommand get_window_info None 1764892800000 "k3j2h1g0f"]
           "req_1764892800000_k3j2h1g0f" {| promise := 0; timeout := 0 |}).
  vm_compute. reflexivity.
Defined.

Lemma sendCommand_needs_an_open_socket_witness :
  exists c',
    sendCommand get_window_info None 1764892800000 "k3j2h1g0f" (new "localhost" 9223)
    = (0, c', [Reject 0 "Not connected to plugin"]) /\
    promises c' !! 0 = Some (Rejected "Not connected to plugin") /\
    _pendingRequests c' = ∅ /\
    timers c' = ∅ /\
    sends c' = ∅.
Proof.
  apply (sendCommand_needs_an_open_socket (new "localhost" 9223) get_window_info None
           1764892800000 "k3j2h1g0f" (new_wf "localhost" 9223) eq_refl).
Defined.

Lemma awaiting_reply_wf : wf awaiting_reply.
Proof. apply step_wf, connected_client_wf. Qed.

Lemma commands_fail_after_the_socket_is_gone_witness :
  snd (step (CallSendCommand get_window_info None 1764892800000 "k3j2h1g0f")
         (fst (step CallDisconnect connected_client)))
  = [Reject 0 "Not connected to plugin"] /\
  snd (step (CallSendCommand get_window_info None 1764892800000 "k3j2h1g0f")
         (fst (step (WsClose 0) connected_client)))
  = [Reject 0 "Not connected to plugin"].
Proof.
  apply (commands_fail_after_the_socket_is_gone connected_client 0 get_window_info None
           1764892800000 "k3j2h1g0f" connected_client_wf).
  vm_compute. eauto.
Defined.

Lemma response_ends_the_request_witness :
  let c1 := fst (step (WsMessage 0 (Parsed window_info_reply)) awaiting_reply) in
  snd (step (WsMessage 0 (Parsed window_info_reply)) awaiting_reply)
  = [ClearTimeout 0; Resolve 0 window_info_reply] /\
  promises c1 !! 0 = Some (Resolved window_info_reply) /\
  _pendingRequests c1 !! "req_1764892800000_k3j2h1g0f" = None /\
  step (TimerFire 0) c1 = (c1, []) /\
  step (WsMessage 0 (Parsed window_info_reply)) c1 = (c1, [EmitEvent window_info_reply]).
Proof.
  apply (response_ends_the_request awaiting_reply 0 window_info_reply
           "req_1764892800000_k3j2h1g0f" {| promise := 0; timeout := 0 |}
           awaiting_reply_wf).
  - vm_compute. eauto.
  - reflexivity.
  - discriminate.
  - vm_compute. reflexivity.
Defined.

Lemma late_response_is_broadcast_witness :
  let c1 := fst (step (TimerFire 0) awaiting_reply) in
  promises c1 !! 0 = Some (Rejected "Request timeout after 5000ms") /\
  step (WsMessage 0 (Parsed window_info_reply)) c1 = (c1, [EmitEvent window_info_reply]) /\
  step (TimerFire 0) c1 = (c1, []).
Proof.
  apply (late_response_is_broadcast awaiting_reply 0 0 5000 0
           "req_1764892800000_k3j2h1g0f" 5000 window_info_reply awaiting_reply_wf).
  - vm_compute. eauto.
  - vm_compute. reflexivity.
  - reflexivity.
Defined.

Lemma unmatched_frames_change_nothing_witness :
  run (WsMessage 0 <$> [Unparseable; Parsed window_event; Parsed window_info_reply])
    connected_client
  = (connected_client, [EmitEvent window_event; EmitEvent window_info_reply]).
Proof.
  apply (unmatched_frames_change_nothing connected_client 0
           [Unparseable; Parsed window_event; Parsed window_info_reply]).
  - vm_compute. eauto.
  - intros d Hd. repeat (apply elem_of_cons in Hd as [->|Hd]).
    + exact I.
    + intros id. discriminate.
    + intros id _. reflexivity.
    + by apply elem_of_nil in Hd.
Defined.

Lemma failed_send_rejects_the_request_witness :
  exists c',
    step (SendDone 0 (Some "Error: write EPIPE"))
      (fst (run [WsMessage 0 (Parsed window_event)] awaiting_reply))
    = (c', [ClearTimeout 0; Reject 0 "Error: write EPIPE"]) /\
    promises c' !! 0 = Some (Rejected "Error: write EPIPE") /\
    _pendingRequests c' !! "req_1764892800000_k3j2h1g0f" = None /\
    step (TimerFire 0) c' = (c', []).
Proof.
  apply (failed_send_rejects_the_request connected_client get_window_info None
           1764892800000 "k3j2h1g0f" [WsMessage 0 (Parsed window_event)]
           "Error: write EPIPE" connected_client_wf eq_refl).
  - intros e He. apply elem_of_cons in He as [->|He]; [reflexivity|].
    by apply elem_of_nil in He.
  - intros e err He. apply elem_of_cons in He as [->|He]; [discriminate|].
    by apply elem_of_nil in He.
Defined.

Lemma disconnect_ends_reconnection_witness :
  snd (step CallDisconnect connected_client) = [WsCloseCall 0] /\
  _reconnectAttempts (fst (step CallDisconnect connected_client)) = 5%Z /\
  reconnect_delays
    (snd (run (CallDisconnect
               :: [WsClose 0; CallConnect; WsError 1 "ECONNREFUSED"; WsClose 1])
            connected_client)) = [].
Proof.
  apply (disconnect_ends_reconnection "localhost" 9223 [CallConnect; WsOpen 0]
           [WsClose 0; CallConnect; WsError 1 "ECONNREFUSED"; WsClose 1] 0).
  - reflexivity.
  - intros e He. repeat (apply elem_of_cons in He as [->|He]); try reflexivity.
    by apply elem_of_nil in He.
Defined.

End RequestProofs.

(** * Properties of the session registry *)

Module RegistryProofs.
Import AppDiscovery Scenarios Invariants Examples DiscoveryProofs TextProofs.

Lemma new_registry_ok parseInt env host basePort :
  registry_ok (new parseInt env host basePort).
Proof. intros key s H. cbn in H. by rewrite lookup_empty in H. Qed.

Lemma await_connect_new_cases o host port :
  exists c, await_connect o (PluginClient.new host port)
            = (match o with
               | Opens => Resolved
               | Fails e => Unsettled (Some e)
               | Throws e => Rejected e
               | Hangs => Unsettled None
               end, c).
Proof.
  destruct o as [|e|e|]; cbn; eauto.
Qed.

Lemma open_session_cases net port appName targetHost d io :
  (exists c,
     connect_outcome net io targetHost port = Opens /\
     let session :=
       {| appId := session_id targetHost port;
          name := default (default_name targetHost port) (Config.truthy appName);
          host := targetHost; port := port; client := Some c; connected := true |} in
     open_session net port appName targetHost d io
     = (inr session,
        set_activeSessions (<[session_id targetHost port := session]> (_activeSessions d)) d,
        io ++ [IoConnect targetHost port]))
  \/
  (exists abort,
     match connect_outcome net io targetHost port with
     | Opens => False
     | Fails err => abort = Async.Uncaught err
     | Throws err => abort = Async.Thrown (connect_error targetHost port err)
     | Hangs => abort = Async.Pending
     end /\
     open_session net port appName targetHost d io
     = (inl abort, d, io ++ [IoConnect targetHost port])).
Proof.
  unfold open_session.
  destruct (await_connect_new_cases (connect_outcome net io targetHost port) targetHost port)
    as [c Hc].
  rewrite Hc. destruct (connect_outcome net io targetHost port) as [|err|err|].
  - left. eauto.
  - right. eauto.
  - right. eauto.
  - right. eauto.
Qed.

Lemma connectToPort_success :
  forall (net : Network) (port : Z) (appName host : option string) (d : t)
         (io : list IoEvent) (session : SessionInfo) (d' : t) (io' : list IoEvent),
    registry_ok d ->
    connectToPort net port appName host d io = (inr session, d', io') ->
    let targetHost := default (_host d) host in
    AppDiscovery.host session = targetHost /\
    AppDiscovery.port session = port /\
    appId session = session_id targetHost port /\
    connected session = true /\
    getSession (session_id targetHost port) d' = Some session /\
    registry_ok d'.
Proof.
  intros net port appName host d io session d' io' Hok Hrun targetHost.
  unfold connectToPort in Hrun. fold targetHost in Hrun.
  assert (Hfresh : open_session net port appName targetHost d io = (inr session, d', io') ->
    AppDiscovery.host session = targetHost /\ AppDiscovery.port session = port /\
    appId session = session_id targetHost port /\ connected session = true /\
    getSession (session_id targetHost port) d' = Some session /\ registry_ok d').
  { intros Hopen.
    destruct (open_session_cases net port appName targetHost d io)
      as [(c & _ & E)|(err & _ & E)]; rewrite E in Hopen; [|discriminate].
    injection Hopen as <- <- _. cbn.
    split; [done|]. split; [done|]. split; [done|]. split; [done|]. split.
    - unfold getSession. cbn. apply lookup_insert_eq.
    - intros key s. cbn. intros [[<- <-]|[Hne Hl]]%lookup_insert_Some.
      + cbn. repeat split. eauto.
      + by apply Hok. }
  destruct (_activeSessions d !! session_id targetHost port) as [existing|] eqn:Hl;
    [|by apply Hfresh].
  destruct (connected existing) eqn:Hc; [|by apply Hfresh].
  injection Hrun as <- <- _.
  destruct (Hok _ _ Hl) as (A & B & C' & D).
  apply session_id_inj in B as [<- <-].
  split; [done|]. split; [done|]. split; [done|]. split; [done|]. split; done.
Qed.

(** X14 (connectToPort, result).  When [connectToPort] returns a
    session, the session is for the requested host and port, is marked
    connected and is the one the registry then holds under the id of that
    endpoint; the registry stays well formed. *)
Theorem connectToPort_returns_the_requested_endpoint :
  forall (net : Network) (port : Z) (appName host : option string) (d : t)
         (io : list IoEvent) (session : SessionInfo) (d' : t) (io' : list IoEvent),
    registry_ok d ->
    connectToPort net port appName host d io = (inr session, d', io') ->
    let targetHost := default (_host d) host in
    AppDiscovery.host session = targetHost /\
    AppDiscovery.port session = port /\
    appId session = session_id targetHost port /\
    connected session = true /\
    getSession (session_id targetHost port) d' = Some session /\
    registry_ok d'.
Proof. apply connectToPort_success. Qed.

(** X15 (connectToPort, reuse).  After [connectToPort] returned a
    session, a further call for the same endpoint returns the same session
    without attempting a connection and without changing the registry,
    whatever the network would answer and whatever name is passed. *)
Theorem connectToPort_reuses_the_session :
  forall (net net' : Network) (port : Z) (appName appName' host : option string) (d : t)
         (io io'' : list IoEvent) (session : SessionInfo) (d' : t) (io' : list IoEvent),
    registry_ok d ->
    connectToPort net port appName host d io = (inr session, d', io') ->
    connectToPort net' port appName' host d' io'' = (inr session, d', io'').
Proof.
  intros net net' port appName appName' host d io io'' session d' io' Hok Hrun.
  destruct (connectToPort_success net port appName host d io
              session d' io' Hok Hrun) as (_ & _ & _ & Hc & Hget & _).
  assert (Hhost : _host d' = _host d).
  { unfold connectToPort in Hrun.
    destruct (_activeSessions d !! _) as [existing|];
      [destruct (connected existing)|];
      try (injection Hrun as _ <- _; done);
      destruct (open_session_cases net port appName (default (_host d) host) d io)
        as [(c & _ & E)|(err & _ & E)]; rewrite E in Hrun; try discriminate;
      by injection Hrun as _ <- _. }
  unfold connectToPort. rewrite Hhost. unfold getSession in Hget. rewrite Hget.
  by rewrite Hc.
Qed.


(** X16 (connectToPort, failure).  When [connectToPort] returns no
    session, it attempted exactly one connection and the registry is
    unchanged.  It throws, with the message "Failed to connect to host:port: "
    followed by the error, when the socket could not be created.  When the
    socket reports an error, the exception of [emit('error')] is uncaught
    and the call does not return; when the socket does nothing, the call
    stays pending. *)
Theorem connectToPort_failure_changes_nothing :
  forall (net : Network) (port : Z) (appName host : option string) (d : t)
         (io : list IoEvent) (abort : Async.Abort) (d' : t) (io' : list IoEvent),
    connectToPort net port appName host d io = (inl abort, d', io') ->
    let targetHost := default (_host d) host in
    d' = d /\
    io' = io ++ [IoConnect targetHost port] /\
    match connect_outcome net io targetHost port with
    | Opens => False
    | Fails err => abort = Async.Uncaught err
    | Throws err =>
        abort = Async.Thrown ("Failed to connect to " +:+ targetHost +:+ ":"
                              +:+ pretty port +:+ ": " +:+ err)
    | Hangs => abort = Async.Pending
    end.
Proof.
  intros net port appName host d io abort d' io' Hrun targetHost.
  unfold connectToPort in Hrun. fold targetHost in Hrun.
  assert (Hfresh : open_session net port appName targetHost d io = (inl abort, d', io') ->
    d' = d /\ io' = io ++ [IoConnect targetHost port] /\
    match connect_outcome net io targetHost port with
    | Opens => False
    | Fails err => abort = Async.Uncaught err
    | Throws err => abort = Async.Thrown (connect_error targetHost port err)
    | Hangs => abort = Async.Pending
    end).
  { intros Hopen.
    destruct (open_session_cases net port appName targetHost d io)
      as [(c & _ & E)|(a & Ho & E)]; rewrite E in Hopen; [discriminate|].
    injection Hopen as <- <- <-. done. }
  destruct (_activeSessions d !! session_id targetHost port) as [existing|];
    [destruct (connected existing); [discriminate|]|]; by apply Hfresh.
Qed.

(** X17 (connectToPort, new session).  For an endpoint the registry
    does not track, when the socket opens, [connectToPort] attempts one
    connection and stores a session under the id of the endpoint, named by
    the given name or else "Tauri App (host:port)", whose client is
    connected to the URL of the endpoint and has made no reconnection. *)
Theorem connectToPort_opens_a_new_session :
  forall (net : Network) (port : Z) (appName host : option string) (d : t)
         (io : list IoEvent),
    let targetHost := default (_host d) host in
    getSession (session_id targetHost port) d = None ->
    connect_outcome net io targetHost port = Opens ->
    exists session c,
      connectToPort net port appName host d io
      = (inr session,
         set_activeSessions (<[session_id targetHost port := session]> (_activeSessions d)) d,
         io ++ [IoConnect targetHost port]) /\
      name session = default ("Tauri App (" +:+ targetHost +:+ ":" +:+ pretty port +:+ ")")
                             (Config.truthy appName) /\
      client session = Some c /\
      PluginClient.isConnected c = true /\
      PluginClient._url c = Config.buildWebSocketURL targetHost port /\
      PluginClient._reconnectAttempts c = 0%Z.
Proof.
  intros net port appName host d io targetHost Hget Ho.
  unfold connectToPort. fold targetHost. unfold getSession in Hget. rewrite Hget.
  unfold open_session. rewrite Ho.
  eexists _, _. split; [reflexivity|]. cbn. repeat split.
Qed.

(** X18 (disconnectAll).  After [disconnectAll] the registry tracks no
    session and keeps its host and base port; calling it again changes
    nothing, and the next [connectToPort] attempts a connection whatever was
    tracked before. *)
Theorem disconnectAll_forgets_every_session :
  forall (d : t),
    (forall id, getSession id (disconnectAll d) = None) /\
    registry_ok (disconnectAll d) /\
    _host (disconnectAll d) = _host d /\
    _basePort (disconnectAll d) = _basePort d /\
    disconnectAll (disconnectAll d) = disconnectAll d /\
    (forall net port appName host io,
       snd (connectToPort net port appName host (disconnectAll d) io)
       = io ++ [IoConnect (default (_host d) host) port]).
Proof.
  intros d. split; [|split; [|split; [done|split; [done|split; [done|]]]]].
  - intros id. unfold getSession. cbn. apply lookup_empty.
  - intros key s H. cbn in H. by rewrite lookup_empty in H.
  - intros net port appName host io. unfold connectToPort. cbn.
    rewrite lookup_empty.
    by destruct (open_session_cases net port appName (default (_host d) host)
                   (disconnectAll d) io) as [(c & _ & ->)|(err & _ & ->)].
Qed.

(** X19 (disconnectSession).  In a well-formed registry
    [disconnectSession] removes the session of the given id and leaves
    every other session as it was; for an id that is not tracked it does
    nothing. *)
Theorem disconnectSession_removes_only_that_session :
  forall (d : t) (id : string),
    registry_ok d ->
    getSession id (disconnectSession id d) = None /\
    (forall other, other <> id ->
                   getSession other (disconnectSession id d) = getSession other d) /\
    registry_ok (disconnectSession id d) /\
    (getSession id d = None -> disconnectSession id d = d).
Proof.
  intros d id Hok. unfold disconnectSession, getSession.
  destruct (_activeSessions d !! id) as [s|] eqn:Hl.
  - destruct (Hok _ _ Hl) as (_ & _ & _ & [c Hc]).
    destruct s as [a n h p cl co]. cbn in Hc. subst cl. cbn.
    split; [apply lookup_delete_eq|]. split; [|split; [|discriminate]].
    + intros other Hne. by apply lookup_delete_ne.
    + intros key s H. cbn in H. apply lookup_delete_Some in H as [_ H]. by apply Hok.
  - split; [done|]. split; [done|]. split; done.
Qed.

Lemma first_connection_run :
  exists session,
    first_connection = (inr session, one_session, [IoConnect "localhost" 9223]).
Proof. eexists. reflexivity. Qed.

Lemma one_session_ok : registry_ok one_session.
Proof.
  destruct first_connection_run as [session E].
  apply (connectToPort_success _ _ _ _ _ _ _ _ _
           (new_registry_ok parse_digits no_env (Some "localhost") (Some 9223%Z)) E).
Qed.

Lemma connectToPort_returns_the_requested_endpoint_witness :
  exists session,
    AppDiscovery.host session = "localhost" /\
    AppDiscovery.port session = 9223%Z /\
    appId session = "localhost_9223" /\
    connected session = true /\
    getSession "localhost_9223" one_session = Some session /\
    registry_ok one_session.
Proof.
  eexists.
  apply (connectToPort_returns_the_requested_endpoint
           (listening [("localhost", 9223%Z)]) 9223 None None local_discovery []
           _ one_session [IoConnect "localhost" 9223]
           (new_registry_ok parse_digits no_env (Some "localhost") (Some 9223%Z))).
  reflexivity.
Defined.

Lemma connectToPort_reuses_the_session_witness :
  exists session,
    connectToPort (listening []) 9223 (Some "Another name") None one_session
      [IoConnect "localhost" 9223]
    = (inr session, one_session, [IoConnect "localhost" 9223]).
Proof.
  eexists.
  apply (connectToPort_reuses_the_session
           (listening [("localhost", 9223%Z)]) (listening []) 9223 None
           (Some "Another name") None local_discovery []
           [IoConnect "localhost" 9223] _ one_session [IoConnect "localhost" 9223]
           (new_registry_ok parse_digits no_env (Some "localhost") (Some 9223%Z))).
  reflexivity.
Defined.

Lemma connectToPort_failure_changes_nothing_witness :
  one_session = one_session /\
  [IoConnect "localhost" 9223; IoConnect "localhost" 9224]
  = [IoConnect "localhost" 9223] ++ [IoConnect "localhost" 9224] /\
  match connect_outcome (listening [("localhost", 9223%Z)]) [IoConnect "localhost" 9223]
          "localhost" 9224 with
  | Opens => False
  | Fails err => Async.Uncaught "Error: connect ECONNREFUSED" = Async.Uncaught err
  | Throws err =>
      Async.Uncaught "Error: connect ECONNREFUSED"
      = Async.Thrown ("Failed to connect to " +:+ "localhost" +:+ ":"
                      +:+ pretty 9224%Z +:+ ": " +:+ err)
  | Hangs => Async.Uncaught "Error: connect ECONNREFUSED" = Async.Pending
  end.
Proof.
  apply (connectToPort_failure_changes_nothing
           (listening [("localhost", 9223%Z)]) 9224 None None one_session
           [IoConnect "localhost" 9223]
           (Async.Uncaught "Error: connect ECONNREFUSED")
           one_session [IoConnect "localhost" 9223; IoConnect "localhost" 9224]).
  vm_compute. reflexivity.
Defined.

Lemma connectToPort_opens_a_new_session_witness :
  exists session c,
    connectToPort (listening [("localhost", 9223%Z); ("localhost", 9224%Z)]) 9224
      (Some "Second app") None one_session [IoConnect "localhost" 9223]
    = (inr session,
       set_activeSessions (<["localhost_9224" := session]> (_activeSessions one_session))
         one_session,
       [IoConnect "localhost" 9223] ++ [IoConnect "localhost" 9224]) /\
    name session = "Second app" /\
    client session = Some c /\
    PluginClient.isConnected c = true /\
    PluginClient._url c = "ws://localhost:9224" /\
    PluginClient._reconnectAttempts c = 0%Z.
Proof.
  apply (connectToPort_opens_a_new_session
           (listening [("localhost", 9223%Z); ("localhost", 9224%Z)]) 9224
           (Some "Second app") None one_session [IoConnect "localhost" 9223]).
  - vm_compute. reflexivity.
  - vm_compute. reflexivity.
Defined.

Lemma disconnectSession_removes_only_that_session_witness :
  getSession "localhost_9223" (disconnectSession "localhost_9223" one_session) = None /\
  (forall other, other <> "localhost_9223" ->
                 getSession other (disconnectSession "localhost_9223" one_session)
                 = getSession other one_session) /\
  registry_ok (disconnectSession "localhost_9223" one_session) /\
  (getSession "localhost_9223" one_session = None ->
   disconnectSession "localhost_9223" one_session = one_session).
Proof.
  apply (disconnectSession_removes_only_that_session one_session "localhost_9223").
  apply one_session_ok.
Defined.

End RegistryProofs.

(** * Further properties of the session coordinator *)

Module StartProofs.
Import SessionManager Scenarios Invariants Examples SessionProofs.

Lemma connect_reply_run h host port (fmt : Session -> string) s :
  (session ← tryConnect h host port;
   modify (set_currentSession (Some session));;
   mret (fmt session)) s
  = match tryConnect h host port s with
    | (inr session, s') => (inr (fmt session), set_currentSession (Some session) s')
    | (inl e, s') => (inl e, s')
    end.
Proof.
  rewrite bind_run. by destruct (tryConnect h host port s) as [[e|session] s'].
Qed.

Lemma attempt_connect_result h host port fmt s :
  strategy_result fmt s
    (attempt (session ← tryConnect h host port;
              modify (set_currentSession (Some session));;
              mret (fmt session)) s) /\
  pluginClient
    (snd (attempt (session ← tryConnect h host port;
                   modify (set_currentSession (Some session));;
                   mret (fmt session)) s)) = pluginClient s.
Proof.
  rewrite attempt_connect.
  destruct (tryConnect_spec h host port s) as (A & B & C & _).
  destruct (tryConnect h host port s) as [[[e|e|]|session] s']; cbn [fst snd] in *;
    (split; [|done]); (split; [done|]); cbn [fst snd]; eauto.
Qed.

Lemma attempt_reset_connect_result h host port fmt s :
  strategy_result fmt s
    (attempt (resetPluginClient;;
              session ← tryConnect h host port;
              modify (set_currentSession (Some session));;
              mret (fmt session)) s) /\
  pluginClient
    (snd (attempt (resetPluginClient;;
                   session ← tryConnect h host port;
                   modify (set_currentSession (Some session));;
                   mret (fmt session)) s)) = None.
Proof.
  unfold attempt, try_catch. rewrite !bind_run, resetPluginClient_run, connect_reply_run.
  destruct (tryConnect_spec h host port (set_pluginClient None s)) as (A & B & C & _).
  destruct (tryConnect h host port (set_pluginClient None s)) as [[[e|e|]|session] s'];
    cbn [fst snd] in *; unfold mret, M_ret;
    (split; [|done]); (split; [done|]); cbn [fst snd]; eauto.
Qed.

Lemma getAppDiscovery_run h host s :
  exists d,
    getAppDiscovery h host s = (inr d, set_appDiscovery (Some d) s) /\
    AppDiscovery._host d = host /\
    (appDiscovery s = Some d \/
     d = AppDiscovery.new (parseInt h) (env h) (Some host) None).
Proof.
  unfold getAppDiscovery. destruct (appDiscovery s) as [d0|] eqn:E.
  - case_bool_decide.
    + exists d0. split; [|split; [done|by left]]. f_equal. destruct s. cbn in *. by subst.
    + eexists. split; [reflexivity|]. split; [done|by right].
  - eexists. split; [reflexivity|]. split; [done|by right].
Qed.

(** Strategy 3 when the port is not explicit: a scan, then a connection to
    the first port found, if the scan returns one. *)
Lemma strategy3_run h s :
  exists d,
    AppDiscovery._host d = "localhost" /\
    strategy3 h false s
    = match AppDiscovery.getFirstAvailableApp (net h) d (io s) with
      | (inr (Some firstApp), io') =>
          attempt (resetPluginClient;;
                   session ← tryConnect h "localhost" (AppDiscovery.app_port firstApp);
                   modify (set_currentSession (Some session));;
                   mret (started_on_localhost session))
            (set_io io' (set_appDiscovery (Some d) s))
      | (inr None, io') => (inr None, set_io io' (set_appDiscovery (Some d) s))
      | (inl abort, io') => (inl abort, set_io io' (set_appDiscovery (Some d) s))
      end.
Proof.
  destruct (getAppDiscovery_run h "localhost" s) as (d & E & Hh & _).
  exists d. split; [done|].
  unfold strategy3. cbn [negb]. rewrite bind_run, E, bind_run.
  unfold getFirstAvailableApp. cbn [io set_appDiscovery].
  by destruct (AppDiscovery.getFirstAvailableApp (net h) d (io s)) as [[abort|[app|]] io'].
Qed.

(** A scan does not throw. *)
Lemma scan_not_thrown net d offsets : forall apps io e,
  fst (AppDiscovery.scan net d offsets apps io) <> inl (Async.Thrown e).
Proof.
  induction offsets as [|k offsets IH]; intros apps io e; cbn [AppDiscovery.scan].
  - discriminate.
  - unfold AppDiscovery._isPortInUse. rewrite DiscoveryProofs.probe_new.
    destruct (AppDiscovery.probe_outcome _ _ _ _); try apply IH. discriminate.
Qed.

Lemma getFirstAvailableApp_not_thrown net d io e :
  fst (AppDiscovery.getFirstAvailableApp net d io) <> inl (Async.Thrown e).
Proof.
  unfold AppDiscovery.getFirstAvailableApp, AppDiscovery.discoverApps.
  pose proof (scan_not_thrown net d (seq 0 (AppDiscovery._maxPorts d)) [] io e) as Hs.
  destruct (AppDiscovery.scan _ _ _ _ _) as [[abort|apps] io']; cbn [fst] in *.
  - intros [= ->]. by apply Hs.
  - discriminate.
Qed.

Lemma strategy3_result h explicit s :
  strategy_result started_on_localhost s (strategy3 h explicit s) /\
  (pluginClient s = None -> pluginClient (snd (strategy3 h explicit s)) = None).
Proof.
  destruct explicit.
  - unfold strategy3. cbn. split; [|done]. split; done.
  - destruct (strategy3_run h s) as (d & _ & ->).
    pose proof (getFirstAvailableApp_not_thrown (net h) d (io s)) as Hn.
    destruct (AppDiscovery.getFirstAvailableApp (net h) d (io s)) as [[abort|[app|]] io'].
    + split; [|done]. split; [done|]. cbn [fst snd] in *.
      destruct abort as [e| |]; [by destruct (Hn e)|done|done].
    + destruct (attempt_reset_connect_result h "localhost" (AppDiscovery.app_port app)
                  started_on_localhost (set_io io' (set_appDiscovery (Some d) s)))
        as [[A B] C].
      split; [|done]. split; [done|]. done.
    + split; [|done]. split; done.
Qed.

Lemma strategy4_result h cfgHost cfgPort s :
  let r := strategy4 h cfgHost cfgPort s in
  pluginClient (snd r) = None /\
  executorInitialized (snd r) = executorInitialized s /\
  match fst r with
  | inr reply =>
      (exists session, reply = started_on_host session /\
                       currentSession (snd r) = Some session)
      \/ (reply = started_without_app cfgHost cfgPort /\ currentSession (snd r) = None)
  | inl (Async.Thrown _) => False
  | inl _ => currentSession (snd r) = currentSession s
  end.
Proof.
  unfold strategy4, try_catch. rewrite bind_run, resetPluginClient_run, connect_reply_run.
  destruct (tryConnect_spec h cfgHost cfgPort (set_pluginClient None s)) as (A & B & C & _).
  destruct (tryConnect h cfgHost cfgPort (set_pluginClient None s)) as [[[e|e|]|session] s'];
    cbn [fst snd] in *; rewrite ?bind_run; unfold modify, mret, M_ret;
    cbn [fst snd currentSession set_currentSession pluginClient executorInitialized];
    (split; [done|]); (split; [done|]); eauto.
Qed.

(** What every [start] leaves behind. *)
Lemma start_outcome h host port s :
  let cfgHost := default (Config.getDefaultHost (env h)) host in
  let cfgPort := default (Config.getDefaultPort (parseInt h) (env h)) port in
  let r := manageDriverSession h start host port s in
  pluginClient (snd r) = None /\
  executorInitialized (snd r) = executorInitialized s /\
  match fst r with
  | inr reply =>
      (exists session,
         currentSession (snd r) = Some session /\
         (reply = started_on_localhost session \/ reply = started_on_host session))
      \/
      (currentSession (snd r) = None /\
       (reply = failed_explicit cfgHost cfgPort \/
        reply = started_without_app cfgHost cfgPort))
  | inl (Async.Thrown _) => False
  | inl _ => currentSession (snd r) = currentSession s
  end.
Proof.
  intros cfgHost cfgPort r. subst r. rewrite start_run. cbv zeta. fold cfgHost cfgPort.
  set (explicit := bool_decide (is_Some port) || isPortExplicitlyConfigured h).
  set (s0 := set_pluginClient None s).
  assert (A0 : executorInitialized s0 = executorInitialized s) by done.
  assert (P0 : pluginClient s0 = None) by done.
  assert (C0 : currentSession s0 = currentSession s) by done.
  clearbody s0.
  assert (S1 : strategy_result started_on_localhost s0 (strategy1 h cfgHost cfgPort s0) /\
               pluginClient (snd (strategy1 h cfgHost cfgPort s0)) = None).
  { unfold strategy1. case_bool_decide.
    - destruct (attempt_connect_result h "localhost" cfgPort started_on_localhost s0)
        as [X Y].
      split; [done|congruence].
    - split; [|done]. split; done. }
  destruct S1 as [[A1 S1] B1].
  destruct (strategy1 h cfgHost cfgPort s0) as [[[e|e|]|[reply|]] s1];
    cbn [fst snd] in *; try done.
  - split; [done|]. split; congruence.
  - split; [done|]. split; congruence.
  - destruct S1 as (session & -> & Hc). split; [done|]. split; [congruence|]. eauto.
  - destruct (attempt_connect_result h cfgHost cfgPort started_on_host s1) as [[A2 S2] B2].
    fold (strategy2 h cfgHost cfgPort) in A2, S2, B2.
    destruct (strategy2 h cfgHost cfgPort s1) as [[[e|e|]|[reply|]] s2];
      cbn [fst snd] in *; try done.
    + split; [congruence|]. split; congruence.
    + split; [congruence|]. split; congruence.
    + destruct S2 as (session & -> & Hc). split; [congruence|]. split; [congruence|]. eauto.
    + destruct (strategy3_result h explicit s2) as [[A3 S3] B3].
      destruct (strategy3 h explicit s2) as [[[e|e|]|[reply|]] s3];
        cbn [fst snd] in *; try done.
      * split; [apply B3; congruence|]. split; congruence.
      * split; [apply B3; congruence|]. split; congruence.
      * destruct S3 as (session & -> & Hc).
        split; [apply B3; congruence|]. split; [congruence|]. eauto.
      * destruct explicit.
        -- cbn. split; [apply B3; congruence|]. split; [congruence|]. eauto.
        -- destruct (strategy4_result h cfgHost cfgPort s3) as (P4 & E4 & R4).
           split; [done|]. split; [congruence|].
           destruct (fst (strategy4 h cfgHost cfgPort s3)) as [[e|e|]|reply];
             [done|congruence|congruence|].
           destruct R4 as [(session & -> & Hc)|[-> Hc]]; eauto 8.
Qed.

Lemma status_run h s :
  manageDriverSession_status h s
  = let client :=
      default (PluginClient.new (Config.getDefaultHost (env h))
                 (Config.getDefaultPort (parseInt h) (env h)))
              (pluginClient s) in
    (inr (match currentSession s with
          | Some current =>
              if PluginClient.isConnected client then status_connected current
              else status_disconnected
          | None => status_disconnected
          end), set_pluginClient (Some client) s).
Proof.
  unfold manageDriverSession_status.
  rewrite bind_run. unfold getPluginClient, PluginClient.getPluginClient.
  destruct s as [ad [cur|] [c|] ei io0]; cbn; try reflexivity;
    destruct (PluginClient.isConnected c); reflexivity.
Qed.

Lemma status_without_client h s :
  pluginClient s = None ->
  fst (manageDriverSession_status h s) = inr status_disconnected.
Proof.
  intros Hc. rewrite status_run, Hc. cbn. by destruct (currentSession s).
Qed.

Lemma stop_run s :
  manageDriverSession_stop s
  = (inr "Session stopped",
     {| appDiscovery := AppDiscovery.disconnectAll <$> appDiscovery s;
        currentSession := None;
        pluginClient := None;
        executorInitialized := false;
        io := io s |}).
Proof.
  unfold manageDriverSession_stop.
  rewrite bind_run. unfold modify at 1. rewrite bind_run, resetPluginClient_run.
  destruct s as [[d|] cur pc ei io0]; reflexivity.
Qed.

(** The strategy that runs first: strategy 1, or strategy 2 when localhost
    is what was configured. *)
Lemma first_attempt h host port s :
  let cfgHost := default (Config.getDefaultHost (env h)) host in
  let cfgPort := default (Config.getDefaultPort (parseInt h) (env h)) port in
  let first := if bool_decide (cfgHost ≠ "localhost" ∧ cfgHost ≠ "127.0.0.1")
               then "localhost" else cfgHost in
  let r := manageDriverSession h start host port s in
  cached first cfgPort s = false ->
  forall abort,
    match AppDiscovery.connect_outcome (net h) (io s) first cfgPort with
    | AppDiscovery.Fails err => abort = Async.Uncaught err
    | AppDiscovery.Hangs => abort = Async.Pending
    | _ => False
    end ->
    fst r = inl abort /\
    attempts_of s (snd r) = [AppDiscovery.IoConnect first cfgPort] /\
    currentSession (snd r) = currentSession s.
Proof.
  intros cfgHost cfgPort first r Hc abort Ho. subst r. rewrite start_run. cbv zeta.
  fold cfgHost cfgPort.
  set (s0 := set_pluginClient None s).
  assert (Hio0 : extends s s0 []) by (unfold extends; cbn; by rewrite app_nil_r).
  assert (Hc0 : forall a b, cached a b s0 = cached a b s) by done.
  change (io s) with (io s0) in Ho.
  destruct (loopback_dec cfgHost) as [[Hn1 Hn2]|Hl].
  - assert (Hfirst : first = "localhost")
      by (subst first; by rewrite (bool_decide_eq_true_2 _ (conj Hn1 Hn2))).
    clearbody first. subst first.
    destruct (strategy1_spec h cfgHost cfgPort s0 Hn1 Hn2) as (_ & _ & S1).
    destruct S1 as [(Hc' & _)|(_ & E1 & S1)]; [rewrite Hc0 in Hc'; congruence|].
    destruct (AppDiscovery.connect_outcome (net h) (io s0) "localhost" cfgPort)
      as [|err|err|]; try done; subst abort; destruct S1 as [S1 C1];
      destruct (strategy1 h cfgHost cfgPort s0) as [r1 s1]; cbn [fst snd] in *;
      subst r1; (split; [done|]); (split; [|done]);
      apply attempts_of_extends, (extends_trans _ _ _ _ _ Hio0 E1).
  - assert (Hfirst : first = cfgHost)
      by (subst first; rewrite bool_decide_eq_false_2; [done|tauto]).
    clearbody first. subst first.
    rewrite strategy1_loopback by done.
    destruct (strategy2_spec h cfgHost cfgPort s0) as (_ & _ & S2).
    destruct S2 as [(Hc' & _)|(_ & E2 & S2)]; [rewrite Hc0 in Hc'; congruence|].
    destruct (AppDiscovery.connect_outcome (net h) (io s0) cfgHost cfgPort)
      as [|err|err|]; try done; subst abort; destruct S2 as [S2 C2];
      destruct (strategy2 h cfgHost cfgPort s0) as [r2 s2]; cbn [fst snd] in *;
      subst r2; (split; [done|]); (split; [|done]);
      apply attempts_of_extends, (extends_trans _ _ _ _ _ Hio0 E2).
Qed.

(** X20 (start, refused connection).  The first connection of [start] is
    to localhost on the configured port, or to the configured host when that
    is "localhost" or "127.0.0.1".  When no session for that endpoint is
    tracked and the connection is refused, [start] gives no reply: the
    exception of [emit('error')] is uncaught, nothing else is attempted and
    the session record is as it was.  When the socket never answers, [start]
    stays pending, likewise after this one attempt. *)
Theorem start_ends_at_a_refused_connection :
  forall (h : Host) (host : option string) (port : option Z) (s : State),
    let cfgHost := default (Config.getDefaultHost (env h)) host in
    let cfgPort := default (Config.getDefaultPort (parseInt h) (env h)) port in
    let first := if bool_decide (cfgHost ≠ "localhost" ∧ cfgHost ≠ "127.0.0.1")
                 then "localhost" else cfgHost in
    let r := manageDriverSession h start host port s in
    cached first cfgPort s = false ->
    (forall err,
       AppDiscovery.connect_outcome (net h) (io s) first cfgPort = AppDiscovery.Fails err ->
       fst r = inl (Async.Uncaught err) /\
       attempts_of s (snd r) = [AppDiscovery.IoConnect first cfgPort] /\
       currentSession (snd r) = currentSession s) /\
    (AppDiscovery.connect_outcome (net h) (io s) first cfgPort = AppDiscovery.Hangs ->
     fst r = inl Async.Pending /\
     attempts_of s (snd r) = [AppDiscovery.IoConnect first cfgPort] /\
     currentSession (snd r) = currentSession s).
Proof.
  intros h host port s cfgHost cfgPort first r Hc. split.
  - intros err Ho. apply (first_attempt h host port s Hc). fold cfgHost cfgPort first.
    by rewrite Ho.
  - intros Ho. apply (first_attempt h host port s Hc). fold cfgHost cfgPort first.
    by rewrite Ho.
Qed.

(** X22 (no rejection).  [manageDriverSession] never throws: what
    [tryConnect] throws is caught by the strategy that called it, and a scan
    throws nothing.  A call either replies or does not return; [status] and
    [stop] always reply. *)
Theorem manageDriverSession_never_throws :
  forall (h : Host) (action : Action) (host : option string) (port : option Z) (s : State),
    let r := manageDriverSession h action host port s in
    (forall e, fst r <> inl (Async.Thrown e)) /\
    (action <> start -> exists reply, fst r = inr reply).
Proof.
  intros h [] host port s r; subst r.
  - split; [|done]. intros e He.
    destruct (start_outcome h host port s) as (_ & _ & R). by rewrite He in R.
  - cbn [manageDriverSession]. rewrite stop_run. split; [discriminate|eauto].
  - cbn [manageDriverSession]. rewrite status_run. split; [discriminate|eauto].
Qed.

(** X23 (start, reply and record).  After [start] the singleton
    client is discarded.  When [start] replies, either a session is recorded
    and the reply is one of the two success messages for that very session,
    or no session is recorded, also when one was before, and the reply is
    one of the two failure messages for the configured endpoint.  When
    [start] does not return, the session record is as it was. *)
Theorem start_reply_names_the_recorded_session :
  forall (h : Host) (host : option string) (port : option Z) (s : State),
    let cfgHost := default (Config.getDefaultHost (env h)) host in
    let cfgPort := default (Config.getDefaultPort (parseInt h) (env h)) port in
    let r := manageDriverSession h start host port s in
    pluginClient (snd r) = None /\
    (forall reply,
       fst r = inr reply ->
       (exists session,
          currentSession (snd r) = Some session /\
          (reply = started_on_localhost session \/ reply = started_on_host session))
       \/
       (currentSession (snd r) = None /\
        (reply = failed_explicit cfgHost cfgPort \/
         reply = started_without_app cfgHost cfgPort))) /\
    (forall abort, fst r = inl abort -> currentSession (snd r) = currentSession s).
Proof.
  intros h host port s cfgHost cfgPort r.
  destruct (start_outcome h host port s) as (A & _ & R). fold cfgHost cfgPort r in R.
  split; [done|]. split.
  - intros reply He. by rewrite He in R.
  - intros abort He. rewrite He in R. by destruct abort.
Qed.

(** X24 (status after start).  A [status] call that directly
    follows a [start] call replies with the not-connected shape, whether
    [start] found an app or not: [start] discards the singleton client and
    connects through the clients of the registry, and [status] looks at the
    singleton it then creates. *)
Theorem status_right_after_start_is_not_connected :
  forall (h : Host) (host host' : option string) (port port' : option Z) (s : State),
    fst (manageDriverSession h status host' port'
           (snd (manageDriverSession h start host port s)))
    = inr status_disconnected.
Proof.
  intros h host host' port port' s. apply status_without_client.
  apply (start_outcome h host port s).
Qed.

(** X25 (stop).  From any state [stop] replies "Session stopped",
    attempts no connection and leaves no recorded session, no singleton
    client and no session in the registry, which itself is kept; a [status]
    call afterwards replies with the not-connected shape, and a second
    [stop] replies the same and changes none of these. *)
Theorem stop_clears_the_session :
  forall (h : Host) (host host' : option string) (port port' : option Z) (s : State),
    let r := manageDriverSession h stop host port s in
    fst r = inr "Session stopped" /\
    currentSession (snd r) = None /\
    pluginClient (snd r) = None /\
    (forall d, appDiscovery (snd r) = Some d -> AppDiscovery._activeSessions d = ∅) /\
    (is_Some (appDiscovery (snd r)) <-> is_Some (appDiscovery s)) /\
    io (snd r) = io s /\
    fst (manageDriverSession h status host' port' (snd r)) = inr status_disconnected /\
    (let r' := manageDriverSession h stop host' port' (snd r) in
     fst r' = fst r /\
     appDiscovery (snd r') = appDiscovery (snd r) /\
     currentSession (snd r') = None /\
     pluginClient (snd r') = None /\
     io (snd r') = io s).
Proof.
  intros h host host' port port' s r. subst r. cbn [manageDriverSession].
  rewrite !stop_run. cbn [fst snd currentSession pluginClient appDiscovery io].
  split; [done|]. split; [done|]. split; [done|]. split.
  { intros d. destruct (appDiscovery s); [|done]. by intros [= <-]. }
  split.
  { destruct (appDiscovery s); cbn; split; intros [? ?]; eauto; done. }
  split; [done|]. split.
  { by apply status_without_client. }
  split; [done|]. split; [|done]. by destruct (appDiscovery s).
Qed.

(** The connections of one strategy are to its own endpoint. *)
Lemma attempt_events h host port (fmt : Session -> string) s :
  exists evs,
    extends s (snd (attempt (session ← tryConnect h host port;
                             modify (set_currentSession (Some session));;
                             mret (fmt session)) s)) evs /\
    forall ev, ev ∈ evs -> ev = AppDiscovery.IoConnect host port.
Proof.
  destruct (attempt_connect_spec h host port fmt s) as (_ & _ & [(_ & E & _)|(_ & E & _)]).
  - exists []. split; [done|]. by intros ev Hev%elem_of_nil.
  - eexists. split; [exact E|]. by intros ev Hev%list_elem_of_singleton.
Qed.

Lemma strategy1_events h cfgHost cfgPort s :
  exists evs,
    extends s (snd (strategy1 h cfgHost cfgPort s)) evs /\
    forall ev, ev ∈ evs -> ev = AppDiscovery.IoConnect "localhost" cfgPort.
Proof.
  unfold strategy1. case_bool_decide; [apply attempt_events|].
  exists []. split; [|by intros ev Hev%elem_of_nil].
  unfold extends. cbn. by rewrite app_nil_r.
Qed.

Lemma explicit_start_events h host port s :
  let cfgHost := default (Config.getDefaultHost (env h)) host in
  let cfgPort := default (Config.getDefaultPort (parseInt h) (env h)) port in
  bool_decide (is_Some port) || isPortExplicitlyConfigured h = true ->
  exists e1 e2,
    extends s (snd (manageDriverSession h start host port s)) (e1 ++ e2) /\
    (forall ev, ev ∈ e1 -> ev = AppDiscovery.IoConnect "localhost" cfgPort) /\
    (forall ev, ev ∈ e2 -> ev = AppDiscovery.IoConnect cfgHost cfgPort).
Proof.
  intros cfgHost cfgPort Hexp. rewrite start_run. cbv zeta. fold cfgHost cfgPort.
  rewrite Hexp. unfold strategy3. cbn [negb]. unfold mret, M_ret.
  set (s0 := set_pluginClient None s).
  assert (Hio0 : extends s s0 []) by (unfold extends; cbn; by rewrite app_nil_r).
  destruct (strategy1_events h cfgHost cfgPort s0) as (e1 & E1 & H1).
  pose proof (extends_trans _ _ _ _ _ Hio0 E1) as E01. cbn [app] in E01.
  assert (Hnil : forall ev, ev ∈ @nil AppDiscovery.IoEvent ->
                            ev = AppDiscovery.IoConnect cfgHost cfgPort)
    by (by intros ev Hev%elem_of_nil).
  destruct (strategy1 h cfgHost cfgPort s0) as [[a|[reply|]] s1]; cbn [fst snd] in *.
  - exists e1, []. rewrite app_nil_r. done.
  - exists e1, []. rewrite app_nil_r. done.
  - destruct (attempt_events h cfgHost cfgPort started_on_host s1) as (e2 & E2 & H2).
    fold (strategy2 h cfgHost cfgPort) in E2.
    pose proof (extends_trans _ _ _ _ _ E01 E2) as E02.
    exists e1, e2. split; [|done].
    destruct (strategy2 h cfgHost cfgPort s1) as [[a|[reply|]] s2]; cbn [fst snd] in *; done.
Qed.

(** X28 (explicit port).  When [start] gets a port parameter or
    [MCP_BRIDGE_PORT] is set, every connection it attempts is to the
    configured port, on localhost or on the configured host, and no port is
    probed, however the call ends.  If no session for these two endpoints is
    tracked and for both the socket cannot be created, the reply is the
    diagnostic that names the configured host and port and says that
    auto-discovery is disabled, and no session is current. *)
Theorem explicit_port_is_never_scanned :
  forall (h : Host) (host : option string) (port : option Z) (s : State),
    let cfgHost := default (Config.getDefaultHost (env h)) host in
    let cfgPort := default (Config.getDefaultPort (parseInt h) (env h)) port in
    let r := manageDriverSession h start host port s in
    is_Some port \/ is_Some (Config.truthy (Config.MCP_BRIDGE_PORT (env h))) ->
    (forall ev, ev ∈ attempts_of s (snd r) ->
                ev = AppDiscovery.IoConnect "localhost" cfgPort \/
                ev = AppDiscovery.IoConnect cfgHost cfgPort) /\
    (cached "localhost" cfgPort s = false ->
     cached cfgHost cfgPort s = false ->
     (forall io, exists err,
        AppDiscovery.connect_outcome (net h) io "localhost" cfgPort
        = AppDiscovery.Throws err) ->
     (forall io, exists err,
        AppDiscovery.connect_outcome (net h) io cfgHost cfgPort
        = AppDiscovery.Throws err) ->
     fst r = inr (failed_explicit cfgHost cfgPort) /\
     currentSession (snd r) = None /\
     attempts_of s (snd r)
     = (if bool_decide (cfgHost ≠ "localhost" ∧ cfgHost ≠ "127.0.0.1")
        then [AppDiscovery.IoConnect "localhost" cfgPort] else [])
       ++ [AppDiscovery.IoConnect cfgHost cfgPort]).
Proof.
  intros h host port s cfgHost cfgPort r Hexp. subst r.
  pose proof (explicit_true h port Hexp) as Hexp'. split.
  - destruct (explicit_start_events h host port s Hexp') as (e1 & e2 & E & H1 & H2).
    rewrite (attempts_of_extends _ _ _ E).
    intros ev [Hev|Hev]%elem_of_app; [left; by apply H1|right; by apply H2].
  - intros Hca Hcb Hf1 Hf2. rewrite start_run. cbv zeta. fold cfgHost cfgPort.
    rewrite Hexp'. unfold strategy3. cbn [negb]. unfold mret, M_ret.
    set (s0 := set_pluginClient None s).
    assert (Hio0 : extends s s0 []) by (unfold extends; cbn; by rewrite app_nil_r).
    assert (Hc0 : forall a b, cached a b s0 = cached a b s) by done.
    destruct (loopback_dec cfgHost) as [[Hn1 Hn2]|Hl].
    + rewrite (bool_decide_eq_true_2 _ (conj Hn1 Hn2)).
      destruct (strategy1_spec h cfgHost cfgPort s0 Hn1 Hn2) as (_ & (d1 & Hd1 & Hh1) & S1).
      destruct S1 as [(Hc & _)|(_ & E1 & S1)]; [rewrite Hc0 in Hc; congruence|].
      destruct (Hf1 (io s0)) as [err1 Ho1]. rewrite Ho1 in S1. destruct S1 as [R1 C1].
      destruct (strategy1 h cfgHost cfgPort s0) as [r1 s1]; cbn [fst snd] in *. subst r1.
      assert (Hc2 : cached cfgHost cfgPort s1 = false).
      { apply (cached_other_host cfgHost cfgPort s1 d1 Hd1). congruence. }
      destruct (strategy2_spec h cfgHost cfgPort s1) as (_ & _ & S2).
      destruct S2 as [(Hc & _)|(_ & E2 & S2)]; [congruence|].
      destruct (Hf2 (io s1)) as [err2 Ho2]. rewrite Ho2 in S2. destruct S2 as [R2 C2].
      destruct (strategy2 h cfgHost cfgPort s1) as [r2 s2]; cbn [fst snd] in *. subst r2.
      split; [done|]. split; [done|].
      apply attempts_of_extends. unfold extends. cbn [io set_currentSession].
      apply (extends_trans _ _ _ _ _ (extends_trans _ _ _ _ _ Hio0 E1) E2).
    + rewrite strategy1_loopback by done.
      rewrite bool_decide_eq_false_2 by tauto.
      destruct (strategy2_spec h cfgHost cfgPort s0) as (_ & _ & S2).
      destruct S2 as [(Hc & _)|(_ & E2 & S2)]; [rewrite Hc0 in Hc; congruence|].
      destruct (Hf2 (io s0)) as [err2 Ho2]. rewrite Ho2 in S2. destruct S2 as [R2 C2].
      destruct (strategy2 h cfgHost cfgPort s0) as [r2 s2]; cbn [fst snd] in *. subst r2.
      split; [done|]. split; [done|].
      apply attempts_of_extends. unfold extends. cbn [io set_currentSession].
      apply (extends_trans _ _ _ _ _ Hio0 E2).
Qed.

Lemma start_ends_at_a_refused_connection_witness :
  let r := manageDriverSession (host_on []) start None None idle in
  fst r = inl (Async.Uncaught "Error: connect ECONNREFUSED") /\
  attempts_of idle (snd r) = [AppDiscovery.IoConnect "localhost" 9223] /\
  currentSession (snd r) = currentSession idle.
Proof.
  refine (proj1 (start_ends_at_a_refused_connection (host_on []) None None idle _)
            "Error: connect ECONNREFUSED" _).
  - reflexivity.
  - reflexivity.
Defined.

Lemma explicit_port_is_never_scanned_witness :
  let r := manageDriverSession quiet_host start (Some "10.0.0.5") (Some 70000%Z) idle in
  fst r = inr (failed_explicit "10.0.0.5" 70000) /\
  currentSession (snd r) = None /\
  attempts_of idle (snd r)
  = [AppDiscovery.IoConnect "localhost" 70000; AppDiscovery.IoConnect "10.0.0.5" 70000].
Proof.
  refine (proj2 (explicit_port_is_never_scanned quiet_host (Some "10.0.0.5")
                   (Some 70000%Z) idle _) eq_refl eq_refl _ _).
  - left. eauto.
  - intros io. eexists. reflexivity.
  - intros io. eexists. reflexivity.
Defined.

End StartProofs.
